(** * E-commerce sales pipeline: cleaning and aggregation

    A shallow embedding of [data_cleaner.py] (clean_ecommerce_data) and
    [analysis.py] (the aggregation views), with the properties of the
    pipeline stated and proved over it.

    Conventions of the embedding.
    - A DataFrame is the list of its rows, in index order; a row is a record
      with one field per column.
    - A float64 cell is a [float]: an exact rational, or [None] for NaN.
      Arithmetic is exact, so nothing here speaks about binary rounding;
      infinities do not arise (a division by zero is collapsed to NaN).
    - A standard deviation is kept as its radicand, and a comparison with
      [mean + 3*std] is decided on squares (see [gt_upper], [lt_lower]).
    - Code that can raise returns a [result].
    - A raw row has its Category cell filled and an order date that
      [pd.to_datetime] has read.  A table with an empty Category cell (the
      median lookup of step 2 raises KeyError on such a row when its price is
      missing too) or with a date that does not parse (the conversion of
      step 3 raises ValueError) is not a value of the raw frame type, and no
      statement below speaks about a run on such a table.
    - Integers are unbounded: the int64 range of [astype(int)] is left out. *)

From Stdlib Require Import List String Ascii ZArith QArith Qround Qabs.
From Stdlib Require Import Lia Lqa Bool Permutation DecimalString Decimal.
From Stdlib Require Reals Qreals Lra Sorting.Sorted.
Import ListNotations.

Local Open Scope string_scope.
Local Open Scope Z_scope.

(** ** Exceptions *)

Inductive error : Type :=
| KeyError (key : string)
| IntCastingNaNError
| ValueError_LengthMismatch (expected : nat) (new_values : nat).

Inductive result (A : Type) : Type :=
| Ok (a : A)
| Err (e : error).
Arguments Ok {A} a.
Arguments Err {A} e.

Definition bind {A B} (m : result A) (k : A -> result B) : result B :=
  match m with
  | Ok a => k a
  | Err e => Err e
  end.

Notation "x <- m ;; k" := (bind m (fun x => k))
  (at level 61, m at next level, right associativity).

(** [df.apply(f, axis=1)]: the rows are visited in order and the first
    exception ends the traversal. *)
Fixpoint apply_rows {A B} (f : A -> result B) (df : list A) : result (list B) :=
  match df with
  | [] => Ok []
  | row :: rest =>
      y <- f row ;;
      ys <- apply_rows f rest ;;
      Ok (y :: ys)
  end.

(** ** Float cells *)

Definition float : Type := option Q.

Definition NaN : float := None.

Definition isnull {A} (x : option A) : bool :=
  match x with
  | None => true
  | Some _ => false
  end.

Definition Qltb (x y : Q) : bool := negb (Qle_bool y x).

Definition fmul (x y : float) : float :=
  match x, y with
  | Some a, Some b => Some (a * b)%Q
  | _, _ => NaN
  end.

(** [x / y]; the result for [y = 0] (inf or NaN in numpy) is collapsed to NaN. *)
Definition fdiv (x y : float) : float :=
  match x, y with
  | Some a, Some b => if Qeq_bool b 0 then NaN else Some (a / b)%Q
  | _, _ => NaN
  end.

(** [x > 0] on a float cell: false on NaN. *)
Definition fgt0 (x : float) : bool :=
  match x with
  | Some a => Qltb 0 a
  | None => false
  end.

(** Equality of two cells as [drop_duplicates] sees it: NaN matches NaN. *)
Definition float_eqb (x y : float) : bool :=
  match x, y with
  | Some a, Some b => Qeq_bool a b
  | None, None => true
  | _, _ => false
  end.

Definition float_eq (x y : float) : Prop :=
  match x, y with
  | Some a, Some b => (a == b)%Q
  | None, None => True
  | _, _ => False
  end.

(** [float.astype(int)]: truncation toward zero; NaN cannot be cast. *)
Definition Qtrunc (q : Q) : Z := Z.quot (Qnum q) (Zpos (Qden q)).

Definition astype_int (x : float) : result Z :=
  match x with
  | Some q => Ok (Qtrunc q)
  | None => Err IntCastingNaNError
  end.

(** Rounding to the nearest integer, ties to the even one, as numpy's
    [round] and Python's [round] do. *)
Definition round_half_even (q : Q) : Z :=
  let f := Qfloor q in
  let r := (q - inject_Z f)%Q in
  if Qltb r (1 # 2) then f
  else if Qltb (1 # 2) r then f + 1
  else if Z.even f then f else f + 1.

(** [round(x, 2)] *)
Definition round2 (q : Q) : Q := (inject_Z (round_half_even (q * 100)) / 100)%Q.

Definition fround2 (x : float) : float := option_map round2 x.

(** ** Column statistics (all skip NaN, as pandas does by default) *)

Fixpoint dropna (xs : list float) : list Q :=
  match xs with
  | [] => []
  | Some q :: rest => q :: dropna rest
  | None :: rest => dropna rest
  end.

Fixpoint Qsum (xs : list Q) : Q :=
  match xs with
  | [] => 0%Q
  | x :: rest => (x + Qsum rest)%Q
  end.

(** [Series.sum()] *)
Definition sum (xs : list float) : Q := Qsum (dropna xs).

Fixpoint Zsum (xs : list Z) : Z :=
  match xs with
  | [] => 0
  | x :: rest => x + Zsum rest
  end.

Definition Qlen (xs : list Q) : Q := inject_Z (Z.of_nat (List.length xs)).

(** [Series.mean()]: NaN on a series with no value. *)
Definition mean (xs : list float) : float :=
  match dropna xs with
  | [] => NaN
  | v :: vs => Some (Qsum (v :: vs) / Qlen (v :: vs))%Q
  end.

(** Sample variance (ddof = 1): NaN with fewer than two values. *)
Definition var (xs : list float) : float :=
  match dropna xs with
  | [] | [_] => NaN
  | vs =>
      let m := (Qsum vs / Qlen vs)%Q in
      Some (Qsum (map (fun x => (x - m) * (x - m)) vs) / (Qlen vs - 1))%Q
  end.

(** [Series.std()] is the square root of [var]; the value √v is carried as
    its radicand [v]. *)
Inductive root : Type := Sqrt (radicand : Q).

Definition std (xs : list float) : option root := option_map Sqrt (var xs).

(** [price > mean + 3*std].  With d = price - mean and std = √v >= 0,
    d > 3√v holds exactly when d > 0 and d² > 9v.  Any NaN operand makes
    the comparison false. *)
Definition gt_upper (price mean_price : float) (std_price : option root) : bool :=
  match price, mean_price, std_price with
  | Some p, Some m, Some (Sqrt v) =>
      Qltb 0 (p - m) && Qltb (9 * v) ((p - m) * (p - m))
  | _, _, _ => false
  end.

(** [price < mean - 3*std], that is mean - price > 3√v. *)
Definition lt_lower (price mean_price : float) (std_price : option root) : bool :=
  match price, mean_price, std_price with
  | Some p, Some m, Some (Sqrt v) =>
      Qltb 0 (m - p) && Qltb (9 * v) ((m - p) * (m - p))
  | _, _, _ => false
  end.

(** Insertion of a value into a list sorted by [leb]; the sort is stable. *)
Fixpoint insert_sorted {A} (leb : A -> A -> bool) (x : A) (l : list A) : list A :=
  match l with
  | [] => [x]
  | y :: rest => if leb x y then x :: l else y :: insert_sorted leb x rest
  end.

Fixpoint sort {A} (leb : A -> A -> bool) (l : list A) : list A :=
  match l with
  | [] => []
  | x :: rest => insert_sorted leb x (sort leb rest)
  end.

(** [Series.median()]: middle value of the sorted non-NaN values, the mean
    of the two middle ones for an even count, NaN for none. *)
Definition median (xs : list float) : float :=
  let vs := sort Qle_bool (dropna xs) in
  let n := List.length vs in
  match n with
  | O => NaN
  | _ =>
      if Nat.even n
      then Some ((nth (Nat.div n 2 - 1)%nat vs 0 + nth (Nat.div n 2) vs 0) / 2)%Q
      else Some (nth (Nat.div n 2) vs 0%Q)
  end.

(** ** Keys, uniqueness and group-by *)

(** What pandas needs of a value used as a key: equality (for [unique],
    [nunique], [drop_duplicates]) and an order (for the sorted keys of
    [groupby]). *)
Class Key (K : Type) : Type := {
  key_eqb : K -> K -> bool;
  key_leb : K -> K -> bool
}.

#[export] Instance Key_string : Key string := {
  key_eqb := String.eqb;
  key_leb := String.leb
}.

#[export] Instance Key_Z : Key Z := {
  key_eqb := Z.eqb;
  key_leb := Z.leb
}.

(** Tuples are compared field by field and ordered lexicographically. *)
#[export] Instance Key_pair {A B} `{Key A} `{Key B} : Key (A * B) := {
  key_eqb x y := key_eqb (fst x) (fst y) && key_eqb (snd x) (snd y);
  key_leb x y :=
    if key_eqb (fst x) (fst y) then key_leb (snd x) (snd y)
    else key_leb (fst x) (fst y)
}.

(** Keep the first of every class of equal elements, in order of first
    appearance: [Series.unique()] and [DataFrame.drop_duplicates()]. *)
Fixpoint dedup {A} (eqb : A -> A -> bool) (l : list A) : list A :=
  match l with
  | [] => []
  | x :: rest => x :: filter (fun y => negb (eqb x y)) (dedup eqb rest)
  end.

Definition unique {K} `{Key K} (l : list K) : list K := dedup key_eqb l.

(** [Series.nunique()] *)
Definition nunique {K} `{Key K} (l : list K) : nat := List.length (unique l).

(** [df.groupby(key)]: one group per distinct key, keys in sorted order,
    each group holding its rows in their original order. *)
Definition groupby {R K} `{Key K} (key : R -> K) (df : list R) : list (K * list R) :=
  map (fun k => (k, filter (fun row => key_eqb (key row) k) df))
      (sort key_leb (unique (map key df))).

(** [series[key]] on a series indexed by its keys. *)
Fixpoint getitem {K V} `{Key K} (series : list (K * V)) (key : K) : option V :=
  match series with
  | [] => None
  | (k, v) :: rest => if key_eqb k key then Some v else getitem rest key
  end.

(** ** Timestamps *)

Record Timestamp : Type := {
  year : Z;
  month : Z;
  day : Z;
  second_of_day : Z
}.

Definition Timestamp_eqb (a b : Timestamp) : bool :=
  (year a =? year b) && (month a =? month b) && (day a =? day b)
  && (second_of_day a =? second_of_day b).

(** Days from 1970-01-01 to a date of the proleptic Gregorian calendar. *)
Definition days_from_civil (y m d : Z) : Z :=
  let y' := if m <=? 2 then y - 1 else y in
  let era := y' / 400 in
  let yoe := y' - era * 400 in
  let mp := (m + 9) mod 12 in
  let doy := (153 * mp + 2) / 5 + d - 1 in
  let doe := yoe * 365 + yoe / 4 - yoe / 100 + doy in
  era * 146097 + doe - 719468.

Definition to_seconds (t : Timestamp) : Z :=
  days_from_civil (year t) (month t) (day t) * 86400 + second_of_day t.

(** [(a - b).days]: whole days of the difference, rounded down. *)
Definition timedelta_days (a b : Timestamp) : Z :=
  (to_seconds a - to_seconds b) / 86400.

(** [strftime('%B')] *)
Definition strftime_B (t : Timestamp) : string :=
  nth (Z.to_nat (month t - 1))
      ["January"; "February"; "March"; "April"; "May"; "June"; "July";
       "August"; "September"; "October"; "November"; "December"] "".

Definition str_of_Z (z : Z) : string := NilZero.string_of_int (Z.to_int z).

Fixpoint zfill_aux (n : nat) (s : string) : string :=
  match n with
  | O => s
  | S n' => zfill_aux n' (String "0"%char s)
  end.

(** [str.zfill(width)] on the digits of a non-negative number. *)
Definition zfill (width : nat) (s : string) : string :=
  zfill_aux (width - String.length s) s.

(** [to_period('M').astype(str)]: the text YYYY-MM. *)
Definition period_M (t : Timestamp) : string :=
  zfill 4 (str_of_Z (year t)) ++ "-" ++ zfill 2 (str_of_Z (month t)).

(** ** The frames *)

(** The raw table, as read from the CSV file.  Price, Quantity and Region
    are the columns in which values may be missing (those the generator
    blanks and step 2 fills); the identifier columns are text.  Every
    numeric column is a float column, so a quantity need not be whole.
    OrderDate holds the timestamp that [pd.to_datetime] reads from the
    cell. *)
Module Raw.
Record Row : Type := mk {
  OrderID : string;
  ProductID : string;
  ProductName : string;
  Category : string;
  Quantity : float;
  Price : float;
  Revenue : float;
  OrderDate : Timestamp;
  CustomerID : string;
  Region : option string
}.

Definition set_Price (row : Row) (v : float) : Row :=
  mk (OrderID row) (ProductID row) (ProductName row) (Category row)
     (Quantity row) v (Revenue row) (OrderDate row) (CustomerID row)
     (Region row).

Definition set_Quantity (row : Row) (v : float) : Row :=
  mk (OrderID row) (ProductID row) (ProductName row) (Category row)
     v (Price row) (Revenue row) (OrderDate row) (CustomerID row)
     (Region row).

Definition set_Region (row : Row) (v : option string) : Row :=
  mk (OrderID row) (ProductID row) (ProductName row) (Category row)
     (Quantity row) (Price row) (Revenue row) (OrderDate row)
     (CustomerID row) v.

Definition set_Revenue (row : Row) (v : float) : Row :=
  mk (OrderID row) (ProductID row) (ProductName row) (Category row)
     (Quantity row) (Price row) v (OrderDate row) (CustomerID row)
     (Region row).

Definition str_eqb (a b : option string) : bool :=
  match a, b with
  | Some x, Some y => String.eqb x y
  | None, None => true
  | _, _ => false
  end.

(** Two rows are duplicates when all their columns agree. *)
Definition eqb (a b : Row) : bool :=
  String.eqb (OrderID a) (OrderID b)
  && String.eqb (ProductID a) (ProductID b)
  && String.eqb (ProductName a) (ProductName b)
  && String.eqb (Category a) (Category b)
  && float_eqb (Quantity a) (Quantity b)
  && float_eqb (Price a) (Price b)
  && float_eqb (Revenue a) (Revenue b)
  && Timestamp_eqb (OrderDate a) (OrderDate b)
  && String.eqb (CustomerID a) (CustomerID b)
  && str_eqb (Region a) (Region b).
End Raw.

(** The cleaned table: the raw columns after type conversion, and the
    derived columns. *)
Record Row : Type := mkRow {
  OrderID : string;
  ProductID : string;
  ProductName : string;
  Category : string;
  Quantity : Z;
  Price : float;
  Revenue : float;
  OrderDate : Timestamp;
  CustomerID : string;
  Region : string;
  TotalSales : float;
  ProfitMargin : float;
  Profit : float;
  Year : Z;
  Month : Z;
  Quarter : Z;
  MonthName : string;
  YearMonth : string;
  DaysSinceOrder : Z
}.

Definition columns : list string :=
  ["OrderID"; "ProductID"; "ProductName"; "Category"; "Quantity"; "Price";
   "Revenue"; "OrderDate"; "CustomerID"; "Region"; "TotalSales";
   "ProfitMargin"; "Profit"; "Year"; "Month"; "Quarter"; "MonthName";
   "YearMonth"; "DaysSinceOrder"].

(** ** data_cleaner.py *)

(** Step 1: [df.drop_duplicates()] *)
Definition drop_duplicates (df : list Raw.Row) : list Raw.Row := dedup Raw.eqb df.

(** [df.groupby('Category')['Price'].median()] *)
Definition category_medians (df : list Raw.Row) : list (string * float) :=
  map (fun g => (fst g, median (map Raw.Price (snd g)))) (groupby Raw.Category df).

Definition series_get (series : list (string * float)) (key : string) : result float :=
  match getitem series key with
  | Some v => Ok v
  | None => Err (KeyError key)
  end.

(** Step 2, Price: a missing price takes the median of its category. *)
Definition fill_price (df : list Raw.Row) : result (list Raw.Row) :=
  if existsb isnull (map Raw.Price df) then
    let category_medians := category_medians df in
    apply_rows
      (fun row =>
         p <- (if isnull (Raw.Price row)
               then series_get category_medians (Raw.Category row)
               else Ok (Raw.Price row)) ;;
         Ok (Raw.set_Price row p))
      df
  else Ok df.

Definition fillna {A} (x : option A) (v : A) : option A :=
  match x with
  | Some a => Some a
  | None => Some v
  end.

(** Step 2, Quantity: [fillna(1)] *)
Definition fill_quantity (df : list Raw.Row) : list Raw.Row :=
  if existsb isnull (map Raw.Quantity df)
  then map (fun row => Raw.set_Quantity row (fillna (Raw.Quantity row) 1%Q)) df
  else df.

(** Step 2, Region: [fillna('Unknown')] *)
Definition fill_region (df : list Raw.Row) : list Raw.Row :=
  if existsb isnull (map Raw.Region df)
  then map (fun row => Raw.set_Region row (fillna (Raw.Region row) "Unknown")) df
  else df.

(** [df['Revenue'] = df['Price'] * df['Quantity']] *)
Definition recalculate_revenue (df : list Raw.Row) : list Raw.Row :=
  map (fun row => Raw.set_Revenue row (fmul (Raw.Price row) (Raw.Quantity row))) df.

(** Step 2 as a whole. *)
Definition handle_missing_values (df : list Raw.Row) : result (list Raw.Row) :=
  df <- fill_price df ;;
  let df := fill_quantity df in
  let df := fill_region df in
  Ok (recalculate_revenue df).

Definition profit_margins : list (string * Q) :=
  [("Electronics", 1 # 4);
   ("Clothing", 7 # 20);
   ("Home & Garden", 3 # 10);
   ("Books", 2 # 5);
   ("Sports & Outdoors", 3 # 10);
   ("Toys & Games", 7 # 20);
   ("Health & Beauty", 2 # 5);
   ("Automotive", 1 # 4);
   ("Food & Beverages", 1 # 5);
   ("Office Supplies", 3 # 10)]%Q.

(** [astype(str)] on an object cell: a missing value becomes the text nan. *)
Definition astype_str (x : option string) : string :=
  match x with
  | Some s => s
  | None => "nan"
  end.

(** Step 4 on one row, given its quantity as an integer: the derived
    columns.  [Series.map(dict)] leaves NaN where the key is absent. *)
Definition derive_columns (current_date : Timestamp) (row : Raw.Row) (quantity : Z) : Row :=
  let revenue := Raw.Revenue row in
  let order_date := Raw.OrderDate row in
  let profit_margin := getitem profit_margins (Raw.Category row) in
  {| OrderID := Raw.OrderID row;
     ProductID := Raw.ProductID row;
     ProductName := Raw.ProductName row;
     Category := Raw.Category row;
     Quantity := quantity;
     Price := Raw.Price row;
     Revenue := revenue;
     OrderDate := order_date;
     CustomerID := Raw.CustomerID row;
     Region := astype_str (Raw.Region row);
     TotalSales := revenue;
     ProfitMargin := profit_margin;
     Profit := fmul revenue profit_margin;
     Year := year order_date;
     Month := month order_date;
     Quarter := (month order_date - 1) / 3 + 1;
     MonthName := strftime_B order_date;
     YearMonth := period_M order_date;
     DaysSinceOrder := timedelta_days current_date order_date |}.

(** Steps 3 and 4 on one row: [Quantity.astype(int)] is the conversion
    that can raise; then the derived columns. *)
Definition convert_and_derive (current_date : Timestamp) (row : Raw.Row) : result Row :=
  quantity <- astype_int (Raw.Quantity row) ;;
  Ok (derive_columns current_date row quantity).

(** Step 5, validation: the mask
    [(Price > 0) & (Quantity > 0) & (Revenue > 0)]. *)
Definition valid (row : Row) : bool :=
  fgt0 (Price row) && (0 <? Quantity row) && fgt0 (Revenue row).

(** The mask of the price outliers of [category], for the limits computed
    from [category_data]. *)
Definition outlier_mask (category : string) (category_data : list Row) (row : Row) : bool :=
  let mean_price := mean (map Price category_data) in
  let std_price := std (map Price category_data) in
  String.eqb (Category row) category
  && (gt_upper (Price row) mean_price std_price
      || lt_lower (Price row) mean_price std_price).

(** One turn of the outlier loop. *)
Definition remove_outliers_of (category : string) (df : list Row) : list Row :=
  let category_data := filter (fun row => String.eqb (Category row) category) df in
  let outliers := filter (outlier_mask category category_data) df in
  if (0 <? List.length outliers)%nat
  then filter (fun row => negb (outlier_mask category category_data row)) df
  else df.

(** The loop [for category in ...]: every turn works on the frame the
    previous turns have left. *)
Fixpoint outlier_loop (categories : list string) (df : list Row) : list Row :=
  match categories with
  | [] => df
  | category :: rest => outlier_loop rest (remove_outliers_of category df)
  end.

(** Step 5, outliers: the categories are those of the frame as the loop
    starts, in order of appearance. *)
Definition remove_outliers (df : list Row) : list Row :=
  outlier_loop (unique (map Category df)) df.

(** The whole of [clean_ecommerce_data], between reading the raw file and
    writing the cleaned one.  [current_date] is [datetime.now()]. *)
Definition clean_ecommerce_data (current_date : Timestamp) (df : list Raw.Row)
  : result (list Row) :=
  let df := drop_duplicates df in
  df <- handle_missing_values df ;;
  df <- apply_rows (convert_and_derive current_date) df ;;
  let df := filter valid df in
  Ok (remove_outliers df).

(** ** analysis.py *)

Definition Qdesc (a b : Q) : bool := Qle_bool b a.

(** Descending order on float cells, NaN last. *)
Definition fdesc (a b : float) : bool :=
  match a, b with
  | Some x, Some y => Qle_bool y x
  | Some _, None => true
  | None, Some _ => false
  | None, None => true
  end.

(** [df.sort_values(col, ascending=False)].  Rows with equal values keep
    their order here; pandas leaves the order of ties to its sorting
    routine, and no property below depends on it. *)
Definition sort_values_desc {R} (col : R -> Q) (df : list R) : list R :=
  sort (fun a b => Qdesc (col a) (col b)) df.

(** [df.sort_values(col)] on a key column. *)
Definition sort_values_asc {R K} `{Key K} (col : R -> K) (df : list R) : list R :=
  sort (fun a b => key_leb (col a) (col b)) df.

Definition head {R} (n : nat) (df : list R) : list R := firstn n df.

Record TotalMetrics : Type := {
  Total_Revenue : Q;
  Total_Sales : Q;
  Total_Profit : Q;
  Total_Orders : nat;
  Total_Products_Sold : Z;
  Average_Order_Value : Q
}.

Definition calculate_total_sales_revenue (df : list Row) : TotalMetrics :=
  let total_revenue := sum (map Revenue df) in
  let total_sales := sum (map TotalSales df) in
  let total_profit := sum (map Profit df) in
  let total_orders := nunique (map OrderID df) in
  let total_products_sold := Zsum (map Quantity df) in
  let average_order_value :=
    if (0 <? total_orders)%nat
    then (total_revenue / inject_Z (Z.of_nat total_orders))%Q
    else 0%Q in
  {| Total_Revenue := round2 total_revenue;
     Total_Sales := round2 total_sales;
     Total_Profit := round2 total_profit;
     Total_Orders := total_orders;
     Total_Products_Sold := total_products_sold;
     Average_Order_Value := round2 average_order_value |}.

Module BestSellers.
Record Row : Type := mk {
  ProductID : string;
  ProductName : string;
  Category : string;
  TotalQuantity : Z;
  TotalRevenue : Q;
  OrderCount : nat
}.
End BestSellers.

(** The product rollup shared by the two best-seller tables. *)
Definition product_rollup (df : list Row) : list BestSellers.Row :=
  map (fun g =>
         let '(product_id, product_name, category) := fst g in
         BestSellers.mk product_id product_name category
           (Zsum (map Quantity (snd g)))
           (sum (map Revenue (snd g)))
           (nunique (map OrderID (snd g))))
      (groupby (fun row => (ProductID row, ProductName row, Category row)) df).

Definition find_best_selling_products (df : list Row) (top_n : nat)
  : list BestSellers.Row * list BestSellers.Row :=
  let top_by_quantity :=
    head top_n
      (sort_values_desc (fun r => inject_Z (BestSellers.TotalQuantity r))
         (product_rollup df)) in
  let top_by_revenue :=
    head top_n (sort_values_desc BestSellers.TotalRevenue (product_rollup df)) in
  (top_by_quantity, top_by_revenue).

Module CategoryAnalysis.
Record Row : Type := mk {
  Category : string;
  TotalRevenue : Q;
  AvgRevenue : float;
  TotalQuantity : Z;
  OrderCount : nat;
  TotalProfit : Q;
  RevenuePercentage : float
}.
End CategoryAnalysis.

(** [(total / grand_total * 100).round(2)] *)
Definition revenue_percentage (total grand_total : Q) : float :=
  fround2 (fmul (fdiv (Some total) (Some grand_total)) (Some 100%Q)).

Definition analyze_high_revenue_categories (df : list Row) : list CategoryAnalysis.Row :=
  let groups := groupby Category df in
  let grand_total :=
    Qsum (map (fun g => sum (map Revenue (snd g))) groups) in
  let category_analysis :=
    map (fun g =>
           let total_revenue := sum (map Revenue (snd g)) in
           CategoryAnalysis.mk (fst g)
             total_revenue
             (mean (map Revenue (snd g)))
             (Zsum (map Quantity (snd g)))
             (nunique (map OrderID (snd g)))
             (sum (map Profit (snd g)))
             (revenue_percentage total_revenue grand_total))
        groups in
  sort_values_desc CategoryAnalysis.TotalRevenue category_analysis.

Module Trends.
Record Monthly : Type := mkMonthly {
  YearMonth : string;
  TotalRevenue : Q;
  TotalQuantity : Z;
  OrderCount : nat;
  TotalProfit : Q
}.

Record Quarterly : Type := mkQuarterly {
  Year : Z;
  Quarter : Z;
  qTotalRevenue : Q;
  qTotalQuantity : Z;
  qOrderCount : nat;
  qTotalProfit : Q;
  YearQuarter : string
}.
End Trends.

Definition analyze_sales_trends (df : list Row)
  : list Trends.Monthly * list Trends.Quarterly :=
  let monthly_trends :=
    map (fun g =>
           Trends.mkMonthly (fst g)
             (sum (map Revenue (snd g)))
             (Zsum (map Quantity (snd g)))
             (nunique (map OrderID (snd g)))
             (sum (map Profit (snd g))))
        (groupby YearMonth df) in
  let quarterly_trends :=
    map (fun g =>
           let '(y, q) := fst g in
           Trends.mkQuarterly y q
             (sum (map Revenue (snd g)))
             (Zsum (map Quantity (snd g)))
             (nunique (map OrderID (snd g)))
             (sum (map Profit (snd g)))
             (str_of_Z y ++ "-Q" ++ str_of_Z q))
        (groupby (fun row => (Year row, Quarter row)) df) in
  (sort_values_asc Trends.YearMonth monthly_trends,
   sort_values_asc (fun r => (Trends.Year r, Trends.Quarter r)) quarterly_trends).

(** A frame of a label column and a value column, with its column labels. *)
Record Frame : Type := {
  frame_columns : list string;
  frame_rows : list (string * float)
}.

(** [df.groupby(key).apply(f, include_groups=False).reset_index()] for an
    [f] that returns a scalar.  With at least one group the results make a
    series indexed by the keys, which [reset_index] turns into the two
    columns key and 0.  With no group there is no result to take a shape
    from: pandas returns an empty frame with the columns of its input (the
    grouping column left out), and [reset_index] puts the key in front. *)
Definition groupby_apply_reset_index (key_name : string) (key : Row -> string)
    (f : list Row -> float) (df : list Row) : Frame :=
  match groupby key df with
  | [] =>
      {| frame_columns := key_name :: remove string_dec key_name columns;
         frame_rows := [] |}
  | groups =>
      {| frame_columns := [key_name; "0"];
         frame_rows := map (fun g => (fst g, f (snd g))) groups |}
  end.

(** [frame.columns = names]: the number of labels must be that of the
    columns. *)
Definition set_columns (names : list string) (frame : Frame) : result Frame :=
  if (List.length (frame_columns frame) =? List.length names)%nat
  then Ok {| frame_columns := names; frame_rows := frame_rows frame |}
  else Err (ValueError_LengthMismatch (List.length (frame_columns frame))
                                      (List.length names)).

Definition sort_frame_desc (frame : Frame) : Frame :=
  {| frame_columns := frame_columns frame;
     frame_rows := sort (fun a b => fdesc (snd a) (snd b)) (frame_rows frame) |}.

(** [df.groupby('OrderID')['Revenue'].sum()] *)
Definition order_totals (df : list Row) : list (string * Q) :=
  map (fun g => (fst g, sum (map Revenue (snd g)))) (groupby OrderID df).

(** The lambda of the two AOV views:
    [x.groupby('OrderID')['Revenue'].sum().mean()] *)
Definition mean_order_total (x : list Row) : float :=
  mean (map (fun t => Some (snd t)) (order_totals x)).

Record AOVResults : Type := {
  Overall_AOV : float;
  Category_AOV : Frame;
  Region_AOV : Frame
}.

Definition calculate_average_order_value (df : list Row) : result AOVResults :=
  let overall_aov := mean_order_total df in
  category_aov <-
    set_columns ["Category"; "AverageOrderValue"]
      (groupby_apply_reset_index "Category" Category mean_order_total df) ;;
  let category_aov := sort_frame_desc category_aov in
  region_aov <-
    set_columns ["Region"; "AverageOrderValue"]
      (groupby_apply_reset_index "Region" Region mean_order_total df) ;;
  let region_aov := sort_frame_desc region_aov in
  Ok {| Overall_AOV := fround2 overall_aov;
        Category_AOV := category_aov;
        Region_AOV := region_aov |}.

Module RegionalAnalysis.
Record Row : Type := mk {
  Region : string;
  TotalRevenue : Q;
  TotalQuantity : Z;
  OrderCount : nat;
  CustomerCount : nat;
  TotalProfit : Q;
  RevenuePercentage : float
}.
End RegionalAnalysis.

Definition generate_regional_analysis (df : list Row) : list RegionalAnalysis.Row :=
  let groups := groupby Region df in
  let grand_total :=
    Qsum (map (fun g => sum (map Revenue (snd g))) groups) in
  let regional_analysis :=
    map (fun g =>
           let total_revenue := sum (map Revenue (snd g)) in
           RegionalAnalysis.mk (fst g)
             total_revenue
             (Zsum (map Quantity (snd g)))
             (nunique (map OrderID (snd g)))
             (nunique (map CustomerID (snd g)))
             (sum (map Profit (snd g)))
             (revenue_percentage total_revenue grand_total))
        groups in
  sort_values_desc RegionalAnalysis.TotalRevenue regional_analysis.

(** *** The exports and the complete run

    The files written are kept as the list of the [to_csv] calls made, in
    order, each with the path and the table written; what was written before
    an exception stays written. *)

Inductive table : Type :=
| ProductTable (rows : list BestSellers.Row)
| CategoryTable (rows : list CategoryAnalysis.Row)
| MonthlyTable (rows : list Trends.Monthly)
| QuarterlyTable (rows : list Trends.Quarterly)
| RegionalTable (rows : list RegionalAnalysis.Row)
| FrameTable (frame : Frame).

Definition export_analysis_results (df : list Row) (output_dir : string)
  : list (string * table) * result unit :=
  let (top_by_quantity, top_by_revenue) := find_best_selling_products df 10 in
  let category_analysis := analyze_high_revenue_categories df in
  let (monthly_trends, quarterly_trends) := analyze_sales_trends df in
  let regional_analysis := generate_regional_analysis df in
  let written :=
    [(output_dir ++ "/top_products_by_quantity.csv", ProductTable top_by_quantity);
     (output_dir ++ "/top_products_by_revenue.csv", ProductTable top_by_revenue);
     (output_dir ++ "/category_analysis.csv", CategoryTable category_analysis);
     (output_dir ++ "/monthly_trends.csv", MonthlyTable monthly_trends);
     (output_dir ++ "/quarterly_trends.csv", QuarterlyTable quarterly_trends);
     (output_dir ++ "/regional_analysis.csv", RegionalTable regional_analysis)] in
  match calculate_average_order_value df with
  | Err e => (written, Err e)
  | Ok aov_results =>
      (List.app written
           [(output_dir ++ "/aov_by_category.csv",
             FrameTable (Category_AOV aov_results));
            (output_dir ++ "/aov_by_region.csv",
             FrameTable (Region_AOV aov_results))],
       Ok tt)
  end.

(** [run_complete_analysis], from the loaded table on: the six analyses in
    turn, then the export; the value is the total metrics that the closing
    summary prints. *)
Definition run_complete_analysis (df : list Row)
  : list (string * table) * result TotalMetrics :=
  let total_metrics := calculate_total_sales_revenue df in
  match calculate_average_order_value df with
  | Err e => ([], Err e)
  | Ok _ =>
      let (written, exported) := export_analysis_results df "analysis_output" in
      match exported with
      | Err e => (written, Err e)
      | Ok _ => (written, Ok total_metrics)
      end
  end.

(** * Definitions used to state the properties *)

(** The rows of a frame that belong to a category. *)
Definition category_rows (category : string) (df : list Row) : list Row :=
  filter (fun row => String.eqb (Category row) category) df.

(** A row is a price outlier of a frame when its price lies outside
    mean ± 3·std of the prices of the frame's rows of its own category. *)
Definition is_price_outlier (df : list Row) (row : Row) : bool :=
  let own := category_rows (Category row) df in
  gt_upper (Price row) (mean (map Price own)) (std (map Price own))
  || lt_lower (Price row) (mean (map Price own)) (std (map Price own)).

(** The median that a missing price of [category] takes: that of the
    prices present among the rows of the category. *)
Definition category_median (df : list Raw.Row) (category : string) : float :=
  median (map Raw.Price
              (filter (fun row => String.eqb (Raw.Category row) category) df)).

Definition filled_price (df : list Raw.Row) (row : Raw.Row) : float :=
  match Raw.Price row with
  | Some p => Some p
  | None => category_median df (Raw.Category row)
  end.

Definition filled_quantity (row : Raw.Row) : Q :=
  match Raw.Quantity row with
  | Some q => q
  | None => 1%Q
  end.

Definition filled_region (row : Raw.Row) : string :=
  match Raw.Region row with
  | Some s => s
  | None => "Unknown"
  end.

(** A row of the frame after step 2. *)
Definition imputed (df : list Raw.Row) (row : Raw.Row) : Raw.Row :=
  Raw.mk (Raw.OrderID row) (Raw.ProductID row) (Raw.ProductName row)
         (Raw.Category row)
         (Some (filled_quantity row))
         (filled_price df row)
         (fmul (filled_price df row) (Some (filled_quantity row)))
         (Raw.OrderDate row) (Raw.CustomerID row)
         (Some (filled_region row)).

(** A row of the frame after step 4. *)
Definition cleaned_row (current_date : Timestamp) (df : list Raw.Row) (row : Raw.Row) : Row :=
  derive_columns current_date (imputed df row) (Qtrunc (filled_quantity row)).

(** A quantity is whole when the integer conversion does not change it. *)
Definition whole (q : Q) : Prop := (inject_Z (Qtrunc q) == q)%Q.

(** The RevenuePercentage column of a rollup by [key], before the sort. *)
Definition percentages {K} `{Key K} (key : Row -> K) (df : list Row) : list float :=
  let groups := groupby key df in
  let grand_total := Qsum (map (fun g => sum (map Revenue (snd g))) groups) in
  map (fun g => revenue_percentage (sum (map Revenue (snd g))) grand_total) groups.

Definition revenues_positive (df : list Row) : Prop :=
  forall row, In row df -> exists rev, Revenue row = Some rev /\ (0 < rev)%Q.

(** The revenue of one order within the lines [x]. *)
Definition order_revenue (x : list Row) (order_id : string) : Q :=
  sum (map Revenue (filter (fun row => String.eqb (OrderID row) order_id) x)).

(** The average order value of a key as the specification words it: among
    the lines of the key, the revenue of each order is summed, and the mean
    of these per-order sums is taken over the orders that have such a line. *)
Definition mean_of_per_order_sums (key : Row -> string) (df : list Row)
    (k : string) : float :=
  let lines := filter (fun row => String.eqb (key row) k) df in
  let orders := unique (map OrderID lines) in
  mean (map (fun order_id => Some (order_revenue lines order_id)) orders).

(** A cleaned table given back to clean_ecommerce_data.  The run reads the
    ten raw columns.  It overwrites the nine derived columns in step 4; and
    since these are functions of the raw columns and of the date of the run
    that wrote them, two rows with equal raw columns have equal derived
    columns, so the derived columns do not change which rows step 1 takes
    for duplicates. *)
Definition as_raw (row : Row) : Raw.Row :=
  Raw.mk (OrderID row) (ProductID row) (ProductName row) (Category row)
         (Some (inject_Z (Quantity row))) (Price row) (Revenue row)
         (OrderDate row) (CustomerID row) (Some (Region row)).

(** A cell as a summand: NaN counts for nothing in a sum. *)
Definition nan_to_zero (x : float) : Q :=
  match x with
  | Some q => q
  | None => 0%Q
  end.

(** A row of a cleaned table as the next run rebuilds it: the raw columns
    are kept, the quantity being an integer already; the revenue is
    recomputed from it; the derived columns follow, DaysSinceOrder from the
    date of the new run. *)
Definition recleaned (current_date : Timestamp) (row : Row) : Row :=
  cleaned_row current_date [] (as_raw row).

(** The median of the present prices as the specification words it: the
    middle value of the prices put in ascending order, the mean of the two
    middle values when their number is even. *)
Definition middle (ascending : list Q) : Q :=
  let n := List.length ascending in
  if Nat.even n
  then ((nth (Nat.div n 2 - 1)%nat ascending 0 + nth (Nat.div n 2) ascending 0) / 2)%Q
  else nth (Nat.div n 2) ascending 0%Q.

Definition is_median (values : list Q) (m : Q) : Prop :=
  exists ascending,
    Permutation ascending values
    /\ Sorted.StronglySorted Qle ascending
    /\ m = middle ascending.

(** The prices present among the rows of the category of [row]. *)
Definition present_prices (df : list Raw.Row) (row : Raw.Row) : list Q :=
  dropna (map Raw.Price
              (filter (fun other =>
                         String.eqb (Raw.Category other) (Raw.Category row))
                      df)).

(** The price limits as the specification words them, over the real
    numbers: a price lies outside mean ± 3·stddev of the prices of its
    category, the standard deviation being the sample one (ddof = 1), which
    fewer than two prices do not have. *)
Section ThreeSigma.
Import Reals Qreals.
Local Open Scope R_scope.

Fixpoint Rsum (xs : list R) : R :=
  match xs with
  | [] => 0
  | x :: rest => x + Rsum rest
  end.

Definition Rmean (xs : list R) : R := Rsum xs / INR (List.length xs).

Definition Rstd (xs : list R) : R :=
  sqrt (Rsum (map (fun x => (x - Rmean xs) * (x - Rmean xs)) xs)
        / (INR (List.length xs) - 1)).

Definition outside_three_sigma (prices : list Q) (price : Q) : Prop :=
  let xs := map Q2R prices in
  (2 <= List.length prices)%nat
  /\ (Q2R price > Rmean xs + 3 * Rstd xs
      \/ Q2R price < Rmean xs - 3 * Rstd xs).

End ThreeSigma.

(** The prices of the rows of the category of [row] in a cleaned frame. *)
Definition category_prices (df : list Row) (row : Row) : list Q :=
  dropna (map Price (category_rows (Category row) df)).

(** * Sample tables *)

Definition order_date_1 : Timestamp :=
  {| year := 2024; month := 3; day := 15; second_of_day := 0 |}.

Definition run_date : Timestamp :=
  {| year := 2025; month := 1; day := 1; second_of_day := 3600 |}.

Definition later_run_date : Timestamp :=
  {| year := 2025; month := 6; day := 30; second_of_day := 0 |}.

(** A raw order line of the product Novel; its Revenue cell is left empty,
    the cleaning stage recomputes it. *)
Definition order_line (order_id category : string) (quantity price : float)
    (region : option string) : Raw.Row :=
  Raw.mk order_id "PROD00001" "Novel" category quantity price NaN
         order_date_1 "CUST0001" region.

(** A cleaned order line of the product Novel. *)
Definition clean_line (order_id category : string) (quantity : Z) (price : Q)
  : Row :=
  derive_columns run_date
    (Raw.set_Revenue
       (order_line order_id category (Some (inject_Z quantity)) (Some price)
                   (Some "Europe"))
       (Some (price * inject_Z quantity)%Q))
    quantity.

(** The two Books orders O1 (price 10, quantity 2) and O2 (price 30,
    quantity 1). *)
Definition two_books : list Raw.Row :=
  [order_line "O1" "Books" (Some 2%Q) (Some 10%Q) (Some "Europe");
   order_line "O2" "Books" (Some 1%Q) (Some 30%Q) (Some "Europe")].

(** The cleaned table of the two Books orders. *)
Definition two_books_cleaned : list Row :=
  [clean_line "O1" "Books" 2 10; clean_line "O2" "Books" 1 30].

(** One order line with the fractional quantity 2.5. *)
Definition fractional_quantity : list Raw.Row :=
  [order_line "O1" "Books" (Some (5 # 2)%Q) (Some 10%Q) (Some "Europe")].

(** One order line of a category that has no profit margin. *)
Definition gadgets : list Raw.Row :=
  [order_line "O1" "Gadgets" (Some 2%Q) (Some 10%Q) (Some "Europe")].

(** Two Toys & Games lines without a price beside a Books line. *)
Definition toys_without_prices : list Raw.Row :=
  [order_line "O1" "Toys & Games" (Some 2%Q) NaN (Some "Europe");
   order_line "O2" "Books" (Some 1%Q) (Some 30%Q) (Some "Europe");
   order_line "O3" "Toys & Games" (Some 1%Q) NaN (Some "Asia Pacific")].

(** Three order lines whose category shares are thirds. *)
Definition three_categories : list Raw.Row :=
  [order_line "O1" "Books" (Some 1%Q) (Some 10%Q) (Some "Europe");
   order_line "O2" "Clothing" (Some 1%Q) (Some 10%Q) (Some "Africa");
   order_line "O3" "Automotive" (Some 1%Q) (Some 10%Q) None].

(** Two order lines that differ only in the region, missing on the first
    and Unknown on the second. *)
Definition equal_after_imputation : list Raw.Row :=
  [order_line "O1" "Books" (Some 2%Q) (Some 10%Q) None;
   order_line "O1" "Books" (Some 2%Q) (Some 10%Q) (Some "Unknown")].

(** Eleven Books lines at price 10 and one at price 1000, between two
    Clothing lines. *)
Definition books_with_outlier : list Row :=
  [clean_line "C1" "Clothing" 1 20;
   clean_line "B01" "Books" 1 10; clean_line "B02" "Books" 1 10;
   clean_line "B03" "Books" 1 10; clean_line "B04" "Books" 1 10;
   clean_line "B05" "Books" 1 10; clean_line "B06" "Books" 1 10;
   clean_line "B07" "Books" 1 1000; clean_line "B08" "Books" 1 10;
   clean_line "B09" "Books" 1 10; clean_line "B10" "Books" 1 10;
   clean_line "B11" "Books" 1 10; clean_line "B12" "Books" 1 10;
   clean_line "C2" "Clothing" 2 40].

(** A single Office Supplies line and a single Automotive line around the
    twelve Books lines. *)
Definition single_lines : list Row :=
  [clean_line "S1" "Office Supplies" 3 7]
  ++ category_rows "Books" books_with_outlier
  ++ [clean_line "S2" "Automotive" 1 250].

(** The prices 10, 10, 10, 10 and 1000 of one category. *)
Definition four_tens_and_a_thousand : list Row :=
  [clean_line "B1" "Books" 1 10; clean_line "B2" "Books" 1 10;
   clean_line "B3" "Books" 1 10; clean_line "B4" "Books" 1 10;
   clean_line "B5" "Books" 1 1000].

(** Twelve Books lines, eleven at price 10 and one at 1000, and twelve
    Clothing lines, eleven at price 1000 and one at 10. *)
Definition low_and_high_outliers : list Row :=
  [clean_line "B01" "Books" 1 10; clean_line "C01" "Clothing" 1 1000;
   clean_line "B02" "Books" 1 10; clean_line "C02" "Clothing" 1 1000;
   clean_line "B03" "Books" 1 10; clean_line "C03" "Clothing" 1 1000;
   clean_line "B04" "Books" 1 10; clean_line "C04" "Clothing" 1 1000;
   clean_line "B05" "Books" 1 10; clean_line "C05" "Clothing" 1 1000;
   clean_line "B06" "Books" 1 10; clean_line "C06" "Clothing" 1 1000;
   clean_line "B07" "Books" 1 1000; clean_line "C07" "Clothing" 1 10;
   clean_line "B08" "Books" 1 10; clean_line "C08" "Clothing" 1 1000;
   clean_line "B09" "Books" 1 10; clean_line "C09" "Clothing" 1 1000;
   clean_line "B10" "Books" 1 10; clean_line "C10" "Clothing" 1 1000;
   clean_line "B11" "Books" 1 10; clean_line "C11" "Clothing" 1 1000;
   clean_line "B12" "Books" 1 10; clean_line "C12" "Clothing" 1 1000].

(** Books lines at the prices 50, 10 and 30 and one without a price;
    Clothing lines at 41 and 20 and one without a price, which has no
    quantity and no region either; and a repeated line. *)
Definition lines_to_fill : list Raw.Row :=
  [order_line "O1" "Books" (Some 1%Q) (Some 50%Q) (Some "Europe");
   order_line "O2" "Clothing" (Some 1%Q) (Some 41%Q) (Some "Europe");
   order_line "O3" "Books" (Some 2%Q) NaN (Some "Europe");
   order_line "O4" "Books" (Some 1%Q) (Some 10%Q) (Some "Europe");
   order_line "O1" "Books" (Some 1%Q) (Some 50%Q) (Some "Europe");
   order_line "O5" "Clothing" NaN NaN None;
   order_line "O6" "Books" (Some 1%Q) (Some 30%Q) (Some "Europe");
   order_line "O7" "Clothing" (Some 3%Q) (Some 20%Q) (Some "Europe")].

(** * Properties *)

(** ** Keys *)

(** The equality test of a key type decides equality. *)
Class KeyLaws (K : Type) `{Key K} : Prop := {
  key_eqb_eq : forall x y : K, key_eqb x y = true <-> x = y
}.

#[export] Instance KeyLaws_string : KeyLaws string.
Proof.
  constructor. exact String.eqb_eq.
Qed.

#[export] Instance KeyLaws_Z : KeyLaws Z.
Proof.
  constructor. exact Z.eqb_eq.
Qed.

#[export] Instance KeyLaws_pair {A B} `{KeyLaws A} `{KeyLaws B} : KeyLaws (A * B).
Proof.
  constructor. intros [a b] [c d]. simpl.
  rewrite andb_true_iff, !key_eqb_eq.
  split; [intros [-> ->]; reflexivity | intros E; inversion E; auto].
Qed.

(** ** Comparisons and rounding *)

Lemma Qltb_lt (x y : Q) : Qltb x y = true <-> (x < y)%Q.
Proof.
  unfold Qltb. rewrite negb_true_iff.
  split; intros E.
  - apply Qnot_le_lt. intros L. apply Qle_bool_iff in L. congruence.
  - destruct (Qle_bool y x) eqn:L; [|reflexivity].
    apply Qle_bool_iff in L. exfalso. apply (Qlt_not_le _ _ E L).
Qed.

Lemma Qltb_ge (x y : Q) : Qltb x y = false <-> (y <= x)%Q.
Proof.
  unfold Qltb. rewrite negb_false_iff. apply Qle_bool_iff.
Qed.

Lemma fgt0_Some (x : float) : fgt0 x = true <-> exists q, x = Some q /\ (0 < q)%Q.
Proof.
  destruct x as [q|]; simpl.
  - rewrite Qltb_lt. split; [eauto | intros (q' & E & L); congruence].
  - split; [discriminate | intros (q' & E & _); discriminate].
Qed.

Lemma round_half_even_close (q : Q) :
  (Qabs (inject_Z (round_half_even q) - q) <= 1 # 2)%Q.
Proof.
  unfold round_half_even.
  pose proof (Qfloor_le q) as Hlo.
  pose proof (Qlt_floor q) as Hhi.
  assert (E1 : (inject_Z (Qfloor q + 1) == inject_Z (Qfloor q) + 1)%Q)
    by (rewrite inject_Z_plus; reflexivity).
  rewrite E1 in Hhi.
  apply Qabs_Qle_condition.
  destruct (Qltb (q - inject_Z (Qfloor q)) (1 # 2)) eqn:A.
  { apply Qltb_lt in A. split; lra. }
  apply Qltb_ge in A.
  destruct (Qltb (1 # 2) (q - inject_Z (Qfloor q))) eqn:B.
  { rewrite E1. split; lra. }
  apply Qltb_ge in B.
  destruct (Z.even (Qfloor q)); [|rewrite E1]; split; lra.
Qed.

Lemma round2_close (q : Q) : (Qabs (round2 q - q) <= 1 # 200)%Q.
Proof.
  unfold round2.
  pose proof (round_half_even_close (q * 100)) as H.
  apply Qabs_Qle_condition in H. apply Qabs_Qle_condition.
  set (r := inject_Z (round_half_even (q * 100))) in *.
  assert (E : (r / 100 == r * (1 # 100))%Q) by (unfold Qdiv; reflexivity).
  rewrite E. split; lra.
Qed.

(** Ties go to the even neighbour; other values to the nearest. *)
Example round2_samples :
  (round2 (1 # 8) == 12 # 100)%Q /\ (round2 (3 # 8) == 38 # 100)%Q
  /\ (round2 (-1 # 8) == -12 # 100)%Q /\ (round2 (1001 # 3) == 33367 # 100)%Q.
Proof.
  vm_compute. repeat split.
Qed.

(** ** Column statistics *)

Example median_samples :
  median [Some 3%Q; NaN; Some 1%Q; Some 2%Q] = Some 2%Q
  /\ float_eq (median [Some 4%Q; Some 1%Q; Some 3%Q; Some 2%Q]) (Some (5 # 2)%Q)
  /\ median [NaN; NaN] = NaN.
Proof.
  vm_compute. repeat split.
Qed.

Example mean_var_samples :
  let prices := map (fun z => Some (inject_Z z)) [2; 4; 4; 4; 5; 5; 7; 9] in
  float_eq (mean prices) (Some 5%Q)
  /\ float_eq (var prices) (Some (32 # 7)%Q)
  /\ var [Some 10%Q] = NaN
  /\ std [Some 10%Q; NaN] = None.
Proof.
  vm_compute. repeat split.
Qed.

(** The missing values of a column do not enter its median. *)
Lemma median_dropna (xs : list float) :
  median xs = median (map Some (dropna xs)).
Proof.
  unfold median.
  assert (E : dropna (map Some (dropna xs)) = dropna xs).
  { induction (dropna xs) as [|q l IH]; simpl; [reflexivity|].
    rewrite IH. reflexivity. }
  rewrite E. reflexivity.
Qed.

(** ** Lists: filters, de-duplication, sorting *)

Lemma filter_filter {A} (p q : A -> bool) (l : list A) :
  filter p (filter q l) = filter (fun x => q x && p x) l.
Proof.
  induction l as [|x l IH]; simpl; [reflexivity|].
  destruct (q x); simpl; [destruct (p x)|]; rewrite IH; reflexivity.
Qed.

Lemma filter_ext_in' {A} (p q : A -> bool) (l : list A) :
  (forall x, In x l -> p x = q x) -> filter p l = filter q l.
Proof.
  induction l as [|x l IH]; simpl; intros H; [reflexivity|].
  rewrite (H x (or_introl eq_refl)), IH; auto.
Qed.

Lemma filter_all {A} (p : A -> bool) (l : list A) :
  (forall x, In x l -> p x = true) -> filter p l = l.
Proof.
  induction l as [|x l IH]; simpl; intros H; [reflexivity|].
  rewrite (H x (or_introl eq_refl)), IH; auto.
Qed.

Lemma filter_none_negb {A} (p : A -> bool) (l : list A) :
  filter p l = [] -> filter (fun x => negb (p x)) l = l.
Proof.
  intros E. apply filter_all. intros x Hx.
  destruct (p x) eqn:P; [|reflexivity].
  assert (Hin : In x (filter p l)) by (apply filter_In; auto).
  rewrite E in Hin. destruct Hin.
Qed.

Lemma filter_length_le' {A} (p : A -> bool) (l : list A) :
  (List.length (filter p l) <= List.length l)%nat.
Proof.
  induction l as [|x l IH]; simpl; [lia|]. destruct (p x); simpl; lia.
Qed.

Lemma dedup_In {A} (eqb : A -> A -> bool) (l : list A) (x : A) :
  In x (dedup eqb l) -> In x l.
Proof.
  induction l as [|y l IH]; simpl; [tauto|].
  intros [E | H]; [auto|]. apply filter_In in H. right. tauto.
Qed.

Lemma dedup_length {A} (eqb : A -> A -> bool) (l : list A) :
  (List.length (dedup eqb l) <= List.length l)%nat.
Proof.
  induction l as [|y l IH]; simpl; [lia|].
  pose proof (filter_length_le' (fun z => negb (eqb y z)) (dedup eqb l)). lia.
Qed.

Lemma insert_sorted_perm {A} (leb : A -> A -> bool) (x : A) (l : list A) :
  Permutation (insert_sorted leb x l) (x :: l).
Proof.
  induction l as [|y l IH]; simpl; [reflexivity|].
  destruct (leb x y); [reflexivity|].
  rewrite IH. apply perm_swap.
Qed.

Lemma sort_perm {A} (leb : A -> A -> bool) (l : list A) :
  Permutation (sort leb l) l.
Proof.
  induction l as [|x l IH]; simpl; [reflexivity|].
  rewrite insert_sorted_perm, IH. reflexivity.
Qed.

Lemma sort_In {A} (leb : A -> A -> bool) (l : list A) (x : A) :
  In x (sort leb l) <-> In x l.
Proof.
  split; apply Permutation_in; [|symmetry]; apply sort_perm.
Qed.

Lemma skipn_In {A} (n : nat) (l : list A) (x : A) :
  In x (skipn n l) -> In x l.
Proof.
  revert l. induction n as [|n IH]; intros [|y l]; simpl; auto.
Qed.

Lemma firstn_In' {A} (n : nat) (l : list A) (x : A) :
  In x (firstn n l) -> In x l.
Proof.
  revert l. induction n as [|n IH]; intros [|y l]; simpl; try tauto.
  intros [E | H]; auto.
Qed.

Section Sorting.
Context {A : Type} (leb : A -> A -> bool).
Hypothesis leb_total : forall a b, leb a b = true \/ leb b a = true.

Let le (a b : A) : Prop := leb a b = true.

Lemma insert_sorted_Sorted (x : A) (l : list A) :
  Sorted.Sorted le l -> Sorted.Sorted le (insert_sorted leb x l).
Proof.
  induction 1 as [|y l S IH Hd]; simpl.
  - repeat constructor.
  - destruct (leb x y) eqn:E.
    + constructor; [constructor; assumption|]. constructor. exact E.
    + constructor; [exact IH|].
      destruct l as [|z l]; simpl.
      * constructor. destruct (leb_total x y) as [F | F]; [congruence | exact F].
      * destruct (leb x z).
        -- constructor. destruct (leb_total x y) as [F | F];
             [congruence | exact F].
        -- inversion Hd; subst. constructor. assumption.
Qed.

(** The insertion sort orders any list, for any total comparison. *)
Lemma sort_Sorted (l : list A) : Sorted.Sorted le (sort leb l).
Proof.
  induction l as [|x l IH]; simpl; [constructor|].
  apply insert_sorted_Sorted. exact IH.
Qed.

Hypothesis leb_trans :
  forall a b c, leb a b = true -> leb b c = true -> leb a c = true.

Lemma sort_StronglySorted (l : list A) : Sorted.StronglySorted le (sort leb l).
Proof.
  apply Sorted.Sorted_StronglySorted; [|apply sort_Sorted].
  intros a b c. apply leb_trans.
Qed.

(** Every row of the head of a sorted list comes before every row left out
    of it. *)
Lemma head_of_sorted (n : nat) (l : list A) (a b : A) :
  In a (firstn n (sort leb l)) -> In b (skipn n (sort leb l)) -> leb a b = true.
Proof.
  pose proof (sort_StronglySorted l) as S. revert n.
  induction S as [|x s S IH F]; intros n Ha Hb.
  - rewrite firstn_nil in Ha. destruct Ha.
  - destruct n as [|n]; simpl in *; [destruct Ha|].
    destruct Ha as [-> | Ha].
    + rewrite Forall_forall in F. apply F.
      apply (skipn_In n). assumption.
    + apply (IH n); assumption.
Qed.

End Sorting.

Lemma Sorted_impl {A} (R R' : A -> A -> Prop) (l : list A) :
  (forall a b, R a b -> R' a b) -> Sorted.Sorted R l -> Sorted.Sorted R' l.
Proof.
  intros I. induction 1 as [|x l S IH Hd]; constructor; [assumption|].
  destruct Hd; constructor. auto.
Qed.

Lemma StronglySorted_impl {A} (R R' : A -> A -> Prop) (l : list A) :
  (forall a b, R a b -> R' a b) ->
  Sorted.StronglySorted R l -> Sorted.StronglySorted R' l.
Proof.
  intros I. induction 1 as [|x l S IH F]; constructor; [assumption|].
  apply (Forall_impl _ (I x)). assumption.
Qed.

(** The median of a column is the median of its present values. *)
Lemma Qle_bool_total (a b : Q) : Qle_bool a b = true \/ Qle_bool b a = true.
Proof.
  destruct (Qlt_le_dec a b) as [L | L].
  - left. apply Qle_bool_iff. apply Qlt_le_weak. assumption.
  - right. apply Qle_bool_iff. assumption.
Qed.

Lemma Qle_bool_trans (a b c : Q) :
  Qle_bool a b = true -> Qle_bool b c = true -> Qle_bool a c = true.
Proof.
  rewrite !Qle_bool_iff. apply Qle_trans.
Qed.

Lemma median_is_median (xs : list float) :
  match dropna xs with
  | [] => median xs = NaN
  | _ :: _ => exists m, median xs = Some m /\ is_median (dropna xs) m
  end.
Proof.
  unfold median.
  pose proof (sort_perm Qle_bool (dropna xs)) as P.
  assert (Hs : Sorted.StronglySorted Qle (sort Qle_bool (dropna xs))).
  { apply (StronglySorted_impl (fun a b => Qle_bool a b = true)).
    - intros a b. apply Qle_bool_iff.
    - apply sort_StronglySorted; [apply Qle_bool_total | apply Qle_bool_trans]. }
  pose proof (Permutation_length P) as L.
  destruct (dropna xs) as [|v vs] eqn:D.
  - simpl. reflexivity.
  - set (sorted := sort Qle_bool (v :: vs)) in *.
    exists (middle sorted). split.
    + unfold middle. simpl in L.
      destruct (List.length sorted) as [|k]; [discriminate L|].
      destruct (Nat.even (S k)); reflexivity.
    + exists sorted. auto.
Qed.

Lemma unique_In {K} `{KeyLaws K} (l : list K) (x : K) : In x (unique l) <-> In x l.
Proof.
  unfold unique. split; [apply dedup_In|].
  induction l as [|y l IH]; simpl; [tauto|].
  intros [E | Hx]; [auto|].
  destruct (key_eqb y x) eqn:E.
  - apply key_eqb_eq in E. auto.
  - right. apply filter_In. rewrite E. auto.
Qed.

Lemma unique_NoDup {K} `{KeyLaws K} (l : list K) : NoDup (unique l).
Proof.
  unfold unique. induction l as [|y l IH]; simpl; [constructor|].
  constructor.
  - intros Hin. apply filter_In in Hin. destruct Hin as [_ E].
    assert (Ey : key_eqb y y = true) by (apply key_eqb_eq; reflexivity).
    rewrite Ey in E. discriminate.
  - apply NoDup_filter. assumption.
Qed.

(** ** The outlier filter *)

Lemma outlier_mask_own (category : string) (df : list Row) (row : Row) :
  outlier_mask category (category_rows category df) row
  = String.eqb (Category row) category && is_price_outlier df row.
Proof.
  unfold outlier_mask, is_price_outlier.
  destruct (String.eqb (Category row) category) eqn:E; [|reflexivity].
  apply String.eqb_eq in E. rewrite E. reflexivity.
Qed.

Lemma remove_outliers_of_filter (category : string) (df : list Row) :
  remove_outliers_of category df
  = filter (fun row => negb (String.eqb (Category row) category
                             && is_price_outlier df row)) df.
Proof.
  unfold remove_outliers_of. fold (category_rows category df).
  rewrite <- (filter_ext_in' _ _ df
                (fun row _ => f_equal negb (outlier_mask_own category df row))).
  destruct (filter (outlier_mask category (category_rows category df)) df) eqn:E;
    simpl; [|reflexivity].
  symmetry. apply filter_none_negb. exact E.
Qed.

(** A turn of the loop leaves the rows of every other category as they are. *)
Lemma category_rows_remove_other (category k : string) (df : list Row) :
  category <> k ->
  category_rows k (remove_outliers_of category df) = category_rows k df.
Proof.
  intros Hne. rewrite remove_outliers_of_filter. unfold category_rows.
  rewrite filter_filter. apply filter_ext_in'. intros row _.
  destruct (String.eqb (Category row) k) eqn:Ek; [|apply andb_false_r].
  apply String.eqb_eq in Ek.
  destruct (String.eqb (Category row) category) eqn:Ec; [|reflexivity].
  apply String.eqb_eq in Ec. congruence.
Qed.

Lemma is_price_outlier_remove_other (category : string) (df : list Row) (row : Row) :
  Category row <> category ->
  is_price_outlier (remove_outliers_of category df) row = is_price_outlier df row.
Proof.
  intros Hne. unfold is_price_outlier.
  rewrite category_rows_remove_other by congruence. reflexivity.
Qed.

Lemma existsb_eqb_In (k : string) (l : list string) :
  existsb (String.eqb k) l = true <-> In k l.
Proof.
  rewrite existsb_exists. split.
  - intros (x & Hx & E). apply String.eqb_eq in E. congruence.
  - intros H. exists k. split; [assumption | apply String.eqb_refl].
Qed.

(** The loop over any list of distinct categories is one filter on the
    frame it started from. *)
Lemma outlier_loop_filter (categories : list string) :
  NoDup categories ->
  forall df,
    outlier_loop categories df
    = filter (fun row => negb (existsb (String.eqb (Category row)) categories
                               && is_price_outlier df row)) df.
Proof.
  induction 1 as [|c cs Hc Hcs IH]; intros df; simpl.
  - symmetry. apply filter_all. reflexivity.
  - rewrite IH.
    etransitivity; [apply f_equal; apply remove_outliers_of_filter|].
    rewrite filter_filter. apply filter_ext_in'. intros row _.
    destruct (String.eqb (Category row) c) eqn:Ec; simpl.
    + apply String.eqb_eq in Ec.
      assert (E : existsb (String.eqb (Category row)) cs = false).
      { destruct (existsb (String.eqb (Category row)) cs) eqn:E; [|reflexivity].
        apply existsb_eqb_In in E. rewrite Ec in E. contradiction. }
      rewrite E. simpl. apply andb_true_r.
    + rewrite is_price_outlier_remove_other; [reflexivity|].
      intros E. apply String.eqb_neq in Ec. contradiction.
Qed.

Lemma outlier_loop_perm (df : list Row) (categories : list string) :
  Permutation categories (unique (map Category df)) ->
  outlier_loop categories df
  = filter (fun row => negb (is_price_outlier df row)) df.
Proof.
  intros P. rewrite outlier_loop_filter.
  - apply filter_ext_in'. intros row Hrow.
    assert (E : existsb (String.eqb (Category row)) categories = true).
    { apply existsb_eqb_In. apply (Permutation_in _ (Permutation_sym P)).
      apply unique_In. apply in_map. assumption. }
    rewrite E. reflexivity.
  - apply (Permutation_NoDup (Permutation_sym P)). apply unique_NoDup.
Qed.

Lemma remove_outliers_filter (df : list Row) :
  remove_outliers df = filter (fun row => negb (is_price_outlier df row)) df.
Proof.
  apply outlier_loop_perm. reflexivity.
Qed.

Lemma remove_outliers_In (df : list Row) (row : Row) :
  In row (remove_outliers df) -> In row df.
Proof.
  rewrite remove_outliers_filter. intros H. apply filter_In in H. tauto.
Qed.

Lemma dropna_length (xs : list float) :
  (List.length (dropna xs) <= List.length xs)%nat.
Proof.
  induction xs as [|[q|] xs IH]; simpl; lia.
Qed.

Lemma std_few (xs : list float) : (List.length xs < 2)%nat -> std xs = None.
Proof.
  intros H. unfold std, var. pose proof (dropna_length xs) as L.
  destruct (dropna xs) as [|a [|b l]]; simpl in *; try reflexivity; lia.
Qed.

Lemma is_price_outlier_few (df : list Row) (row : Row) :
  (List.length (category_rows (Category row) df) < 2)%nat ->
  is_price_outlier df row = false.
Proof.
  intros H. unfold is_price_outlier.
  rewrite std_few by (rewrite length_map; assumption).
  unfold gt_upper, lt_lower.
  destruct (Price row), (mean (map Price (category_rows (Category row) df)));
    reflexivity.
Qed.

(** ** The cleaning stage, row by row *)

Lemma apply_rows_pure {A B} (f : A -> result B) (g : A -> B) (df : list A) :
  (forall row, In row df -> f row = Ok (g row)) ->
  apply_rows f df = Ok (map g df).
Proof.
  induction df as [|row df IH]; simpl; intros H; [reflexivity|].
  rewrite (H row (or_introl eq_refl)). simpl.
  rewrite IH by auto. reflexivity.
Qed.

Lemma map_id_in {A} (g : A -> A) (l : list A) :
  (forall x, In x l -> g x = x) -> map g l = l.
Proof.
  induction l as [|x l IH]; simpl; intros H; [reflexivity|].
  rewrite (H x (or_introl eq_refl)), IH; auto.
Qed.

Lemma existsb_isnull_false {A B} (col : A -> option B) (df : list A) :
  existsb isnull (map col df) = false ->
  forall row, In row df -> exists v, col row = Some v.
Proof.
  intros E row Hrow.
  destruct (col row) as [v|] eqn:C; [eauto|].
  assert (existsb isnull (map col df) = true).
  { apply existsb_exists. exists None. split; [|reflexivity].
    rewrite <- C. apply in_map. assumption. }
  congruence.
Qed.

(** A series built from a group-by holds, at each key of the frame, the
    value computed from the rows of that key. *)
Lemma getitem_map_keys {K V} `{KeyLaws K} (f : K -> V) (keys : list K) (k : K) :
  In k keys -> getitem (map (fun x => (x, f x)) keys) k = Some (f k).
Proof.
  induction keys as [|x keys IH]; simpl; [tauto|].
  intros Hin. destruct (key_eqb x k) eqn:E.
  - apply key_eqb_eq in E. subst. reflexivity.
  - destruct Hin as [-> | Hin]; [|auto].
    assert (key_eqb k k = true) by (apply key_eqb_eq; reflexivity). congruence.
Qed.

Lemma getitem_groupby {R K V} `{KeyLaws K} (key : R -> K) (f : list R -> V)
    (df : list R) (k : K) :
  In k (map key df) ->
  getitem (map (fun g => (fst g, f (snd g))) (groupby key df)) k
  = Some (f (filter (fun row => key_eqb (key row) k) df)).
Proof.
  intros Hin. unfold groupby. rewrite map_map. simpl.
  apply (getitem_map_keys
           (fun x => f (filter (fun row => key_eqb (key row) x) df))).
  apply sort_In. apply unique_In. assumption.
Qed.

Lemma groupby_keys {R K} `{Key K} (key : R -> K) (df : list R) :
  map fst (groupby key df) = sort key_leb (unique (map key df)).
Proof.
  unfold groupby. rewrite map_map. simpl. apply map_id.
Qed.

Lemma fill_price_map (df : list Raw.Row) :
  fill_price df
  = Ok (map (fun row => Raw.set_Price row (filled_price df row)) df).
Proof.
  unfold fill_price. destruct (existsb isnull (map Raw.Price df)) eqn:E.
  - apply apply_rows_pure. intros row Hrow. unfold filled_price.
    destruct (Raw.Price row) as [p|] eqn:P; simpl; [reflexivity|].
    unfold series_get, category_medians.
    rewrite (getitem_groupby Raw.Category (fun g => median (map Raw.Price g)))
      by (apply in_map; assumption).
    reflexivity.
  - f_equal. symmetry. apply map_id_in. intros row Hrow.
    destruct (existsb_isnull_false Raw.Price df E row Hrow) as (p & P).
    unfold filled_price. rewrite P. rewrite <- P. destruct row; reflexivity.
Qed.

Lemma fill_quantity_map (df : list Raw.Row) :
  fill_quantity df
  = map (fun row => Raw.set_Quantity row (Some (filled_quantity row))) df.
Proof.
  unfold fill_quantity. destruct (existsb isnull (map Raw.Quantity df)) eqn:E.
  - apply map_ext. intros row. unfold filled_quantity, fillna.
    destruct (Raw.Quantity row); reflexivity.
  - symmetry. apply map_id_in. intros row Hrow.
    destruct (existsb_isnull_false Raw.Quantity df E row Hrow) as (q & Hq).
    unfold filled_quantity. rewrite Hq. rewrite <- Hq. destruct row; reflexivity.
Qed.

Lemma fill_region_map (df : list Raw.Row) :
  fill_region df
  = map (fun row => Raw.set_Region row (Some (filled_region row))) df.
Proof.
  unfold fill_region. destruct (existsb isnull (map Raw.Region df)) eqn:E.
  - apply map_ext. intros row. unfold filled_region, fillna.
    destruct (Raw.Region row); reflexivity.
  - symmetry. apply map_id_in. intros row Hrow.
    destruct (existsb_isnull_false Raw.Region df E row Hrow) as (q & Hq).
    unfold filled_region. rewrite Hq. rewrite <- Hq. destruct row; reflexivity.
Qed.

Lemma handle_missing_values_map (df : list Raw.Row) :
  handle_missing_values df = Ok (map (imputed df) df).
Proof.
  unfold handle_missing_values. rewrite fill_price_map. simpl.
  rewrite fill_quantity_map, fill_region_map. unfold recalculate_revenue.
  rewrite !map_map. reflexivity.
Qed.

(** On a raw frame, whose rows all have a category, the median lookup of
    step 2 finds its key and step 2 fills every quantity before step 3
    converts it: the run is the two filters of step 5 over the rows of the
    de-duplicated frame, imputed and converted one by one. *)
Lemma clean_ecommerce_data_rows (current_date : Timestamp) (df : list Raw.Row) :
  clean_ecommerce_data current_date df
  = Ok (remove_outliers
          (filter valid
             (map (cleaned_row current_date (drop_duplicates df))
                  (drop_duplicates df)))).
Proof.
  unfold clean_ecommerce_data. rewrite handle_missing_values_map. simpl.
  rewrite (apply_rows_pure _
             (fun r => derive_columns current_date r
                         (Qtrunc (match Raw.Quantity r with
                                  | Some q => q
                                  | None => 0%Q
                                  end)))).
  - simpl. rewrite map_map. reflexivity.
  - intros row Hrow. apply in_map_iff in Hrow.
    destruct Hrow as (r0 & <- & _). reflexivity.
Qed.

(** ** Integer conversion of a quantity *)

Lemma Qtrunc_pos_floor (q : Q) : 0 < Qtrunc q -> Qtrunc q = Qfloor q.
Proof.
  unfold Qtrunc. destruct q as [n d]; simpl. intros H.
  apply Z.quot_div_nonneg; [|lia].
  destruct (Z.lt_ge_cases n 0) as [Hn|Hn]; [|assumption].
  exfalso.
  assert (n ÷ Z.pos d <= 0) by (apply Z.quot_le_upper_bound; lia).
  lia.
Qed.

(** A positive integer quantity is the raw quantity rounded down. *)
Lemma Qtrunc_pos_bounds (q : Q) :
  0 < Qtrunc q ->
  (inject_Z (Qtrunc q) <= q /\ q < inject_Z (Qtrunc q) + 1)%Q.
Proof.
  intros H. rewrite (Qtrunc_pos_floor q H). split.
  - apply Qfloor_le.
  - pose proof (Qlt_floor q) as L. rewrite inject_Z_plus in L. exact L.
Qed.

Lemma Qtrunc_inject_Z (z : Z) : Qtrunc (inject_Z z) = z.
Proof.
  unfold Qtrunc, inject_Z. simpl. apply Z.quot_1_r.
Qed.

(** ** Invariants of the cleaned table *)

Lemma drop_duplicates_In (df : list Raw.Row) (row : Raw.Row) :
  In row (drop_duplicates df) -> In row df.
Proof.
  apply dedup_In.
Qed.

(** Where a cleaned row comes from. *)
Lemma cleaned_In (current_date : Timestamp) (df : list Raw.Row) (t : list Row)
    (row : Row) :
  clean_ecommerce_data current_date df = Ok t ->
  In row t ->
  exists raw,
    In raw (drop_duplicates df)
    /\ row = cleaned_row current_date (drop_duplicates df) raw
    /\ valid row = true.
Proof.
  rewrite clean_ecommerce_data_rows. intros E Hrow.
  injection E as <-.
  apply remove_outliers_In in Hrow. apply filter_In in Hrow.
  destruct Hrow as [Hrow V]. apply in_map_iff in Hrow.
  destruct Hrow as (raw & <- & Hraw). eauto.
Qed.

Lemma valid_cleaned_row (current_date : Timestamp) (df : list Raw.Row)
    (raw : Raw.Row) :
  valid (cleaned_row current_date df raw) = true ->
  exists p,
    filled_price df raw = Some p
    /\ (0 < p)%Q
    /\ 0 < Qtrunc (filled_quantity raw)
    /\ (0 < p * filled_quantity raw)%Q.
Proof.
  unfold valid, cleaned_row. simpl.
  rewrite !andb_true_iff. intros [[Hp Hq] Hr].
  apply fgt0_Some in Hp. destruct Hp as (p & Ep & Lp).
  rewrite Ep in Hr. simpl in Hr. apply Qltb_lt in Hr.
  apply Z.ltb_lt in Hq. eauto.
Qed.

(** ** C1: invariants of the retained rows *)

(** C1 (as amended).  Every row retained by clean_ecommerce_data comes from
    a raw row and has a price, a quantity and a revenue that are present and
    positive, and a region that is the raw one or Unknown.  Its revenue is
    the price times the quantity as it stood before the integer conversion:
    it lies between price*quantity and price*(quantity+1), and it equals
    price*quantity when the raw quantity was whole. *)
Theorem cleaned_row_invariants (current_date : Timestamp) (df : list Raw.Row)
    (t : list Row) (row : Row) :
  clean_ecommerce_data current_date df = Ok t ->
  In row t ->
  exists raw p,
    In raw df
    /\ Price row = Some p /\ (0 < p)%Q
    /\ Quantity row = Qtrunc (filled_quantity raw) /\ 0 < Quantity row
    /\ Revenue row = Some (p * filled_quantity raw)%Q
    /\ (0 < p * filled_quantity raw)%Q
    /\ Region row = filled_region raw
    /\ (p * inject_Z (Quantity row) <= p * filled_quantity raw)%Q
    /\ (p * filled_quantity raw < p * (inject_Z (Quantity row) + 1))%Q
    /\ (whole (filled_quantity raw) ->
        (p * filled_quantity raw == p * inject_Z (Quantity row))%Q).
Proof.
  intros E Hrow.
  destruct (cleaned_In _ _ _ _ E Hrow) as (raw & Hraw & -> & V).
  destruct (valid_cleaned_row _ _ _ V) as (p & Ep & Lp & Lq & Lr).
  destruct (Qtrunc_pos_bounds _ Lq) as [B1 B2].
  exists raw, p. unfold cleaned_row; simpl. rewrite Ep. simpl.
  repeat split; try assumption; try reflexivity.
  - apply drop_duplicates_In. assumption.
  - apply Qmult_le_l; assumption.
  - apply Qmult_lt_l; assumption.
  - unfold whole. intros W. rewrite W. reflexivity.
Qed.

Lemma cleaned_row_invariants_witness :
  let row := clean_line "O1" "Books" 2 10 in
  exists raw p,
    In raw two_books
    /\ Price row = Some p /\ (0 < p)%Q
    /\ Quantity row = Qtrunc (filled_quantity raw) /\ 0 < Quantity row
    /\ Revenue row = Some (p * filled_quantity raw)%Q
    /\ (0 < p * filled_quantity raw)%Q
    /\ Region row = filled_region raw
    /\ (p * inject_Z (Quantity row) <= p * filled_quantity raw)%Q
    /\ (p * filled_quantity raw < p * (inject_Z (Quantity row) + 1))%Q
    /\ (whole (filled_quantity raw) ->
        (p * filled_quantity raw == p * inject_Z (Quantity row))%Q).
Proof.
  apply (cleaned_row_invariants run_date two_books two_books_cleaned).
  - vm_compute. reflexivity.
  - left. reflexivity.
Defined.

(** C1, as stated, fails: a raw quantity of 2.5 at price 10 is retained with
    revenue 25 and quantity 2, so revenue and price*quantity differ by 5. *)
Lemma revenue_not_price_times_quantity :
  exists row p rev,
    clean_ecommerce_data run_date fractional_quantity = Ok [row]
    /\ Price row = Some p
    /\ Revenue row = Some rev
    /\ (rev - p * inject_Z (Quantity row) == 5)%Q.
Proof.
  eexists. exists 10%Q. eexists.
  split; [vm_compute; reflexivity|].
  split; [reflexivity|]. split; [reflexivity|].
  vm_compute. reflexivity.
Qed.

(** ** C2: a category without a profit margin *)

(** C2 (as amended).  The cleaning stage has no error for a category that
    is not a key of the profit-margin table, and it does not look at the
    margin when it decides which rows to keep: in every table that a run
    returns, a row of such a category has an undefined (NaN) ProfitMargin
    and an undefined Profit. *)
Theorem unknown_category_is_not_an_error (current_date : Timestamp)
    (df : list Raw.Row) (t : list Row) :
  clean_ecommerce_data current_date df = Ok t ->
  forall row,
    In row t ->
    getitem profit_margins (Category row) = None ->
    ProfitMargin row = NaN /\ Profit row = NaN.
Proof.
  intros E row Hrow.
  destruct (cleaned_In _ _ _ _ E Hrow) as (raw & _ & -> & _).
  unfold cleaned_row; simpl. intros ->. split; [reflexivity|].
  destruct (fmul (filled_price (drop_duplicates df) raw)
                 (Some (filled_quantity raw))); reflexivity.
Qed.

Lemma unknown_category_is_not_an_error_witness :
  exists t row,
    clean_ecommerce_data run_date gadgets = Ok t
    /\ In row t
    /\ Category row = "Gadgets"
    /\ ProfitMargin row = NaN /\ Profit row = NaN.
Proof.
  assert (R : exists t row,
             clean_ecommerce_data run_date gadgets = Ok t
             /\ In row t /\ Category row = "Gadgets").
  { eexists. eexists. split; [vm_compute; reflexivity|].
    split; [left; reflexivity | reflexivity]. }
  destruct R as (t & row & E & Hrow & Ec).
  exists t, row. split; [exact E|]. split; [exact Hrow|]. split; [exact Ec|].
  apply (unknown_category_is_not_an_error run_date gadgets t E row Hrow).
  rewrite Ec. reflexivity.
Defined.

(** C2, as stated, fails: a Gadgets row does not make the run raise; it is
    retained, with ProfitMargin and Profit undefined. *)
Lemma gadgets_row_is_retained :
  exists row,
    clean_ecommerce_data run_date gadgets = Ok [row]
    /\ Category row = "Gadgets"
    /\ getitem profit_margins "Gadgets" = None
    /\ ProfitMargin row = NaN
    /\ Profit row = NaN.
Proof.
  eexists. split; [vm_compute; reflexivity|]. repeat split.
Qed.

(** ** C7: imputation of the missing values *)

(** C7.  Step 2 runs on the de-duplicated frame and, when it returns, has
    kept the rows of that frame in place.  A missing price has become the
    median of the prices present among the rows of the same category in
    that frame: the middle one of these prices in ascending order, the mean
    of the two middle ones when their number is even, and it stays missing
    when the category has no price at all.  A missing quantity has become
    1, a missing region Unknown, a value that was present is kept, and the
    revenue of every row is the product of its price and its quantity.  The
    rest of the run works on the frame so filled. *)
Theorem missing_values_are_imputed (current_date : Timestamp)
    (df filled : list Raw.Row) :
  handle_missing_values (drop_duplicates df) = Ok filled ->
  List.length filled = List.length (drop_duplicates df)
  /\ (forall i row,
        nth_error (drop_duplicates df) i = Some row ->
        exists row',
          nth_error filled i = Some row'
          /\ match Raw.Price row with
             | Some p => Raw.Price row' = Some p
             | None =>
                 match present_prices (drop_duplicates df) row with
                 | [] => Raw.Price row' = NaN
                 | _ :: _ =>
                     exists m,
                       Raw.Price row' = Some m
                       /\ is_median (present_prices (drop_duplicates df) row) m
                 end
             end
          /\ Raw.Quantity row'
             = match Raw.Quantity row with
               | Some q => Some q
               | None => Some 1%Q
               end
          /\ Raw.Region row'
             = match Raw.Region row with
               | Some s => Some s
               | None => Some "Unknown"
               end
          /\ Raw.Revenue row' = fmul (Raw.Price row') (Raw.Quantity row')
          /\ Raw.OrderID row' = Raw.OrderID row
          /\ Raw.ProductID row' = Raw.ProductID row
          /\ Raw.ProductName row' = Raw.ProductName row
          /\ Raw.Category row' = Raw.Category row
          /\ Raw.OrderDate row' = Raw.OrderDate row
          /\ Raw.CustomerID row' = Raw.CustomerID row)
  /\ clean_ecommerce_data current_date df
     = (rows <- apply_rows (convert_and_derive current_date) filled ;;
        Ok (remove_outliers (filter valid rows))).
Proof.
  intros E. set (deduplicated := drop_duplicates df) in *.
  assert (F : filled = map (imputed deduplicated) deduplicated).
  { rewrite handle_missing_values_map in E. injection E as <-. reflexivity. }
  split; [rewrite F; apply length_map|].
  split.
  - intros i row Hi. exists (imputed deduplicated row).
    split; [rewrite F, nth_error_map, Hi; reflexivity|].
    split.
    + unfold imputed, filled_price; simpl.
      destruct (Raw.Price row) as [p|]; [reflexivity|].
      unfold category_median.
      pose proof (median_is_median
                    (map Raw.Price
                         (filter (fun other =>
                                    String.eqb (Raw.Category other)
                                               (Raw.Category row))
                                 deduplicated))) as M.
      fold (present_prices deduplicated row) in M.
      exact M.
    + unfold imputed, filled_quantity, filled_region; simpl.
      repeat split; try reflexivity.
      * destruct (Raw.Quantity row); reflexivity.
      * destruct (Raw.Region row); reflexivity.
  - unfold clean_ecommerce_data. fold deduplicated. rewrite E. reflexivity.
Qed.

(** The Books prices left by step 1 are 50, 10 and 30, the repeated line
    being gone, and the Books line without a price gets 30; the Clothing
    prices are 41 and 20, and the Clothing line without a price gets their
    mean 61/2, the quantity 1, the region Unknown and the revenue 61/2. *)
Lemma missing_values_are_imputed_witness :
  exists filled books clothing,
    handle_missing_values (drop_duplicates lines_to_fill) = Ok filled
    /\ List.length filled = 7%nat
    /\ nth_error filled 2 = Some books
    /\ Raw.Price books = Some 30%Q
    /\ is_median [50; 10; 30]%Q 30%Q
    /\ Raw.Revenue books = Some (30 * 2)%Q
    /\ nth_error filled 4 = Some clothing
    /\ Raw.Price clothing = Some ((20 + 41) / 2)%Q
    /\ Raw.Quantity clothing = Some 1%Q
    /\ Raw.Region clothing = Some "Unknown"
    /\ Raw.Revenue clothing = Some ((20 + 41) / 2 * 1)%Q.
Proof.
  assert (R : exists filled,
             handle_missing_values (drop_duplicates lines_to_fill) = Ok filled).
  { eexists. vm_compute. reflexivity. }
  destruct R as (filled & E).
  destruct (missing_values_are_imputed run_date lines_to_fill filled E)
    as (L & Hrows & _).
  set (line3 := order_line "O3" "Books" (Some 2%Q) NaN (Some "Europe")).
  set (line5 := order_line "O5" "Clothing" NaN NaN None).
  assert (H3 : nth_error (drop_duplicates lines_to_fill) 2 = Some line3)
    by (vm_compute; reflexivity).
  assert (H5 : nth_error (drop_duplicates lines_to_fill) 4 = Some line5)
    by (vm_compute; reflexivity).
  assert (P3 : present_prices (drop_duplicates lines_to_fill) line3
               = [50; 10; 30]%Q) by (vm_compute; reflexivity).
  assert (P5 : present_prices (drop_duplicates lines_to_fill) line5
               = [41; 20]%Q) by (vm_compute; reflexivity).
  destruct (Hrows 2%nat line3 H3) as (books & Hb & Pb & _ & _ & Rb & _).
  destruct (Hrows 4%nat line5 H5) as (clothing & Hc & Pc & Qc & Gc & Rc & _).
  change (Raw.Price line3) with (@None Q) in Pb. cbv beta iota in Pb.
  rewrite P3 in Pb. destruct Pb as (m & Pb & Mb).
  change (Raw.Price line5) with (@None Q) in Pc. cbv beta iota in Pc.
  rewrite P5 in Pc. destruct Pc as (m' & Pc & _).
  exists filled, books, clothing.
  split; [exact E|].
  vm_compute in E. injection E as E. subst filled.
  vm_compute in Hb. injection Hb as Hb. subst books.
  vm_compute in Hc. injection Hc as Hc. subst clothing.
  vm_compute in Pb. injection Pb as Pb. subst m.
  split; [reflexivity|].
  split; [reflexivity|].
  split; [reflexivity|].
  split; [exact Mb|].
  split; [vm_compute; reflexivity|].
  split; [reflexivity|].
  split; [vm_compute; reflexivity|].
  split; [reflexivity|].
  split; [reflexivity|].
  vm_compute. reflexivity.
Defined.

(** ** C10: a category whose prices are all missing *)

Lemma dropna_all_missing (xs : list float) :
  (forall x, In x xs -> x = None) -> dropna xs = [].
Proof.
  induction xs as [|x xs IH]; simpl; intros H; [reflexivity|].
  rewrite (H x (or_introl eq_refl)). apply IH. auto.
Qed.

Lemma category_median_all_missing (df : list Raw.Row) (category : string) :
  (forall row, In row df -> Raw.Category row = category -> Raw.Price row = None) ->
  category_median df category = NaN.
Proof.
  intros H. unfold category_median, median.
  rewrite dropna_all_missing; [reflexivity|].
  intros x Hx. apply in_map_iff in Hx. destruct Hx as (row & <- & Hrow).
  apply filter_In in Hrow. destruct Hrow as [Hrow E].
  apply String.eqb_eq in E. auto.
Qed.

(** C10.  When every price of a category is missing in the de-duplicated
    frame, the median of the category is undefined, the rows of the category
    keep an undefined price and get an undefined revenue, and the run
    completes without an error, with no row of that category in its result:
    the validation filter has dropped them all, and the retained rows still
    satisfy the validation mask. *)
Theorem category_without_prices_vanishes (current_date : Timestamp)
    (df : list Raw.Row) (category : string) :
  (forall row,
     In row (drop_duplicates df) ->
     Raw.Category row = category -> Raw.Price row = None) ->
  (In category (map Raw.Category (drop_duplicates df)) ->
   series_get (category_medians (drop_duplicates df)) category = Ok NaN)
  /\ (exists filled,
        handle_missing_values (drop_duplicates df) = Ok filled
        /\ forall row,
             In row filled ->
             Raw.Category row = category ->
             Raw.Price row = NaN /\ Raw.Revenue row = NaN)
  /\ (exists t,
        clean_ecommerce_data current_date df = Ok t
        /\ (forall row, In row t -> Category row <> category)
        /\ (forall row, In row t -> valid row = true)).
Proof.
  intros H.
  pose proof (category_median_all_missing _ _ H) as M.
  split; [|split].
  - intros Hin. unfold series_get, category_medians.
    rewrite (getitem_groupby Raw.Category (fun g => median (map Raw.Price g)))
      by assumption.
    change (Ok (category_median (drop_duplicates df) category) = Ok NaN).
    rewrite M. reflexivity.
  - eexists. split; [apply handle_missing_values_map|].
    intros row Hrow Hc. apply in_map_iff in Hrow.
    destruct Hrow as (raw & <- & Hraw). simpl in Hc.
    unfold imputed, filled_price; simpl.
    rewrite (H raw Hraw Hc), Hc, M. split; reflexivity.
  - eexists. split; [apply clean_ecommerce_data_rows|].
    split; intros row Hrow;
      destruct (cleaned_In _ _ _ _ (clean_ecommerce_data_rows current_date df) Hrow)
        as (raw & Hraw & -> & V); [|assumption].
    intros Hc. unfold cleaned_row in Hc; simpl in Hc.
    destruct (valid_cleaned_row _ _ _ V) as (p & Ep & _).
    unfold filled_price in Ep. rewrite (H raw Hraw Hc), Hc, M in Ep.
    discriminate.
Qed.

Lemma category_without_prices_vanishes_witness :
  exists t,
    clean_ecommerce_data run_date toys_without_prices = Ok t
    /\ List.length t = 1%nat
    /\ forall row, In row t -> Category row <> "Toys & Games".
Proof.
  assert (H : forall row,
             In row (drop_duplicates toys_without_prices) ->
             Raw.Category row = "Toys & Games" -> Raw.Price row = None).
  { intros row Hin Hc. vm_compute in Hin.
    destruct Hin as [<- | [<- | [<- | []]]];
      [reflexivity | discriminate Hc | reflexivity]. }
  destruct (category_without_prices_vanishes run_date toys_without_prices
              "Toys & Games" H) as (_ & _ & t & E & N & _).
  exists t. split; [exact E|]. split; [|exact N].
  rewrite clean_ecommerce_data_rows in E. injection E as <-.
  vm_compute. reflexivity.
Defined.

(** ** C6 and the rows of one category *)

Lemma category_rows_idem (k : string) (df : list Row) (row : Row) :
  Category row = k ->
  category_rows (Category row) (category_rows k df) = category_rows k df.
Proof.
  intros ->. unfold category_rows. rewrite filter_filter.
  apply filter_ext_in'. intros r _. apply andb_diag.
Qed.

Lemma is_price_outlier_own_rows (k : string) (df : list Row) (row : Row) :
  Category row = k ->
  is_price_outlier (category_rows k df) row = is_price_outlier df row.
Proof.
  intros E. unfold is_price_outlier.
  rewrite (category_rows_idem k df row E). rewrite E. reflexivity.
Qed.

Lemma filter_comm {A} (p q : A -> bool) (l : list A) :
  filter p (filter q l) = filter q (filter p l).
Proof.
  rewrite !filter_filter. apply filter_ext_in'. intros x _. apply andb_comm.
Qed.

(** C6.  A category with fewer than two rows in the frame that reaches the
    outlier filter loses no row to it: the standard deviation of a single
    price is undefined, and a comparison with an undefined limit selects
    nothing.  The filter is a total function of the frame, so it cannot
    fail. *)
Theorem small_category_keeps_its_rows (df : list Row) (category : string) :
  (List.length (category_rows category df) < 2)%nat ->
  category_rows category (remove_outliers df) = category_rows category df.
Proof.
  intros H. rewrite remove_outliers_filter. unfold category_rows at 1.
  rewrite filter_comm. fold (category_rows category df).
  apply filter_all. intros row Hrow.
  apply filter_In in Hrow. destruct Hrow as [_ Hk]. apply String.eqb_eq in Hk.
  rewrite is_price_outlier_few; [reflexivity|]. rewrite Hk. assumption.
Qed.

Lemma small_category_keeps_its_rows_witness :
  category_rows "Automotive" (remove_outliers single_lines)
  = [clean_line "S2" "Automotive" 1 250].
Proof.
  rewrite (small_category_keeps_its_rows single_lines "Automotive").
  - vm_compute. reflexivity.
  - vm_compute. lia.
Defined.

(** ** C4: the views on the empty table *)

(** C4.  On the empty table the total-metrics view returns zero sums, zero
    orders and an average order value of zero, and the best-seller, category,
    trend and regional views return no row; calculate_average_order_value,
    however, raises: with no group to apply the lambda to, the frame it gets
    back has the 19 columns of the table, and naming its columns with two
    labels is a length mismatch. *)
Theorem views_on_the_empty_table :
  (let m := calculate_total_sales_revenue [] in
   (Total_Revenue m == 0)%Q /\ (Total_Sales m == 0)%Q /\ (Total_Profit m == 0)%Q
   /\ Total_Orders m = 0%nat /\ Total_Products_Sold m = 0
   /\ (Average_Order_Value m == 0)%Q)
  /\ (forall top_n, find_best_selling_products [] top_n = ([], []))
  /\ analyze_high_revenue_categories [] = []
  /\ analyze_sales_trends [] = ([], [])
  /\ generate_regional_analysis [] = []
  /\ calculate_average_order_value [] = Err (ValueError_LengthMismatch 19 2).
Proof.
  split; [|split; [|split; [|split; [|split]]]].
  - vm_compute. repeat split; reflexivity.
  - intros top_n. unfold find_best_selling_products. simpl.
    destruct top_n; reflexivity.
  - reflexivity.
  - reflexivity.
  - reflexivity.
  - reflexivity.
Qed.

(** ** Sums over groups *)

Lemma Qsum_perm (l l' : list Q) : Permutation l l' -> (Qsum l == Qsum l')%Q.
Proof.
  induction 1; simpl; try lra.
Qed.

Lemma dropna_perm (l l' : list float) :
  Permutation l l' -> Permutation (dropna l) (dropna l').
Proof.
  induction 1 as [| x l l' P IH | x y l | l l' l'' P1 IH1 P2 IH2]; simpl.
  - constructor.
  - destruct x; [constructor|]; assumption.
  - destruct x, y; try reflexivity. apply perm_swap.
  - etransitivity; eassumption.
Qed.

Lemma sum_perm (l l' : list float) : Permutation l l' -> (sum l == sum l')%Q.
Proof.
  intros P. apply Qsum_perm. apply dropna_perm. assumption.
Qed.

Lemma dropna_map_Some {A} (f : A -> Q) (l : list A) :
  dropna (map (fun x => Some (f x)) l) = map f l.
Proof.
  induction l as [|x l IH]; simpl; [reflexivity|]. rewrite IH. reflexivity.
Qed.

Lemma Qsum_share (d : Q) (xs : list Q) :
  ~ (d == 0)%Q ->
  (Qsum (map (fun x => x / d * 100) xs) == Qsum xs / d * 100)%Q.
Proof.
  intros Hd. induction xs as [|x xs IH]; simpl.
  - field. assumption.
  - rewrite IH. field. assumption.
Qed.

Lemma Qsum_round2_close (xs : list Q) :
  (Qabs (Qsum (map round2 xs) - Qsum xs)
   <= (1 # 200) * inject_Z (Z.of_nat (List.length xs)))%Q.
Proof.
  induction xs as [|x xs IH].
  - vm_compute. discriminate.
  - change (List.length (x :: xs)) with (S (List.length xs)).
    rewrite Nat2Z.inj_succ. unfold Z.succ. rewrite inject_Z_plus. simpl Qsum.
    pose proof (round2_close x) as Hx.
    apply Qabs_Qle_condition in Hx. apply Qabs_Qle_condition in IH.
    apply Qabs_Qle_condition.
    set (n := inject_Z (Z.of_nat (List.length xs))) in *.
    change (inject_Z 1) with 1%Q.
    split; lra.
Qed.

Lemma Qsum_pos (xs : list Q) :
  xs <> [] -> (forall x, In x xs -> (0 < x)%Q) -> (0 < Qsum xs)%Q.
Proof.
  destruct xs as [|x xs]; [congruence|]. intros _ H.
  assert (P : (0 < x)%Q) by (apply H; left; reflexivity).
  assert (N : (0 <= Qsum xs)%Q).
  { clear P. induction xs as [|y ys IH]; simpl; [lra|].
    assert (0 < y)%Q by (apply H; right; left; reflexivity).
    assert (0 <= Qsum ys)%Q by (apply IH; intros z [->|Hz]; apply H; simpl; auto).
    lra. }
  simpl. lra.
Qed.

Lemma sum_pos (xs : list float) :
  xs <> [] ->
  (forall x, In x xs -> exists q, x = Some q /\ (0 < q)%Q) ->
  (0 < sum xs)%Q.
Proof.
  intros Hne H. unfold sum. apply Qsum_pos.
  - destruct xs as [|x xs]; [congruence|].
    destruct (H x (or_introl eq_refl)) as (q & -> & _). simpl. congruence.
  - intros q Hq.
    assert (Hin : In (Some q) xs).
    { clear -Hq. induction xs as [|[y|] xs IH]; simpl in *; [tauto| |auto].
      destruct Hq as [->|Hq]; auto. }
    destruct (H _ Hin) as (q' & E & L). congruence.
Qed.

(** Every group of a group-by holds at least one row, and only rows of the
    frame. *)
Lemma groupby_group {R K} `{KeyLaws K} (key : R -> K) (df : list R) (g : K * list R) :
  In g (groupby key df) ->
  snd g = filter (fun row => key_eqb (key row) (fst g)) df
  /\ snd g <> []
  /\ In (fst g) (map key df).
Proof.
  unfold groupby. intros Hg. apply in_map_iff in Hg.
  destruct Hg as (k & <- & Hk). simpl.
  apply (proj1 (sort_In _ _ _)) in Hk. apply (proj1 (unique_In _ _)) in Hk.
  split; [reflexivity|]. split; [|assumption].
  apply in_map_iff in Hk. destruct Hk as (row & <- & Hrow).
  intros E.
  assert (Hin : In row (filter (fun r => key_eqb (key r) (key row)) df)).
  { apply filter_In. split; [assumption|]. apply key_eqb_eq. reflexivity. }
  rewrite E in Hin. destruct Hin.
Qed.

Lemma groupby_nonempty {R K} `{KeyLaws K} (key : R -> K) (df : list R) :
  df <> [] -> groupby key df <> [].
Proof.
  destruct df as [|row df]; [congruence|]. intros _ E.
  assert (Hin : In (key row) (map fst (groupby key (row :: df)))).
  { rewrite groupby_keys. apply sort_In. apply unique_In. simpl. auto. }
  rewrite E in Hin. destruct Hin.
Qed.

(** ** C9: the revenue percentages of a rollup *)

Lemma revenue_percentage_value (total grand_total : Q) :
  (0 < grand_total)%Q ->
  revenue_percentage total grand_total
  = Some (round2 (total / grand_total * 100)).
Proof.
  intros H. unfold revenue_percentage, fdiv.
  destruct (Qeq_bool grand_total 0) eqn:E; [|reflexivity].
  apply Qeq_bool_iff in E. lra.
Qed.

Lemma percentages_sum {K} `{KeyLaws K} (key : Row -> K) (df : list Row) :
  df <> [] ->
  revenues_positive df ->
  Forall (fun x => x <> NaN) (percentages key df)
  /\ (Qabs (sum (percentages key df) - 100)
      <= (1 # 200) * inject_Z (Z.of_nat (List.length (percentages key df))))%Q.
Proof.
  intros Hne Hpos. unfold percentages.
  set (groups := groupby key df).
  set (totals := map (fun g => sum (map Revenue (snd g))) groups).
  assert (Htot : forall x, In x totals -> (0 < x)%Q).
  { intros x Hx. apply in_map_iff in Hx. destruct Hx as (g & <- & Hg).
    destruct (groupby_group key df g Hg) as (Eg & Ng & _).
    apply sum_pos.
    - destruct (snd g); simpl; congruence.
    - intros v Hv. apply in_map_iff in Hv. destruct Hv as (row & <- & Hrow).
      apply Hpos. rewrite Eg in Hrow. apply filter_In in Hrow. tauto. }
  assert (HT : (0 < Qsum totals)%Q).
  { apply Qsum_pos; [|assumption]. unfold totals.
    pose proof (groupby_nonempty key df Hne) as N. fold groups in N.
    destruct groups; simpl; congruence. }
  assert (E : map (fun g => revenue_percentage (sum (map Revenue (snd g)))
                                               (Qsum totals)) groups
              = map (fun x => Some (round2 (x / Qsum totals * 100))) totals).
  { unfold totals. rewrite map_map. apply map_ext. intros g.
    apply revenue_percentage_value. assumption. }
  rewrite E. split.
  - apply Forall_forall. intros x Hx. apply in_map_iff in Hx.
    destruct Hx as (y & <- & _). discriminate.
  - unfold sum. rewrite dropna_map_Some, length_map.
    rewrite <- (map_map (fun x => x / Qsum totals * 100)%Q round2).
    pose proof (Qsum_round2_close
                  (map (fun x => x / Qsum totals * 100)%Q totals)) as C.
    rewrite length_map in C.
    assert (S100 : (Qsum (map (fun x => x / Qsum totals * 100) totals) == 100)%Q).
    { rewrite Qsum_share by lra. field. lra. }
    rewrite S100 in C. exact C.
Qed.

Lemma cleaned_revenues_positive (current_date : Timestamp) (df : list Raw.Row)
    (t : list Row) :
  clean_ecommerce_data current_date df = Ok t -> revenues_positive t.
Proof.
  intros E row Hrow.
  destruct (cleaned_In _ _ _ _ E Hrow) as (raw & _ & _ & V).
  unfold valid in V. rewrite !andb_true_iff in V.
  apply fgt0_Some. tauto.
Qed.

Lemma category_percentages_perm (df : list Row) :
  Permutation
    (map CategoryAnalysis.RevenuePercentage (analyze_high_revenue_categories df))
    (percentages Category df).
Proof.
  unfold analyze_high_revenue_categories, sort_values_desc, percentages.
  etransitivity; [apply Permutation_map; apply sort_perm|].
  rewrite map_map. reflexivity.
Qed.

Lemma region_percentages_perm (df : list Row) :
  Permutation
    (map RegionalAnalysis.RevenuePercentage (generate_regional_analysis df))
    (percentages Region df).
Proof.
  unfold generate_regional_analysis, sort_values_desc, percentages.
  etransitivity; [apply Permutation_map; apply sort_perm|].
  rewrite map_map. reflexivity.
Qed.

Lemma percentage_column_sum {K} `{KeyLaws K} (key : Row -> K) (df : list Row)
    (column : list float) :
  Permutation column (percentages key df) ->
  df <> [] ->
  revenues_positive df ->
  Forall (fun x => x <> NaN) column
  /\ (Qabs (sum column - 100)
      <= (1 # 200) * inject_Z (Z.of_nat (List.length column)))%Q.
Proof.
  intros P Hne Hpos.
  destruct (percentages_sum key df Hne Hpos) as [F B].
  split.
  - apply (Permutation_Forall (Permutation_sym P)). assumption.
  - rewrite (sum_perm _ _ P), (Permutation_length P). assumption.
Qed.

(** C9.  On the non-empty result of a cleaning run, every RevenuePercentage
    of the category rollup is defined and their sum is within 0.005 per
    category of 100; likewise for the regional rollup, within 0.005 per
    region.  (Each percentage is rounded to two decimals, which moves it by
    at most 0.005.) *)
Theorem revenue_percentages_sum_to_100 (current_date : Timestamp)
    (df : list Raw.Row) (t : list Row) :
  clean_ecommerce_data current_date df = Ok t ->
  t <> [] ->
  let by_category :=
    map CategoryAnalysis.RevenuePercentage (analyze_high_revenue_categories t) in
  let by_region :=
    map RegionalAnalysis.RevenuePercentage (generate_regional_analysis t) in
  Forall (fun x => x <> NaN) by_category
  /\ (Qabs (sum by_category - 100)
      <= (1 # 200) * inject_Z (Z.of_nat (List.length by_category)))%Q
  /\ Forall (fun x => x <> NaN) by_region
  /\ (Qabs (sum by_region - 100)
      <= (1 # 200) * inject_Z (Z.of_nat (List.length by_region)))%Q.
Proof.
  intros E Hne by_category by_region.
  pose proof (cleaned_revenues_positive _ _ _ E) as Hpos.
  destruct (percentage_column_sum Category t by_category
              (category_percentages_perm t) Hne Hpos) as [F1 B1].
  destruct (percentage_column_sum Region t by_region
              (region_percentages_perm t) Hne Hpos) as [F2 B2].
  auto.
Qed.

Lemma revenue_percentages_sum_to_100_witness :
  exists t,
    clean_ecommerce_data run_date three_categories = Ok t
    /\ map CategoryAnalysis.RevenuePercentage (analyze_high_revenue_categories t)
       = [Some (3333 # 100); Some (3333 # 100); Some (3333 # 100)]%Q
    /\ (Qabs (sum (map CategoryAnalysis.RevenuePercentage
                       (analyze_high_revenue_categories t)) - 100)
        <= (1 # 200) * 3)%Q.
Proof.
  eexists. split; [apply clean_ecommerce_data_rows|].
  split; [vm_compute; reflexivity|].
  refine (proj1 (proj2 (revenue_percentages_sum_to_100 run_date three_categories
                          _ (clean_ecommerce_data_rows _ _) _))).
  vm_compute. discriminate.
Defined.

(** ** C3: average order value by category and by region *)

Lemma mean_perm (l l' : list float) :
  Permutation l l' -> float_eq (mean l) (mean l').
Proof.
  intros P. pose proof (dropna_perm _ _ P) as D.
  pose proof (Qsum_perm _ _ D) as S. pose proof (Permutation_length D) as L.
  unfold mean.
  destruct (dropna l) as [|a u], (dropna l') as [|b v]; try discriminate;
    simpl; [exact I|].
  unfold Qlen. rewrite L. simpl in S. simpl Qsum. rewrite S. reflexivity.
Qed.

Lemma mean_order_total_spec (key : Row -> string) (df : list Row) (k : string) :
  float_eq
    (mean_order_total (filter (fun row => key_eqb (key row) k) df))
    (mean_of_per_order_sums key df k).
Proof.
  unfold mean_order_total, mean_of_per_order_sums, order_totals, groupby.
  rewrite !map_map. simpl.
  apply mean_perm.
  apply (Permutation_map
           (fun order_id =>
              Some (order_revenue (filter (fun row => String.eqb (key row) k) df)
                                  order_id))).
  apply sort_perm.
Qed.

Lemma groupby_apply_reset_index_rows (key_name : string) (key : Row -> string)
    (f : list Row -> float) (df : list Row) :
  df <> [] ->
  groupby_apply_reset_index key_name key f df
  = {| frame_columns := [key_name; "0"];
       frame_rows := map (fun g => (fst g, f (snd g))) (groupby key df) |}.
Proof.
  intros Hne. unfold groupby_apply_reset_index.
  pose proof (groupby_nonempty key df Hne) as N.
  destruct (groupby key df); [congruence | reflexivity].
Qed.

Lemma NoDup_keys_functional {K V} (l : list (K * V)) (k : K) (v v' : V) :
  NoDup (map fst l) -> In (k, v) l -> In (k, v') l -> v = v'.
Proof.
  induction l as [|[a b] l IH]; simpl; [tauto|].
  intros N. inversion N as [|? ? Ha N']; subst.
  intros [E | H] [E' | H'].
  - congruence.
  - inversion E; subst. exfalso. apply Ha.
    apply (in_map fst) in H'. exact H'.
  - inversion E'; subst. exfalso. apply Ha.
    apply (in_map fst) in H. exact H.
  - auto.
Qed.

(** One view of calculate_average_order_value: the rows of the frame built
    for [key], as they stand after the sort. *)
Lemma aov_frame_rows (key : Row -> string) (df : list Row)
    (rows : list (string * float)) :
  Permutation rows
    (map (fun g => (fst g, mean_order_total (snd g))) (groupby key df)) ->
  (forall k,
     In k (map key df) ->
     exists v, In (k, v) rows /\ float_eq v (mean_of_per_order_sums key df k))
  /\ (forall k v v', In (k, v) rows -> In (k, v') rows -> v = v').
Proof.
  intros P. split.
  - intros k Hk.
    exists (mean_order_total (filter (fun row => key_eqb (key row) k) df)).
    split; [|apply mean_order_total_spec].
    apply (Permutation_in _ (Permutation_sym P)).
    unfold groupby. rewrite map_map. simpl.
    apply in_map_iff. exists k. split; [reflexivity|].
    apply sort_In. apply unique_In. assumption.
  - intros k v v'. apply NoDup_keys_functional.
    apply (Permutation_NoDup (Permutation_map fst (Permutation_sym P))).
    rewrite map_map. simpl.
    change (NoDup (map fst (groupby key df))).
    rewrite groupby_keys.
    apply (Permutation_NoDup (Permutation_sym (sort_perm _ _))).
    apply unique_NoDup.
Qed.

(** ** C8: cleaning a cleaned table again *)

Lemma sum_nan_to_zero (xs : list float) :
  (sum xs == Qsum (map nan_to_zero xs))%Q.
Proof.
  unfold sum. induction xs as [|[q|] xs IH]; simpl; [reflexivity | | ]; lra.
Qed.

Lemma Qsum_map_nonneg {A} (f : A -> Q) (l : list A) :
  (forall x, In x l -> (0 <= f x)%Q) -> (0 <= Qsum (map f l))%Q.
Proof.
  induction l as [|x l IH]; simpl; intros H; [lra|].
  pose proof (H x (or_introl eq_refl)).
  assert (0 <= Qsum (map f l))%Q by (apply IH; auto). lra.
Qed.

Lemma Qsum_filter_le {A} (f : A -> Q) (p : A -> bool) (l : list A) :
  (forall x, In x l -> (0 <= f x)%Q) ->
  (Qsum (map f (filter p l)) <= Qsum (map f l))%Q.
Proof.
  induction l as [|x l IH]; simpl; intros H; [lra|].
  pose proof (H x (or_introl eq_refl)).
  assert (Qsum (map f (filter p l)) <= Qsum (map f l))%Q by (apply IH; auto).
  destruct (p x); simpl; lra.
Qed.

Lemma Qsum_dedup_le {A} (f : A -> Q) (eqb : A -> A -> bool) (l : list A) :
  (forall x, In x l -> (0 <= f x)%Q) ->
  (Qsum (map f (dedup eqb l)) <= Qsum (map f l))%Q.
Proof.
  induction l as [|x l IH]; simpl; intros H; [lra|].
  assert (I : (Qsum (map f (dedup eqb l)) <= Qsum (map f l))%Q)
    by (apply IH; auto).
  assert (F : (Qsum (map f (filter (fun y => negb (eqb x y)) (dedup eqb l)))
               <= Qsum (map f (dedup eqb l)))%Q).
  { apply Qsum_filter_le. intros y Hy. apply H. right.
    apply (dedup_In eqb). assumption. }
  lra.
Qed.

Lemma Qsum_map_le {A} (f g : A -> Q) (l : list A) :
  (forall x, In x l -> (f x <= g x)%Q) ->
  (Qsum (map f l) <= Qsum (map g l))%Q.
Proof.
  induction l as [|x l IH]; simpl; intros H; [lra|].
  pose proof (H x (or_introl eq_refl)).
  assert (Qsum (map f l) <= Qsum (map g l))%Q by (apply IH; auto). lra.
Qed.

Lemma Qsum_map_eq {A} (f g : A -> Q) (l : list A) :
  (forall x, In x l -> (f x == g x)%Q) ->
  (Qsum (map f l) == Qsum (map g l))%Q.
Proof.
  induction l as [|x l IH]; simpl; intros H; [reflexivity|].
  rewrite (H x (or_introl eq_refl)), IH by auto. reflexivity.
Qed.

(** *** The mean of per-order sums as a quotient *)

Lemma Qsum_indicator {K} `{KeyLaws K} (a : K) (c : Q) (keys : list K) :
  NoDup keys -> In a keys ->
  (Qsum (map (fun k => if key_eqb a k then c else 0) keys) == c)%Q.
Proof.
  induction 1 as [|k keys Hk N IH]; simpl; [tauto|].
  intros [-> | Hin].
  - assert (E : key_eqb a a = true) by (apply key_eqb_eq; reflexivity).
    rewrite E.
    assert (Z0 : (Qsum (map (fun k => if key_eqb a k then c else 0) keys) == 0)%Q).
    { clear IH N. induction keys as [|k keys IH]; simpl; [reflexivity|].
      destruct (key_eqb a k) eqn:Ek.
      - apply key_eqb_eq in Ek. subst. exfalso. apply Hk. left. reflexivity.
      - rewrite IH; [lra|]. intros Hin. apply Hk. right. assumption. }
    rewrite Z0. lra.
  - destruct (key_eqb a k) eqn:Ek.
    + apply key_eqb_eq in Ek. subst. contradiction.
    + rewrite IH by assumption. lra.
Qed.

Lemma Qsum_zeros {A} (l : list A) : (Qsum (map (fun _ => 0) l) == 0)%Q.
Proof.
  induction l as [|x l IH]; cbn [map Qsum]; [reflexivity|]. rewrite IH. lra.
Qed.

(** Summing group by group is summing the whole frame. *)
Lemma Qsum_by_key {R K} `{KeyLaws K} (key : R -> K) (v : R -> Q) (keys : list K)
    (l : list R) :
  NoDup keys ->
  (forall x, In x l -> In (key x) keys) ->
  (Qsum (map (fun k => Qsum (map v (filter (fun x => key_eqb (key x) k) l))) keys)
   == Qsum (map v l))%Q.
Proof.
  intros N. induction l as [|x l IH]; intros Hin.
  - cbn [filter map Qsum]. apply Qsum_zeros.
  - assert (E : (Qsum (map (fun k =>
                              Qsum (map v (filter (fun y => key_eqb (key y) k)
                                                  (x :: l)))) keys)
                 == Qsum (map (fun k => if key_eqb (key x) k then v x else 0) keys)
                    + Qsum (map (fun k =>
                                   Qsum (map v (filter (fun y => key_eqb (key y) k)
                                                       l))) keys))%Q).
    { clear. induction keys as [|k keys IHk]; simpl; [lra|].
      rewrite IHk. destruct (key_eqb (key x) k); simpl; lra. }
    rewrite E, IH by (intros y Hy; apply Hin; right; assumption).
    rewrite Qsum_indicator by (auto; apply Hin; left; reflexivity).
    simpl. reflexivity.
Qed.

(** The mean of the per-order sums of a key is the revenue of the lines of
    the key divided by the number of distinct orders among them: the
    TotalRevenue and the OrderCount that the rollup gives for the key. *)
Lemma mean_of_per_order_sums_quotient (key : Row -> string) (df : list Row)
    (k : string) :
  In k (map key df) ->
  let lines := filter (fun row => String.eqb (key row) k) df in
  float_eq (mean_of_per_order_sums key df k)
           (Some (sum (map Revenue lines)
                  / inject_Z (Z.of_nat (nunique (map OrderID lines))))%Q).
Proof.
  intros Hk lines. unfold mean_of_per_order_sums. fold lines.
  unfold mean. rewrite dropna_map_Some.
  assert (Hne : unique (map OrderID lines) <> []).
  { apply in_map_iff in Hk. destruct Hk as (row & <- & Hrow).
    assert (Hl : In row lines)
      by (apply filter_In; split; [assumption | apply String.eqb_refl]).
    intros E.
    assert (Ho : In (OrderID row) (unique (map OrderID lines)))
      by (apply unique_In; apply in_map; assumption).
    rewrite E in Ho. destruct Ho. }
  destruct (map (order_revenue lines) (unique (map OrderID lines)))
    as [|a u] eqn:M.
  { destruct (unique (map OrderID lines)); [congruence | discriminate]. }
  rewrite <- M. simpl. unfold Qlen, nunique. rewrite length_map.
  assert (S : (Qsum (map (order_revenue lines) (unique (map OrderID lines)))
               == sum (map Revenue lines))%Q).
  { unfold order_revenue.
    rewrite (Qsum_map_eq _
               (fun o => Qsum (map (fun row => nan_to_zero (Revenue row))
                                   (filter (fun row => key_eqb (OrderID row) o)
                                           lines))))
      by (intros o _; rewrite sum_nan_to_zero, map_map; reflexivity).
    rewrite (Qsum_by_key OrderID (fun row => nan_to_zero (Revenue row))).
    - rewrite sum_nan_to_zero, map_map. reflexivity.
    - apply unique_NoDup.
    - intros row Hrow. apply unique_In. apply in_map. assumption. }
  rewrite S. reflexivity.
Qed.

(** A Books order beside a Clothing order: the average order value of Books
    is 20, the revenue of Books divided by its one order, and not the
    revenue of Books divided by the two orders of the table. *)
Example average_order_value_counts_own_orders :
  let t := [clean_line "O1" "Books" 2 10; clean_line "O2" "Clothing" 1 30] in
  float_eq (mean_of_per_order_sums Category t "Books") (Some 20%Q)
  /\ nunique (map OrderID t) = 2%nat
  /\ (sum (map Revenue (category_rows "Books" t)) / 2 == 10)%Q.
Proof.
  vm_compute. repeat split.
Qed.




(** What a cleaning run guarantees of each row it returns. *)
Lemma cleaned_row_facts (current_date : Timestamp) (df : list Raw.Row)
    (t : list Row) (row : Row) :
  clean_ecommerce_data current_date df = Ok t ->
  In row t ->
  exists p rev,
    Price row = Some p /\ Revenue row = Some rev
    /\ (0 < p)%Q /\ 0 < Quantity row /\ (0 < rev)%Q
    /\ (p * inject_Z (Quantity row) <= rev)%Q.
Proof.
  intros E Hrow.
  destruct (cleaned_In _ _ _ _ E Hrow) as (raw & _ & -> & V).
  destruct (valid_cleaned_row _ _ _ V) as (p & Ep & Lp & Lq & Lr).
  destruct (Qtrunc_pos_bounds _ Lq) as [B _].
  exists p, (p * filled_quantity raw)%Q. unfold cleaned_row; simpl.
  rewrite Ep. simpl. repeat split; try assumption.
  apply Qmult_le_l; assumption.
Qed.

Lemma cleaned_row_as_raw (current_date : Timestamp) (df : list Raw.Row)
    (row : Row) (p : Q) :
  Price row = Some p ->
  cleaned_row current_date df (as_raw row) = recleaned current_date row.
Proof.
  intros E. unfold recleaned, cleaned_row, imputed, filled_price. simpl.
  rewrite E. reflexivity.
Qed.

Lemma recleaned_columns (current_date : Timestamp) (row : Row) :
  Category (recleaned current_date row) = Category row
  /\ Price (recleaned current_date row) = Price row
  /\ Quantity (recleaned current_date row) = Quantity row
  /\ Revenue (recleaned current_date row)
     = fmul (Price row) (Some (inject_Z (Quantity row))).
Proof.
  unfold recleaned, cleaned_row, imputed, filled_price, filled_quantity,
    category_median. simpl.
  rewrite Qtrunc_inject_Z.
  destruct (Price row); repeat split; reflexivity.
Qed.

Lemma valid_recleaned (current_date : Timestamp) (row : Row) (p : Q) :
  Price row = Some p -> (0 < p)%Q -> 0 < Quantity row ->
  valid (recleaned current_date row) = true.
Proof.
  intros Ep Lp Lq. unfold valid.
  destruct (recleaned_columns current_date row) as (_ & -> & -> & ->).
  rewrite Ep. simpl. rewrite !andb_true_iff. repeat split.
  - apply Qltb_lt. assumption.
  - apply Z.ltb_lt. assumption.
  - apply Qltb_lt. apply Qmult_lt_0_compat; [assumption|].
    rewrite <- (Zlt_Qlt 0). assumption.
Qed.

(** The second run on a cleaned table: nothing is imputed and nothing
    fails validation; the run de-duplicates the rows, rebuilds them and
    filters the outliers once more. *)
Lemma recleaning_rows (date1 date2 : Timestamp) (df : list Raw.Row) (t : list Row) :
  clean_ecommerce_data date1 df = Ok t ->
  clean_ecommerce_data date2 (map as_raw t)
  = Ok (remove_outliers
          (map (cleaned_row date2 []) (drop_duplicates (map as_raw t)))).
Proof.
  intros E. rewrite clean_ecommerce_data_rows. f_equal. f_equal.
  set (dd := drop_duplicates (map as_raw t)).
  assert (R : forall raw,
             In raw dd ->
             cleaned_row date2 dd raw = cleaned_row date2 [] raw
             /\ valid (cleaned_row date2 dd raw) = true).
  { intros raw Hraw. apply drop_duplicates_In in Hraw.
    apply in_map_iff in Hraw. destruct Hraw as (row & <- & Hrow).
    destruct (cleaned_row_facts _ _ _ _ E Hrow)
      as (p & rev & Ep & _ & Lp & Lq & _).
    rewrite (cleaned_row_as_raw date2 dd row p Ep).
    split; [reflexivity|]. apply (valid_recleaned date2 row p); assumption. }
  rewrite filter_all.
  - apply map_ext_in. intros raw Hraw. apply R. assumption.
  - intros x Hx. apply in_map_iff in Hx. destruct Hx as (raw & <- & Hraw).
    apply R. assumption.
Qed.

Lemma filter_map_swap' {A B} (p : B -> bool) (h : A -> B) (l : list A) :
  filter p (map h l) = map h (filter (fun x => p (h x)) l).
Proof.
  induction l as [|x l IH]; simpl; [reflexivity|].
  destruct (p (h x)); simpl; rewrite IH; reflexivity.
Qed.

(** The outlier filter reads the Category and Price columns only. *)
Lemma remove_outliers_map (h : Row -> Row) (df : list Row) :
  (forall row, Category (h row) = Category row /\ Price (h row) = Price row) ->
  remove_outliers (map h df) = map h (remove_outliers df).
Proof.
  intros H. rewrite !remove_outliers_filter. rewrite filter_map_swap'.
  f_equal. apply filter_ext_in'. intros row _. f_equal.
  unfold is_price_outlier, category_rows.
  destruct (H row) as [-> ->].
  rewrite filter_map_swap', map_map.
  rewrite (filter_ext_in' (fun x => String.eqb (Category (h x)) (Category row))
                          (fun x => String.eqb (Category x) (Category row)))
    by (intros x _; destruct (H x) as [-> _]; reflexivity).
  rewrite (map_ext (fun x => Price (h x)) Price)
    by (intros x; destruct (H x) as [_ ->]; reflexivity).
  reflexivity.
Qed.

(** C8 (as amended).  Cleaning the result of a cleaning run again always
    succeeds, and returns at most as many rows and at most as large a
    revenue sum.  The row count and the revenue sum are those of the first
    result when that result holds no two equal rows, holds no price outlier
    of its own, and has revenue equal to price times quantity on every
    row. *)
Theorem recleaning_never_adds (date1 date2 : Timestamp) (df : list Raw.Row)
    (t : list Row) :
  clean_ecommerce_data date1 df = Ok t ->
  exists t',
    clean_ecommerce_data date2 (map as_raw t) = Ok t'
    /\ (List.length t' <= List.length t)%nat
    /\ (sum (map Revenue t') <= sum (map Revenue t))%Q
    /\ (drop_duplicates (map as_raw t) = map as_raw t ->
        remove_outliers t = t ->
        (forall row,
           In row t ->
           float_eq (Revenue row)
                    (fmul (Price row) (Some (inject_Z (Quantity row))))) ->
        List.length t' = List.length t
        /\ (sum (map Revenue t') == sum (map Revenue t))%Q).
Proof.
  intros E. eexists. split; [apply (recleaning_rows date1 date2 df t E)|].
  set (dd := drop_duplicates (map as_raw t)).
  set (F := fun row : Row => nan_to_zero (Revenue row)).
  assert (Hdd : forall raw,
             In raw dd ->
             exists row p rev,
               In row t /\ raw = as_raw row
               /\ Price row = Some p /\ Revenue row = Some rev
               /\ (0 < p)%Q /\ 0 < Quantity row /\ (0 < rev)%Q
               /\ (p * inject_Z (Quantity row) <= rev)%Q).
  { intros raw Hraw. apply drop_duplicates_In in Hraw.
    apply in_map_iff in Hraw. destruct Hraw as (row & <- & Hrow).
    destruct (cleaned_row_facts _ _ _ _ E Hrow) as (p & rev & Hf).
    exists row, p, rev. tauto. }
  assert (Hg : forall raw,
             In raw dd ->
             (0 <= F (cleaned_row date2 [] raw))%Q
             /\ (F (cleaned_row date2 [] raw) <= nan_to_zero (Raw.Revenue raw))%Q).
  { intros raw Hraw.
    destruct (Hdd raw Hraw) as (row & p & rev & _ & -> & Ep & Er & Lp & Lq & Lr & B).
    unfold F. fold (recleaned date2 row).
    destruct (recleaned_columns date2 row) as (_ & _ & _ & ->).
    rewrite Ep. simpl. rewrite Er. simpl. split; [|assumption].
    apply Qmult_le_0_compat; [lra|]. rewrite <- (Zle_Qle 0). lia. }
  split; [|split].
  - rewrite remove_outliers_filter.
    etransitivity; [apply filter_length_le'|].
    rewrite length_map.
    etransitivity; [apply dedup_length|]. rewrite length_map. reflexivity.
  - rewrite !sum_nan_to_zero, !map_map. fold F.
    rewrite remove_outliers_filter.
    eapply Qle_trans.
    { apply Qsum_filter_le. intros x Hx. apply in_map_iff in Hx.
      destruct Hx as (raw & <- & Hraw). apply Hg. assumption. }
    rewrite map_map.
    eapply Qle_trans.
    { apply (Qsum_map_le _ (fun raw => nan_to_zero (Raw.Revenue raw))).
      intros raw Hraw. apply Hg. assumption. }
    eapply Qle_trans.
    { apply Qsum_dedup_le. intros raw Hraw. apply in_map_iff in Hraw.
      destruct Hraw as (row & <- & Hrow).
      destruct (cleaned_row_facts _ _ _ _ E Hrow)
        as (p & rev & _ & Er & _ & _ & Lr & _).
      simpl. rewrite Er. simpl. lra. }
    rewrite map_map. simpl. apply Qle_refl.
  - intros H1 H2 H3. rewrite H1, map_map.
    change (fun x => cleaned_row date2 [] (as_raw x)) with (recleaned date2).
    rewrite remove_outliers_map
      by (intros row; destruct (recleaned_columns date2 row) as (A & B & _); auto).
    rewrite H2. split; [apply length_map|].
    rewrite !sum_nan_to_zero, !map_map.
    apply Qsum_map_eq. intros row Hrow.
    destruct (recleaned_columns date2 row) as (_ & _ & _ & ->).
    pose proof (H3 row Hrow) as Hr.
    destruct (Revenue row), (fmul (Price row) (Some (inject_Z (Quantity row))));
      simpl in *; try contradiction; [symmetry; assumption | reflexivity].
Qed.

(** C8, as stated, fails: the first run fills the missing region and
    returns two equal rows, of which the second run keeps one; the row
    count goes from 2 to 1 and the revenue sum from 40 to 20. *)
Lemma recleaning_drops_a_row :
  exists t t',
    clean_ecommerce_data run_date equal_after_imputation = Ok t
    /\ clean_ecommerce_data later_run_date (map as_raw t) = Ok t'
    /\ List.length t = 2%nat /\ List.length t' = 1%nat
    /\ (sum (map Revenue t) == 40)%Q /\ (sum (map Revenue t') == 20)%Q.
Proof.
  eexists. eexists.
  split; [vm_compute; reflexivity|].
  split; [vm_compute; reflexivity|].
  repeat split.
Qed.

Lemma recleaning_never_adds_witness :
  exists t',
    clean_ecommerce_data later_run_date (map as_raw two_books_cleaned) = Ok t'
    /\ List.length t' = 2%nat
    /\ (sum (map Revenue t') == 50)%Q.
Proof.
  assert (E : clean_ecommerce_data run_date two_books = Ok two_books_cleaned)
    by (vm_compute; reflexivity).
  destruct (recleaning_never_adds run_date later_run_date two_books
              two_books_cleaned E) as (t' & E' & _ & _ & H).
  exists t'. split; [exact E'|].
  destruct H as [L S].
  - vm_compute. reflexivity.
  - vm_compute. reflexivity.
  - intros row [<- | [<- | []]]; vm_compute; reflexivity.
  - split; [exact L|]. rewrite S. vm_compute. reflexivity.
Defined.

(** ** The limits mean ± 3·std over the reals

    The comparisons [gt_upper] and [lt_lower] are decided on squares; over
    the real numbers they are the comparisons with mean + 3·√var and
    mean - 3·√var that the source writes. *)

Section RealLimits.
Import Reals Qreals.
Local Open Scope R_scope.

Lemma Qsum_squares_nonneg (m : Q) (vs : list Q) :
  (0 <= Qsum (map (fun x => (x - m) * (x - m)) vs))%Q.
Proof.
  apply Qsum_map_nonneg. intros x _.
  destruct (Qlt_le_dec (x - m) 0) as [L | L].
  - setoid_replace ((x - m) * (x - m))%Q with ((m - x) * (m - x))%Q by ring.
    apply Qmult_le_0_compat; Lqa.lra.
  - apply Qmult_le_0_compat; assumption.
Qed.

Lemma var_nonneg (xs : list float) (v : Q) : var xs = Some v -> (0 <= v)%Q.
Proof.
  unfold var. destruct (dropna xs) as [|a [|b l]]; try discriminate.
  intros E. injection E as <-.
  apply Qle_shift_div_l.
  - unfold Qlen. change (List.length (a :: b :: l)) with (S (S (List.length l))).
    rewrite !Nat2Z.inj_succ. unfold Z.succ. rewrite !inject_Z_plus.
    assert (0 <= inject_Z (Z.of_nat (List.length l)))%Q
      by (rewrite <- (Zle_Qle 0); lia).
    change (inject_Z 1) with 1%Q. Lqa.lra.
  - rewrite Qmult_0_l.
    exact (Qsum_squares_nonneg (Qsum (a :: b :: l) / Qlen (a :: b :: l))
                               (a :: b :: l)).
Qed.

Lemma exceeds_three_sigma (d v : Q) :
  (0 <= v)%Q ->
  Qltb 0 d && Qltb (9 * v) (d * d) = true <-> Q2R d > 3 * sqrt (Q2R v).
Proof.
  intros Hv. rewrite andb_true_iff, !Qltb_lt.
  assert (Hv' : 0 <= Q2R v) by (rewrite <- RMicromega.Q2R_0; apply Qle_Rle; exact Hv).
  pose proof (sqrt_pos (Q2R v)) as Hs.
  pose proof (sqrt_sqrt (Q2R v) Hv') as Hss.
  set (s := sqrt (Q2R v)) in *.
  split.
  - intros [Hd Hsq]. apply Qlt_Rlt in Hd, Hsq.
    rewrite RMicromega.Q2R_0 in Hd. rewrite !Q2R_mult in Hsq.
    change (Q2R 9) with (Q2R (9 # 1)) in Hsq.
    assert (E9 : Q2R 9 = 9) by (unfold Q2R; simpl; Lra.lra).
    rewrite E9 in Hsq. Lra.nra.
  - intros H. split; apply Rlt_Qlt.
    + rewrite RMicromega.Q2R_0. Lra.lra.
    + rewrite !Q2R_mult.
      assert (E9 : Q2R 9 = 9) by (unfold Q2R; simpl; Lra.lra).
      rewrite E9. Lra.nra.
Qed.

(** [gt_upper] is [price > mean + 3*std]. *)
Lemma gt_upper_real (p m v : Q) :
  (0 <= v)%Q ->
  gt_upper (Some p) (Some m) (Some (Sqrt v)) = true
  <-> Q2R p > Q2R m + 3 * sqrt (Q2R v).
Proof.
  intros Hv. unfold gt_upper. rewrite (exceeds_three_sigma (p - m) v Hv).
  rewrite Q2R_minus. split; intros; Lra.lra.
Qed.

(** [lt_lower] is [price < mean - 3*std]. *)
Lemma lt_lower_real (p m v : Q) :
  (0 <= v)%Q ->
  lt_lower (Some p) (Some m) (Some (Sqrt v)) = true
  <-> Q2R p < Q2R m - 3 * sqrt (Q2R v).
Proof.
  intros Hv. unfold lt_lower. rewrite (exceeds_three_sigma (m - p) v Hv).
  rewrite Q2R_minus. split; intros; Lra.lra.
Qed.

(** The sums, the mean and the radicand of the standard deviation, taken
    to the real numbers. *)
Lemma Q2R_Qsum (xs : list Q) : Q2R (Qsum xs) = Rsum (map Q2R xs).
Proof.
  induction xs as [|x xs IH]; simpl.
  - apply RMicromega.Q2R_0.
  - rewrite Q2R_plus, IH. reflexivity.
Qed.

Lemma Q2R_Qlen (xs : list Q) : Q2R (Qlen xs) = INR (List.length xs).
Proof.
  unfold Qlen. rewrite INR_IZR_INZ. unfold Q2R, inject_Z. simpl. field.
Qed.

Lemma Q2R_mean (vs : list Q) :
  vs <> [] -> Q2R (Qsum vs / Qlen vs) = Rmean (map Q2R vs).
Proof.
  intros Hne. unfold Rmean. rewrite length_map.
  rewrite Q2R_div, Q2R_Qsum, Q2R_Qlen; [reflexivity|].
  intros E. apply Qeq_eqR in E. rewrite Q2R_Qlen, RMicromega.Q2R_0 in E.
  change 0 with (INR 0) in E.
  apply INR_eq in E. destruct vs; [congruence | discriminate E].
Qed.

Lemma Q2R_radicand (vs : list Q) :
  (2 <= List.length vs)%nat ->
  let m := (Qsum vs / Qlen vs)%Q in
  sqrt (Q2R (Qsum (map (fun x => (x - m) * (x - m))%Q vs) / (Qlen vs - 1)))
  = Rstd (map Q2R vs).
Proof.
  intros L m. unfold Rstd. f_equal.
  assert (Hne : vs <> []) by (destruct vs; [simpl in L; lia | discriminate]).
  rewrite Q2R_div.
  - rewrite Q2R_Qsum, !map_map, Q2R_minus, Q2R_Qlen, length_map.
    rewrite <- (Q2R_mean vs Hne). fold m.
    assert (E1 : Q2R 1 = 1) by (unfold Q2R; simpl; field).
    rewrite E1. f_equal. f_equal. apply map_ext. intros x.
    rewrite Q2R_mult, Q2R_minus. reflexivity.
  - intros E. apply Qeq_eqR in E.
    rewrite Q2R_minus, Q2R_Qlen, RMicromega.Q2R_0 in E.
    assert (E1 : Q2R 1 = 1) by (unfold Q2R; simpl; field).
    rewrite E1 in E.
    assert (E2 : INR (List.length vs) = INR 1) by (simpl; Lra.lra).
    apply INR_eq in E2. lia.
Qed.

(** The outlier test of the loop is the test of the specification. *)
Lemma is_price_outlier_real (df : list Row) (row : Row) :
  is_price_outlier df row = true
  <-> exists p,
        Price row = Some p
        /\ outside_three_sigma (category_prices df row) p.
Proof.
  unfold is_price_outlier, category_prices, outside_three_sigma.
  set (xs := map Price (category_rows (Category row) df)).
  rewrite orb_true_iff. cbv zeta.
  destruct (Price row) as [p|].
  - pose proof (var_nonneg xs) as Hv. pose proof (Q2R_radicand (dropna xs)) as Hr.
    pose proof (Q2R_mean (dropna xs)) as Hm.
    unfold mean, std, var in *.
    destruct (dropna xs) as [|a [|b l]] eqn:D.
    + simpl. split; [intros [H | H]; discriminate H|].
      intros (q & _ & L & _). simpl in L. lia.
    + simpl. split; [intros [H | H]; discriminate H|].
      intros (q & _ & L & _). simpl in L. lia.
    + set (vs := a :: b :: l) in *.
      set (m := (Qsum vs / Qlen vs)%Q) in *.
      set (v := (Qsum (map (fun x => (x - m) * (x - m))%Q vs) / (Qlen vs - 1))%Q)
        in *.
      cbn [option_map].
      assert (V : (0 <= v)%Q) by (apply Hv; reflexivity).
      assert (L : (2 <= List.length vs)%nat) by (simpl; lia).
      specialize (Hr L). cbv zeta in Hr. fold m in Hr. fold v in Hr.
      assert (M : Q2R m = Rmean (map Q2R vs)) by (apply Hm; discriminate).
      rewrite (gt_upper_real p m v V), (lt_lower_real p m v V).
      rewrite Hr, M. split.
      * intros H. exists p. split; [reflexivity|]. split; [exact L | exact H].
      * intros (q & Eq & _ & H). injection Eq as <-. exact H.
  - split.
    + intros [H | H]; simpl in H; discriminate H.
    + intros (q & Eq & _). discriminate Eq.
Qed.

End RealLimits.

(** ** C5: the outlier filter, category by category *)



(** * Further properties of the aggregation views *)

(** ** Rollups partition the table *)

Lemma Zsum_perm (l l' : list Z) : Permutation l l' -> Zsum l = Zsum l'.
Proof.
  induction 1; simpl; lia.
Qed.

Lemma Zsum_indicator {K} `{KeyLaws K} (a : K) (c : Z) (keys : list K) :
  NoDup keys -> In a keys ->
  Zsum (map (fun k => if key_eqb a k then c else 0) keys) = c.
Proof.
  induction 1 as [|k keys Hk N IH]; simpl; [tauto|].
  intros [-> | Hin].
  - assert (Ea : key_eqb a a = true) by (apply key_eqb_eq; reflexivity).
    rewrite Ea.
    assert (Z0 : Zsum (map (fun k => if key_eqb a k then c else 0) keys) = 0).
    { clear IH N. induction keys as [|k keys IH]; simpl; [reflexivity|].
      destruct (key_eqb a k) eqn:Ek.
      - apply key_eqb_eq in Ek. subst. exfalso. apply Hk. left. reflexivity.
      - rewrite IH; [reflexivity|]. intros Hin. apply Hk. right. assumption. }
    lia.
  - destruct (key_eqb a k) eqn:Ek.
    + apply key_eqb_eq in Ek. subst. contradiction.
    + rewrite IH by assumption. lia.
Qed.

Lemma Zsum_by_key {R K} `{KeyLaws K} (key : R -> K) (v : R -> Z) (keys : list K)
    (l : list R) :
  NoDup keys ->
  (forall x, In x l -> In (key x) keys) ->
  Zsum (map (fun k => Zsum (map v (filter (fun x => key_eqb (key x) k) l))) keys)
  = Zsum (map v l).
Proof.
  intros N. induction l as [|x l IH]; intros Hin.
  - cbn [filter map Zsum]. clear. induction keys as [|k keys IHk]; simpl; auto.
  - assert (E : Zsum (map (fun k =>
                             Zsum (map v (filter (fun y => key_eqb (key y) k)
                                                 (x :: l)))) keys)
                = Zsum (map (fun k => if key_eqb (key x) k then v x else 0) keys)
                  + Zsum (map (fun k =>
                                 Zsum (map v (filter (fun y => key_eqb (key y) k)
                                                     l))) keys)).
    { clear. induction keys as [|k keys IHk]; cbn [map Zsum]; [reflexivity|].
      rewrite IHk. cbn [filter].
      destruct (key_eqb (key x) k); cbn [map Zsum]; lia. }
    rewrite E, IH by (intros y Hy; apply Hin; right; assumption).
    rewrite Zsum_indicator by (auto; apply Hin; left; reflexivity).
    simpl. reflexivity.
Qed.

Lemma groupby_keys_NoDup {R K} `{KeyLaws K} (key : R -> K) (df : list R) :
  NoDup (sort key_leb (unique (map key df))).
Proof.
  apply (Permutation_NoDup (Permutation_sym (sort_perm _ _))).
  apply unique_NoDup.
Qed.

(** The sums of the groups of a group-by add up to the sum of the column. *)
Lemma groupby_sum {R K} `{KeyLaws K} (key : R -> K) (col : R -> float)
    (df : list R) :
  (Qsum (map (fun g => sum (map col (snd g))) (groupby key df))
   == sum (map col df))%Q.
Proof.
  unfold groupby. rewrite map_map. simpl.
  rewrite (Qsum_map_eq _
             (fun k => Qsum (map (fun row => nan_to_zero (col row))
                                 (filter (fun row => key_eqb (key row) k) df))))
    by (intros k _; rewrite sum_nan_to_zero, map_map; reflexivity).
  rewrite (Qsum_by_key key (fun row => nan_to_zero (col row))).
  - rewrite sum_nan_to_zero, map_map. reflexivity.
  - apply groupby_keys_NoDup.
  - intros row Hrow. apply sort_In. apply unique_In. apply in_map. assumption.
Qed.

Lemma groupby_Zsum {R K} `{KeyLaws K} (key : R -> K) (col : R -> Z)
    (df : list R) :
  Zsum (map (fun g => Zsum (map col (snd g))) (groupby key df))
  = Zsum (map col df).
Proof.
  unfold groupby. rewrite map_map. simpl.
  apply (Zsum_by_key key col).
  - apply groupby_keys_NoDup.
  - intros row Hrow. apply sort_In. apply unique_In. apply in_map. assumption.
Qed.

Lemma round_half_even_comp (x y : Q) :
  (x == y)%Q -> round_half_even x = round_half_even y.
Proof.
  intros E. unfold round_half_even, Qltb.
  rewrite (Qfloor_comp _ _ E).
  assert (Er : (x - inject_Z (Qfloor y) == y - inject_Z (Qfloor y))%Q)
    by (rewrite E; reflexivity).
  rewrite (Qleb_comp _ _ (Qeq_refl (1 # 2)) _ _ Er).
  rewrite (Qleb_comp _ _ Er _ _ (Qeq_refl (1 # 2))).
  reflexivity.
Qed.

Lemma round2_comp (x y : Q) : (x == y)%Q -> round2 x = round2 y.
Proof.
  intros E. unfold round2.
  rewrite (round_half_even_comp (x * 100) (y * 100)) by (rewrite E; reflexivity).
  reflexivity.
Qed.

Lemma nunique_filter_le {R K} `{KeyLaws K} (col : R -> K) (p : R -> bool)
    (df : list R) :
  (nunique (map col (filter p df)) <= nunique (map col df))%nat.
Proof.
  unfold nunique. apply NoDup_incl_length; [apply unique_NoDup|].
  intros k Hk. apply (proj1 (unique_In _ _)) in Hk. apply unique_In.
  apply in_map_iff in Hk. destruct Hk as (row & <- & Hrow).
  apply filter_In in Hrow. apply in_map. tauto.
Qed.

Lemma nunique_pos {K} `{KeyLaws K} (l : list K) :
  l <> [] -> (1 <= nunique l)%nat.
Proof.
  destruct l as [|k l]; [congruence|]. intros _. unfold nunique, unique.
  simpl. lia.
Qed.

(** The distinct-order count of a group lies between 1 and that of the
    table. *)
Lemma group_order_count {K} `{KeyLaws K} (key : Row -> K) (df : list Row)
    (g : K * list Row) :
  In g (groupby key df) ->
  (1 <= nunique (map OrderID (snd g)) <= nunique (map OrderID df))%nat.
Proof.
  intros Hg. destruct (groupby_group key df g Hg) as (E & N & _). split.
  - apply nunique_pos. destruct (snd g); [congruence | discriminate].
  - rewrite E. apply nunique_filter_le.
Qed.

Lemma groupby_key_In {R K} `{KeyLaws K} (key : R -> K) (df : list R) (k : K) :
  In k (map fst (groupby key df)) <-> In k (map key df).
Proof.
  rewrite groupby_keys. rewrite sort_In. apply unique_In.
Qed.

Lemma groupby_keys_distinct {R K} `{KeyLaws K} (key : R -> K) (df : list R) :
  NoDup (map fst (groupby key df)).
Proof.
  rewrite groupby_keys. apply groupby_keys_NoDup.
Qed.

(** X1.  The category rollup has one row for each category of the table
    and no other; its TotalRevenue, TotalQuantity and TotalProfit columns
    add up to the sums of the Revenue, Quantity and Profit columns of the
    table, the quantities to the Total Products Sold of the total-metrics
    view; and the OrderCount of a row is at least 1 and at most the Total
    Orders of the table. *)
Theorem category_rollup_partitions_the_table (df : list Row) :
  let rollup := analyze_high_revenue_categories df in
  let totals := calculate_total_sales_revenue df in
  NoDup (map CategoryAnalysis.Category rollup)
  /\ (forall c, In c (map CategoryAnalysis.Category rollup)
                <-> In c (map Category df))
  /\ (Qsum (map CategoryAnalysis.TotalRevenue rollup) == sum (map Revenue df))%Q
  /\ Zsum (map CategoryAnalysis.TotalQuantity rollup) = Zsum (map Quantity df)
  /\ (Qsum (map CategoryAnalysis.TotalProfit rollup) == sum (map Profit df))%Q
  /\ Zsum (map CategoryAnalysis.TotalQuantity rollup)
     = Total_Products_Sold totals
  /\ (forall row,
        In row rollup ->
        (1 <= CategoryAnalysis.OrderCount row <= Total_Orders totals)%nat).
Proof.
  intros rollup totals.
  assert (P : forall {B} (col : CategoryAnalysis.Row -> B),
             Permutation (map col rollup)
               (map col
                  (map (fun g =>
                          CategoryAnalysis.mk (fst g)
                            (sum (map Revenue (snd g)))
                            (mean (map Revenue (snd g)))
                            (Zsum (map Quantity (snd g)))
                            (nunique (map OrderID (snd g)))
                            (sum (map Profit (snd g)))
                            (revenue_percentage
                               (sum (map Revenue (snd g)))
                               (Qsum (map (fun g => sum (map Revenue (snd g)))
                                          (groupby Category df)))))
                       (groupby Category df)))).
  { intros B col. apply Permutation_map. apply sort_perm. }
  assert (K : Permutation (map CategoryAnalysis.Category rollup)
                          (map fst (groupby Category df))).
  { rewrite (P _ CategoryAnalysis.Category), map_map. reflexivity. }
  assert (SR : (Qsum (map CategoryAnalysis.TotalRevenue rollup)
                == sum (map Revenue df))%Q).
  { rewrite (Qsum_perm _ _ (P _ CategoryAnalysis.TotalRevenue)), map_map.
    apply (groupby_sum Category Revenue). }
  assert (SQ : Zsum (map CategoryAnalysis.TotalQuantity rollup)
               = Zsum (map Quantity df)).
  { rewrite (Zsum_perm _ _ (P _ CategoryAnalysis.TotalQuantity)), map_map.
    apply (groupby_Zsum Category Quantity). }
  split; [|split; [|split; [|split; [|split; [|split]]]]].
  - apply (Permutation_NoDup (Permutation_sym K)). apply groupby_keys_distinct.
  - intros c. rewrite <- (groupby_key_In Category df c).
    split; apply Permutation_in; [exact K | exact (Permutation_sym K)].
  - exact SR.
  - exact SQ.
  - rewrite (Qsum_perm _ _ (P _ CategoryAnalysis.TotalProfit)), map_map.
    apply (groupby_sum Category Profit).
  - exact SQ.
  - intros row Hrow.
    unfold rollup, analyze_high_revenue_categories, sort_values_desc in Hrow.
    apply (proj1 (sort_In _ _ _)) in Hrow.
    apply in_map_iff in Hrow. destruct Hrow as (g & <- & Hg). simpl.
    apply (group_order_count Category df g Hg).
Qed.

Lemma group_nunique {K C} `{KeyLaws K} `{KeyLaws C} (key : Row -> K)
    (col : Row -> C) (df : list Row) (g : K * list Row) :
  In g (groupby key df) ->
  (1 <= nunique (map col (snd g)) <= nunique (map col df))%nat.
Proof.
  intros Hg. destruct (groupby_group key df g Hg) as (E & N & _). split.
  - apply nunique_pos. destruct (snd g); [congruence | discriminate].
  - rewrite E. apply nunique_filter_le.
Qed.

(** X2.  The regional rollup has one row for each region of the table and
    no other; its TotalRevenue, TotalQuantity and TotalProfit columns add
    up to the sums of the Revenue, Quantity and Profit columns of the table;
    and in every row the OrderCount and the CustomerCount are at least 1 and
    at most the numbers of distinct orders and of distinct customers of the
    table. *)
Theorem regional_rollup_partitions_the_table (df : list Row) :
  let rollup := generate_regional_analysis df in
  let totals := calculate_total_sales_revenue df in
  NoDup (map RegionalAnalysis.Region rollup)
  /\ (forall r, In r (map RegionalAnalysis.Region rollup)
                <-> In r (map Region df))
  /\ (Qsum (map RegionalAnalysis.TotalRevenue rollup) == sum (map Revenue df))%Q
  /\ Zsum (map RegionalAnalysis.TotalQuantity rollup) = Zsum (map Quantity df)
  /\ (Qsum (map RegionalAnalysis.TotalProfit rollup) == sum (map Profit df))%Q
  /\ (forall row,
        In row rollup ->
        (1 <= RegionalAnalysis.OrderCount row <= Total_Orders totals)%nat
        /\ (1 <= RegionalAnalysis.CustomerCount row
            <= nunique (map CustomerID df))%nat).
Proof.
  intros rollup totals.
  assert (P : forall {B} (col : RegionalAnalysis.Row -> B),
             Permutation (map col rollup)
               (map col
                  (map (fun g =>
                          RegionalAnalysis.mk (fst g)
                            (sum (map Revenue (snd g)))
                            (Zsum (map Quantity (snd g)))
                            (nunique (map OrderID (snd g)))
                            (nunique (map CustomerID (snd g)))
                            (sum (map Profit (snd g)))
                            (revenue_percentage
                               (sum (map Revenue (snd g)))
                               (Qsum (map (fun g => sum (map Revenue (snd g)))
                                          (groupby Region df)))))
                       (groupby Region df)))).
  { intros B col. apply Permutation_map. apply sort_perm. }
  assert (K : Permutation (map RegionalAnalysis.Region rollup)
                          (map fst (groupby Region df))).
  { rewrite (P _ RegionalAnalysis.Region), map_map. reflexivity. }
  assert (SR : (Qsum (map RegionalAnalysis.TotalRevenue rollup)
                == sum (map Revenue df))%Q).
  { rewrite (Qsum_perm _ _ (P _ RegionalAnalysis.TotalRevenue)), map_map.
    apply (groupby_sum Region Revenue). }
  split; [|split; [|split; [|split; [|split]]]].
  - apply (Permutation_NoDup (Permutation_sym K)). apply groupby_keys_distinct.
  - intros c. rewrite <- (groupby_key_In Region df c).
    split; apply Permutation_in; [exact K | exact (Permutation_sym K)].
  - exact SR.
  - rewrite (Zsum_perm _ _ (P _ RegionalAnalysis.TotalQuantity)), map_map.
    apply (groupby_Zsum Region Quantity).
  - rewrite (Qsum_perm _ _ (P _ RegionalAnalysis.TotalProfit)), map_map.
    apply (groupby_sum Region Profit).
  - intros row Hrow.
    unfold rollup, generate_regional_analysis, sort_values_desc in Hrow.
    apply (proj1 (sort_In _ _ _)) in Hrow.
    apply in_map_iff in Hrow. destruct Hrow as (g & <- & Hg). simpl. split.
    + apply (group_nunique Region OrderID df g Hg).
    + apply (group_nunique Region CustomerID df g Hg).
Qed.

(** X3.  The monthly trend has one row for each year-month of the table and
    the quarterly trend one row for each (year, quarter); in both, the
    TotalRevenue, TotalQuantity and TotalProfit columns add up to the sums
    of the Revenue, Quantity and Profit columns of the table. *)
Theorem sales_trends_partition_the_table (df : list Row) :
  let monthly := fst (analyze_sales_trends df) in
  let quarterly := snd (analyze_sales_trends df) in
  NoDup (map Trends.YearMonth monthly)
  /\ (forall k, In k (map Trends.YearMonth monthly) <-> In k (map YearMonth df))
  /\ (Qsum (map Trends.TotalRevenue monthly) == sum (map Revenue df))%Q
  /\ Zsum (map Trends.TotalQuantity monthly) = Zsum (map Quantity df)
  /\ (Qsum (map Trends.TotalProfit monthly) == sum (map Profit df))%Q
  /\ NoDup (map (fun r => (Trends.Year r, Trends.Quarter r)) quarterly)
  /\ (forall k, In k (map (fun r => (Trends.Year r, Trends.Quarter r)) quarterly)
                <-> In k (map (fun row => (Year row, Quarter row)) df))
  /\ (Qsum (map Trends.qTotalRevenue quarterly) == sum (map Revenue df))%Q
  /\ Zsum (map Trends.qTotalQuantity quarterly) = Zsum (map Quantity df)
  /\ (Qsum (map Trends.qTotalProfit quarterly) == sum (map Profit df))%Q.
Proof.
  intros monthly quarterly.
  assert (PM : forall {B} (col : Trends.Monthly -> B),
             Permutation (map col monthly)
               (map col
                  (map (fun g =>
                          Trends.mkMonthly (fst g)
                            (sum (map Revenue (snd g)))
                            (Zsum (map Quantity (snd g)))
                            (nunique (map OrderID (snd g)))
                            (sum (map Profit (snd g))))
                       (groupby YearMonth df)))).
  { intros B col. apply Permutation_map. apply sort_perm. }
  assert (PQ : forall {B} (col : Trends.Quarterly -> B),
             Permutation (map col quarterly)
               (map col
                  (map (fun g =>
                          let '(y, q) := fst g in
                          Trends.mkQuarterly y q
                            (sum (map Revenue (snd g)))
                            (Zsum (map Quantity (snd g)))
                            (nunique (map OrderID (snd g)))
                            (sum (map Profit (snd g)))
                            (str_of_Z y ++ "-Q" ++ str_of_Z q))
                       (groupby (fun row => (Year row, Quarter row)) df)))).
  { intros B col. apply Permutation_map. apply sort_perm. }
  assert (KM : Permutation (map Trends.YearMonth monthly)
                           (map fst (groupby YearMonth df))).
  { rewrite (PM _ Trends.YearMonth), map_map. reflexivity. }
  assert (KQ : Permutation
                 (map (fun r => (Trends.Year r, Trends.Quarter r)) quarterly)
                 (map fst (groupby (fun row => (Year row, Quarter row)) df))).
  { rewrite (PQ _ (fun r => (Trends.Year r, Trends.Quarter r))), map_map.
    erewrite map_ext; [reflexivity|]. intros [[y q] rows]. reflexivity. }
  repeat match goal with |- _ /\ _ => split end.
  - apply (Permutation_NoDup (Permutation_sym KM)). apply groupby_keys_distinct.
  - intros c. rewrite <- (groupby_key_In YearMonth df c).
    split; apply Permutation_in; [exact KM | exact (Permutation_sym KM)].
  - rewrite (Qsum_perm _ _ (PM _ Trends.TotalRevenue)), map_map.
    apply (groupby_sum YearMonth Revenue).
  - rewrite (Zsum_perm _ _ (PM _ Trends.TotalQuantity)), map_map.
    apply (groupby_Zsum YearMonth Quantity).
  - rewrite (Qsum_perm _ _ (PM _ Trends.TotalProfit)), map_map.
    apply (groupby_sum YearMonth Profit).
  - apply (Permutation_NoDup (Permutation_sym KQ)). apply groupby_keys_distinct.
  - intros c.
    rewrite <- (groupby_key_In (fun row => (Year row, Quarter row)) df c).
    split; apply Permutation_in; [exact KQ | exact (Permutation_sym KQ)].
  - rewrite (Qsum_perm _ _ (PQ _ Trends.qTotalRevenue)), map_map.
    etransitivity; [|apply (groupby_sum (fun row => (Year row, Quarter row)) Revenue)].
    apply Qsum_map_eq. intros [[y q] rows] _. reflexivity.
  - rewrite (Zsum_perm _ _ (PQ _ Trends.qTotalQuantity)), map_map.
    etransitivity; [|apply (groupby_Zsum (fun row => (Year row, Quarter row)) Quantity)].
    f_equal. apply map_ext. intros [[y q] rows]. reflexivity.
  - rewrite (Qsum_perm _ _ (PQ _ Trends.qTotalProfit)), map_map.
    etransitivity; [|apply (groupby_sum (fun row => (Year row, Quarter row)) Profit)].
    apply Qsum_map_eq. intros [[y q] rows] _. reflexivity.
Qed.

(** ** The order of the views *)

Lemma Qdesc_total {R} (col : R -> Q) (a b : R) :
  Qdesc (col a) (col b) = true \/ Qdesc (col b) (col a) = true.
Proof.
  unfold Qdesc. destruct (Qlt_le_dec (col a) (col b)) as [L | L].
  - right. apply Qle_bool_iff. apply Qlt_le_weak. assumption.
  - left. apply Qle_bool_iff. assumption.
Qed.

Lemma Qdesc_trans {R} (col : R -> Q) (a b c : R) :
  Qdesc (col a) (col b) = true -> Qdesc (col b) (col c) = true ->
  Qdesc (col a) (col c) = true.
Proof.
  unfold Qdesc. rewrite !Qle_bool_iff. intros. eapply Qle_trans; eassumption.
Qed.

Lemma sort_values_desc_sorted {R} (col : R -> Q) (df : list R) :
  Sorted.StronglySorted (fun a b => (col b <= col a)%Q) (sort_values_desc col df).
Proof.
  unfold sort_values_desc.
  apply (StronglySorted_impl (fun a b => Qdesc (col a) (col b) = true)).
  - intros a b. unfold Qdesc. apply Qle_bool_iff.
  - apply sort_StronglySorted; [apply Qdesc_total | apply Qdesc_trans].
Qed.

(** X4.  The category rollup and the regional rollup come out by TotalRevenue,
    largest first; the monthly trend by YearMonth and the quarterly trend by
    year, then quarter, smallest first. *)
Theorem rollups_are_sorted (df : list Row) :
  Sorted.StronglySorted
    (fun a b => (CategoryAnalysis.TotalRevenue b <= CategoryAnalysis.TotalRevenue a)%Q)
    (analyze_high_revenue_categories df)
  /\ Sorted.StronglySorted
       (fun a b => (RegionalAnalysis.TotalRevenue b <= RegionalAnalysis.TotalRevenue a)%Q)
       (generate_regional_analysis df)
  /\ Sorted.Sorted
       (fun a b => String.leb (Trends.YearMonth a) (Trends.YearMonth b) = true)
       (fst (analyze_sales_trends df))
  /\ Sorted.Sorted
       (fun a b =>
          Trends.Year a < Trends.Year b
          \/ (Trends.Year a = Trends.Year b /\ Trends.Quarter a <= Trends.Quarter b))
       (snd (analyze_sales_trends df)).
Proof.
  split; [|split; [|split]].
  - apply sort_values_desc_sorted.
  - apply sort_values_desc_sorted.
  - unfold analyze_sales_trends, sort_values_asc. cbn [fst].
    exact (sort_Sorted
             (fun a b => key_leb (Trends.YearMonth a) (Trends.YearMonth b))
             (fun a b => String.leb_total _ _) _).
  - unfold analyze_sales_trends, sort_values_asc. cbn [snd].
    assert (T : forall a b : Trends.Quarterly,
               key_leb (Trends.Year a, Trends.Quarter a)
                       (Trends.Year b, Trends.Quarter b) = true
               \/ key_leb (Trends.Year b, Trends.Quarter b)
                          (Trends.Year a, Trends.Quarter a) = true).
    { intros a b. simpl.
      destruct (Z.eqb_spec (Trends.Year a) (Trends.Year b)) as [E | N].
      - rewrite E, Z.eqb_refl. rewrite !Z.leb_le. lia.
      - destruct (Z.eqb_spec (Trends.Year b) (Trends.Year a)) as [E' | N'];
          [congruence|]. rewrite !Z.leb_le. lia. }
    apply (Sorted_impl
             (fun a b =>
                key_leb (Trends.Year a, Trends.Quarter a)
                        (Trends.Year b, Trends.Quarter b) = true)).
    + intros a b. simpl.
      destruct (Z.eqb_spec (Trends.Year a) (Trends.Year b)) as [E | N].
      * intros L. apply Z.leb_le in L. right. auto.
      * intros L. apply Z.leb_le in L. left. lia.
    + exact (sort_Sorted
               (fun a b => key_leb (Trends.Year a, Trends.Quarter a)
                                   (Trends.Year b, Trends.Quarter b)) T _).
Qed.

(** ** Best sellers *)

Lemma product_rollup_keys (df : list Row) :
  map (fun r => (BestSellers.ProductID r, BestSellers.ProductName r,
                 BestSellers.Category r)) (product_rollup df)
  = map fst (groupby (fun row => (ProductID row, ProductName row, Category row)) df).
Proof.
  unfold product_rollup. rewrite map_map. apply map_ext.
  intros [[[a b] c] rows]. reflexivity.
Qed.


(** ** Average order value against the other views *)

Lemma calculate_average_order_value_Ok (df : list Row) :
  df <> [] ->
  calculate_average_order_value df
  = Ok {| Overall_AOV := fround2 (mean_order_total df);
          Category_AOV :=
            sort_frame_desc
              {| frame_columns := ["Category"; "AverageOrderValue"];
                 frame_rows :=
                   map (fun g => (fst g, mean_order_total (snd g)))
                       (groupby Category df) |};
          Region_AOV :=
            sort_frame_desc
              {| frame_columns := ["Region"; "AverageOrderValue"];
                 frame_rows :=
                   map (fun g => (fst g, mean_order_total (snd g)))
                       (groupby Region df) |} |}.
Proof.
  intros Hne. unfold calculate_average_order_value.
  rewrite !groupby_apply_reset_index_rows by assumption. reflexivity.
Qed.

Lemma mean_order_total_quotient (df : list Row) :
  df <> [] ->
  exists q,
    mean_order_total df = Some q
    /\ (q == sum (map Revenue df)
             / inject_Z (Z.of_nat (nunique (map OrderID df))))%Q.
Proof.
  intros Hne. unfold mean_order_total, order_totals, mean.
  rewrite map_map. cbn [snd]. rewrite dropna_map_Some.
  pose proof (groupby_nonempty OrderID df Hne) as N.
  pose proof (groupby_sum OrderID Revenue df) as S.
  assert (L : List.length (groupby OrderID df) = nunique (map OrderID df)).
  { unfold groupby, nunique. rewrite length_map.
    apply Permutation_length. apply sort_perm. }
  set (vals := map (fun g => sum (map Revenue (snd g))) (groupby OrderID df)) in *.
  assert (Lv : List.length vals = nunique (map OrderID df))
    by (unfold vals; rewrite length_map; exact L).
  destruct vals as [|v vs] eqn:V.
  { destruct (groupby OrderID df); [congruence | discriminate]. }
  eexists. split; [reflexivity|].
  unfold Qlen. rewrite Lv, S. reflexivity.
Qed.

(** X6.  On a table with at least one row, the mean of the per-order
    revenue totals, which calculate_average_order_value rounds into its
    Overall AOV, is the total revenue divided by the number of distinct
    orders, which calculate_total_sales_revenue rounds into its Average
    Order Value: before the rounding the two views compute the same
    number. *)
Theorem overall_aov_is_revenue_per_order (df : list Row) :
  df <> [] ->
  exists results x,
    calculate_average_order_value df = Ok results
    /\ mean_order_total df = Some x
    /\ Overall_AOV results = Some (round2 x)
    /\ (x == sum (map Revenue df)
             / inject_Z (Z.of_nat (nunique (map OrderID df))))%Q
    /\ Average_Order_Value (calculate_total_sales_revenue df)
       = round2 (sum (map Revenue df)
                 / inject_Z (Z.of_nat (nunique (map OrderID df)))).
Proof.
  intros Hne.
  destruct (mean_order_total_quotient df Hne) as (q & Em & Eq).
  eexists. exists q.
  split; [apply calculate_average_order_value_Ok; assumption|].
  split; [exact Em|]. cbn [Overall_AOV]. rewrite Em.
  split; [reflexivity|]. split; [exact Eq|].
  unfold calculate_total_sales_revenue. cbn [Average_Order_Value].
  assert (P : (1 <= nunique (map OrderID df))%nat).
  { apply nunique_pos. destruct df; [congruence | discriminate]. }
  destruct (0 <? nunique (map OrderID df))%nat eqn:B;
    [reflexivity | apply Nat.ltb_ge in B; lia].
Qed.

(** The two Books orders total 20 and 30: their mean is 25, and so is the
    revenue 50 divided by the 2 orders. *)
Lemma overall_aov_is_revenue_per_order_witness :
  exists results x,
    calculate_average_order_value two_books_cleaned = Ok results
    /\ mean_order_total two_books_cleaned = Some x
    /\ (x == 25)%Q
    /\ (sum (map Revenue two_books_cleaned)
        / inject_Z (Z.of_nat (nunique (map OrderID two_books_cleaned)))
        == 50 / 2)%Q.
Proof.
  assert (Hne : two_books_cleaned <> []) by discriminate.
  destruct (overall_aov_is_revenue_per_order two_books_cleaned Hne)
    as (results & x & E & Em & _ & Eq & _).
  exists results, x. split; [exact E|]. split; [exact Em|].
  split; [rewrite Eq|]; vm_compute; reflexivity.
Defined.

Lemma fdesc_total (a b : string * float) :
  fdesc (snd a) (snd b) = true \/ fdesc (snd b) (snd a) = true.
Proof.
  destruct a as [? [x|]], b as [? [y|]]; simpl; auto.
  destruct (Qlt_le_dec x y) as [L | L].
  - right. apply Qle_bool_iff. apply Qlt_le_weak. assumption.
  - left. apply Qle_bool_iff. assumption.
Qed.

Lemma fdesc_trans (a b c : string * float) :
  fdesc (snd a) (snd b) = true -> fdesc (snd b) (snd c) = true ->
  fdesc (snd a) (snd c) = true.
Proof.
  destruct a as [? [x|]], b as [? [y|]], c as [? [z|]]; simpl; auto;
    try discriminate.
  rewrite !Qle_bool_iff. intros. eapply Qle_trans; eassumption.
Qed.

(** X7.  On a table with at least one row, the category view of
    calculate_average_order_value has, for every row of the category rollup,
    a row of the same category whose value is that row's TotalRevenue
    divided by its OrderCount; the regional view stands in the same relation
    to the regional rollup; and both views are ordered by value, largest
    first, undefined values last. *)
Theorem aov_views_agree_with_the_rollups (df : list Row) :
  df <> [] ->
  exists results,
    calculate_average_order_value df = Ok results
    /\ (forall row,
          In row (analyze_high_revenue_categories df) ->
          exists v,
            In (CategoryAnalysis.Category row, v)
               (frame_rows (Category_AOV results))
            /\ float_eq v
                 (Some (CategoryAnalysis.TotalRevenue row
                        / inject_Z (Z.of_nat (CategoryAnalysis.OrderCount row)))%Q))
    /\ (forall row,
          In row (generate_regional_analysis df) ->
          exists v,
            In (RegionalAnalysis.Region row, v)
               (frame_rows (Region_AOV results))
            /\ float_eq v
                 (Some (RegionalAnalysis.TotalRevenue row
                        / inject_Z (Z.of_nat (RegionalAnalysis.OrderCount row)))%Q))
    /\ Sorted.StronglySorted (fun a b => fdesc (snd a) (snd b) = true)
         (frame_rows (Category_AOV results))
    /\ Sorted.StronglySorted (fun a b => fdesc (snd a) (snd b) = true)
         (frame_rows (Region_AOV results)).
Proof.
  intros Hne. eexists. split; [apply calculate_average_order_value_Ok; assumption|].
  cbn [Category_AOV Region_AOV sort_frame_desc frame_rows].
  assert (V : forall key k,
             In k (map key df) ->
             exists v,
               In (k, v)
                  (sort (fun a b => fdesc (snd a) (snd b))
                     (map (fun g => (fst g, mean_order_total (snd g)))
                          (groupby key df)))
               /\ float_eq v
                    (Some (sum (map Revenue
                                    (filter (fun row => String.eqb (key row) k) df))
                           / inject_Z
                               (Z.of_nat
                                  (nunique
                                     (map OrderID
                                          (filter (fun row => String.eqb (key row) k)
                                                  df)))))%Q)).
  { intros key k Hk.
    destruct (aov_frame_rows key df _
                (sort_perm (fun a b => fdesc (snd a) (snd b))
                   (map (fun g => (fst g, mean_order_total (snd g)))
                        (groupby key df)))) as [F _].
    destruct (F k Hk) as (v & Hin & Hv). exists v. split; [exact Hin|].
    pose proof (mean_of_per_order_sums_quotient key df k Hk) as Q.
    cbv zeta in Q.
    destruct v as [x|], (mean_of_per_order_sums key df k) as [y|];
      simpl in *; try contradiction.
    rewrite Hv. exact Q. }
  split; [|split; [|split]].
  - intros row Hrow.
    unfold analyze_high_revenue_categories, sort_values_desc in Hrow.
    apply (proj1 (sort_In _ _ _)) in Hrow.
    apply in_map_iff in Hrow. destruct Hrow as (g & <- & Hg). cbn.
    destruct (groupby_group Category df g Hg) as (Eg & _ & Hk).
    rewrite Eg. apply (V Category (fst g) Hk).
  - intros row Hrow.
    unfold generate_regional_analysis, sort_values_desc in Hrow.
    apply (proj1 (sort_In _ _ _)) in Hrow.
    apply in_map_iff in Hrow. destruct Hrow as (g & <- & Hg). cbn.
    destruct (groupby_group Region df g Hg) as (Eg & _ & Hk).
    rewrite Eg. apply (V Region (fst g) Hk).
  - apply sort_StronglySorted; [apply fdesc_total | apply fdesc_trans].
  - apply sort_StronglySorted; [apply fdesc_total | apply fdesc_trans].
Qed.

Lemma aov_views_agree_with_the_rollups_witness :
  exists results v,
    calculate_average_order_value two_books_cleaned = Ok results
    /\ In ("Books", v) (frame_rows (Category_AOV results))
    /\ float_eq v (Some (50 / 2)%Q).
Proof.
  assert (Hne : two_books_cleaned <> []) by discriminate.
  destruct (aov_views_agree_with_the_rollups two_books_cleaned Hne)
    as (results & E & C & _).
  assert (R : exists row,
             In row (analyze_high_revenue_categories two_books_cleaned)
             /\ CategoryAnalysis.Category row = "Books"
             /\ CategoryAnalysis.TotalRevenue row = 50%Q
             /\ CategoryAnalysis.OrderCount row = 2%nat).
  { eexists. split; [vm_compute; left; reflexivity|]. repeat split. }
  destruct R as (row & Hrow & Ec & Er & Eo).
  destruct (C row Hrow) as (v & Hin & Hv).
  rewrite Ec in Hin. rewrite Er, Eo in Hv.
  exists results, v. split; [exact E|]. split; [exact Hin|]. exact Hv.
Defined.

(** ** The exports and the complete run *)

(** X8.  export_analysis_results writes the six rollup files in every case
    and then the two AOV files exactly when the table has a row: on the
    empty table it has already written the six files, all without rows,
    when it raises on the AOV view.  run_complete_analysis raises on the
    empty table before anything is written, and on any other table writes
    the eight files and ends with the total metrics of the table. *)
Theorem exports_and_complete_run (df : list Row) (output_dir : string) :
  (df = [] ->
   export_analysis_results df output_dir
   = ([(output_dir ++ "/top_products_by_quantity.csv", ProductTable []);
       (output_dir ++ "/top_products_by_revenue.csv", ProductTable []);
       (output_dir ++ "/category_analysis.csv", CategoryTable []);
       (output_dir ++ "/monthly_trends.csv", MonthlyTable []);
       (output_dir ++ "/quarterly_trends.csv", QuarterlyTable []);
       (output_dir ++ "/regional_analysis.csv", RegionalTable [])],
      Err (ValueError_LengthMismatch 19 2))
   /\ run_complete_analysis df = ([], Err (ValueError_LengthMismatch 19 2)))
  /\ (df <> [] ->
      exists written,
        export_analysis_results df output_dir = (written, Ok tt)
        /\ map fst written
           = [output_dir ++ "/top_products_by_quantity.csv";
              output_dir ++ "/top_products_by_revenue.csv";
              output_dir ++ "/category_analysis.csv";
              output_dir ++ "/monthly_trends.csv";
              output_dir ++ "/quarterly_trends.csv";
              output_dir ++ "/regional_analysis.csv";
              output_dir ++ "/aov_by_category.csv";
              output_dir ++ "/aov_by_region.csv"]
        /\ In (output_dir ++ "/category_analysis.csv",
               CategoryTable (analyze_high_revenue_categories df)) written
        /\ exists written',
             run_complete_analysis df
             = (written', Ok (calculate_total_sales_revenue df))
             /\ List.length written' = 8%nat).
Proof.
  split.
  - intros ->. split; reflexivity.
  - intros Hne.
    pose proof (calculate_average_order_value_Ok df Hne) as E.
    unfold export_analysis_results.
    destruct (find_best_selling_products df 10) as [q r] eqn:B.
    destruct (analyze_sales_trends df) as [m t] eqn:T.
    rewrite E. eexists. split; [reflexivity|].
    split; [reflexivity|]. split; [simpl; auto|].
    unfold run_complete_analysis, export_analysis_results.
    rewrite B, T, E. eexists. split; reflexivity.
Qed.

Lemma exports_and_complete_run_witness :
  exists written,
    run_complete_analysis two_books_cleaned
    = (written, Ok (calculate_total_sales_revenue two_books_cleaned))
    /\ List.length written = 8%nat.
Proof.
  assert (Hne : two_books_cleaned <> []) by discriminate.
  destruct (proj2 (exports_and_complete_run two_books_cleaned "out") Hne)
    as (_ & _ & _ & _ & written & E & L).
  exists written. split; assumption.
Defined.

(** * Further properties of the cleaning stage *)

(** ** How far a price can lie from the mean of its category *)

Lemma Qsum_deviations (t : Q) (l : list Q) :
  (Qsum (map (fun x => x - t) l) == Qsum l - Qlen l * t)%Q.
Proof.
  unfold Qlen. induction l as [|x l IH].
  - simpl. ring.
  - change (List.length (x :: l)) with (S (List.length l)).
    rewrite Nat2Z.inj_succ. unfold Z.succ. rewrite inject_Z_plus.
    cbn [map Qsum]. rewrite IH. change (inject_Z 1) with 1%Q. ring.
Qed.

Lemma Qsum_shifted_squares (t : Q) (l : list Q) :
  (Qsum (map (fun x => (x - t) * (x - t)) l)
   == Qsum (map (fun x => x * x) l) - 2 * t * Qsum l + Qlen l * t * t)%Q.
Proof.
  unfold Qlen. induction l as [|x l IH].
  - simpl. ring.
  - change (List.length (x :: l)) with (S (List.length l)).
    rewrite Nat2Z.inj_succ. unfold Z.succ. rewrite inject_Z_plus.
    cbn [map Qsum]. rewrite IH. change (inject_Z 1) with 1%Q. ring.
Qed.

Lemma Qlen_nonneg (l : list Q) : (0 <= Qlen l)%Q.
Proof.
  unfold Qlen. rewrite <- (Zle_Qle 0). lia.
Qed.

Lemma Qlen_cons (x : Q) (l : list Q) : (Qlen (x :: l) == Qlen l + 1)%Q.
Proof.
  unfold Qlen. change (List.length (x :: l)) with (S (List.length l)).
  rewrite Nat2Z.inj_succ. unfold Z.succ. rewrite inject_Z_plus. reflexivity.
Qed.

(** The square of a sum is at most the count times the sum of the squares. *)
Lemma square_of_sum (l : list Q) :
  (Qsum l * Qsum l <= Qlen l * Qsum (map (fun x => x * x) l))%Q.
Proof.
  destruct l as [|a r]; [simpl; Lqa.lra|].
  set (l := a :: r).
  assert (K : (0 < Qlen l)%Q).
  { unfold l. rewrite Qlen_cons. pose proof (Qlen_nonneg r). Lqa.lra. }
  pose proof (Qsum_squares_nonneg (Qsum l / Qlen l) l) as N.
  rewrite Qsum_shifted_squares in N.
  set (S := Qsum l) in *.
  set (SQ := Qsum (map (fun x => (x * x)%Q) l)) in *.
  set (k := Qlen l) in *.
  assert (E : (k * (SQ - 2 * (S / k) * S + k * (S / k) * (S / k))
               == k * SQ - S * S)%Q) by (field; Lqa.lra).
  assert (P : (0 <= k * (SQ - 2 * (S / k) * S + k * (S / k) * (S / k)))%Q)
    by (apply Qmult_le_0_compat; Lqa.lra).
  rewrite E in P. Lqa.lra.
Qed.

(** Among n values with mean m, n times the square of the deviation of one
    value from m is at most n - 1 times the sum of the squares of all the
    deviations. *)
Lemma deviation_bound (vs : list Q) (p : Q) :
  In p vs ->
  let m := (Qsum vs / Qlen vs)%Q in
  (Qlen vs * ((p - m) * (p - m))
   <= (Qlen vs - 1) * Qsum (map (fun x => (x - m) * (x - m)) vs))%Q.
Proof.
  intros Hin m.
  destruct (in_split _ _ Hin) as (l1 & l2 & E).
  assert (P : Permutation vs (p :: l1 ++ l2)).
  { rewrite E. symmetry. apply Permutation_middle. }
  set (rest := (l1 ++ l2)%list) in *.
  assert (Ln : (Qlen vs == Qlen rest + 1)%Q).
  { unfold Qlen at 1. rewrite (Permutation_length P).
    fold (Qlen (p :: rest)). apply Qlen_cons. }
  pose proof (Qlen_nonneg rest) as Lr.
  assert (Z0 : (Qsum (map (fun x => x - m) vs) == 0)%Q).
  { rewrite Qsum_deviations. unfold m. field. Lqa.lra. }
  rewrite (Qsum_perm _ _ (Permutation_map (fun x => (x - m)%Q) P)) in Z0.
  cbn [map Qsum] in Z0.
  rewrite (Qsum_perm _ _ (Permutation_map (fun x => ((x - m) * (x - m))%Q) P)).
  cbn [map Qsum].
  pose proof (square_of_sum (map (fun x => (x - m)%Q) rest)) as C.
  rewrite map_map in C. unfold Qlen at 1 in C. rewrite length_map in C.
  fold (Qlen rest) in C.
  set (R := Qsum (map (fun x => ((x - m) * (x - m))%Q) rest)) in *.
  set (T := Qsum (map (fun x => (x - m)%Q) rest)) in *.
  set (d := (p - m)%Q) in *.
  assert (ET : (T * T == d * d)%Q).
  { assert (T == - d)%Q by Lqa.lra. rewrite H. ring. }
  rewrite ET in C. rewrite Ln.
  setoid_replace ((Qlen rest + 1) * (d * d))%Q
    with (Qlen rest * (d * d) + d * d)%Q by ring.
  setoid_replace ((Qlen rest + 1 - 1) * (d * d + R))%Q
    with (Qlen rest * (d * d) + Qlen rest * R)%Q by ring.
  Lqa.lra.
Qed.

(** The mean and the standard deviation of a column, when both are
    defined, in terms of its values that are present. *)
Lemma mean_std_values (xs : list float) (m v : Q) :
  mean xs = Some m -> std xs = Some (Sqrt v) ->
  let vs := dropna xs in
  (2 <= List.length vs)%nat
  /\ m = (Qsum vs / Qlen vs)%Q
  /\ v = (Qsum (map (fun x => (x - m) * (x - m)) vs) / (Qlen vs - 1))%Q.
Proof.
  intros Hm Hv vs. subst vs. unfold mean in Hm. unfold std, var in Hv.
  destruct (dropna xs) as [|a [|b l]]; try discriminate.
  injection Hm as <-. simpl in Hv. injection Hv as <-.
  split; [simpl; lia|]. split; reflexivity.
Qed.

Lemma In_dropna (xs : list float) (x : Q) : In (Some x) xs -> In x (dropna xs).
Proof.
  induction xs as [|[y|] xs IH]; simpl; [tauto| |].
  - intros [E | H]; [left; congruence | right; auto].
  - intros [E | H]; [discriminate | auto].
Qed.

Lemma dropna_In (xs : list float) (x : Q) : In x (dropna xs) -> In (Some x) xs.
Proof.
  induction xs as [|[y|] xs IH]; simpl; [tauto| |].
  - intros [E | H]; [left; congruence | right; auto].
  - intros H. right. auto.
Qed.

(** What it takes for a row to be a price outlier of its frame. *)
Lemma is_price_outlier_true (df : list Row) (row : Row) :
  is_price_outlier df row = true ->
  exists p m v,
    Price row = Some p
    /\ mean (map Price (category_rows (Category row) df)) = Some m
    /\ std (map Price (category_rows (Category row) df)) = Some (Sqrt v)
    /\ (9 * v < (p - m) * (p - m))%Q.
Proof.
  unfold is_price_outlier, gt_upper, lt_lower.
  destruct (Price row) as [p|]; [|discriminate].
  destruct (mean (map Price (category_rows (Category row) df))) as [m|];
    [|discriminate].
  destruct (std (map Price (category_rows (Category row) df))) as [[v]|];
    [|discriminate].
  intros H. exists p, m, v. repeat split.
  apply orb_true_iff in H. destruct H as [H | H];
    apply andb_true_iff in H; destruct H as [_ H]; apply Qltb_lt in H.
  - exact H.
  - setoid_replace ((p - m) * (p - m))%Q with ((m - p) * (m - p))%Q by ring.
    exact H.
Qed.

(** With at most ten values, none lies more than three standard deviations
    from the mean. *)
Lemma three_sigma_needs_eleven (vs : list Q) (p : Q) :
  In p vs ->
  (2 <= List.length vs <= 10)%nat ->
  let m := (Qsum vs / Qlen vs)%Q in
  let v := (Qsum (map (fun x => (x - m) * (x - m)) vs) / (Qlen vs - 1))%Q in
  ~ (9 * v < (p - m) * (p - m))%Q.
Proof.
  intros Hin [L2 L10] m v H.
  pose proof (deviation_bound vs p Hin) as B. cbv zeta in B. fold m in B.
  pose proof (Qsum_squares_nonneg m vs) as N.
  set (SS := Qsum (map (fun x => ((x - m) * (x - m))%Q) vs)) in *.
  set (d2 := ((p - m) * (p - m))%Q) in *.
  assert (n2 : (2 <= Qlen vs)%Q).
  { unfold Qlen. rewrite <- (Zle_Qle 2). lia. }
  assert (n10 : (Qlen vs <= 10)%Q).
  { unfold Qlen. rewrite <- (Zle_Qle _ 10). lia. }
  set (n := Qlen vs) in *.
  assert (Ev : (SS == (n - 1) * v)%Q) by (unfold v; field; Lqa.lra).
  assert (V0 : (0 <= v)%Q).
  { unfold v. apply Qle_shift_div_l; Lqa.lra. }
  assert (A : (n * (9 * v) < n * d2)%Q) by (apply Qmult_lt_l; Lqa.lra).
  rewrite Ev in B.
  assert (Cn : ((n - 1) * (n - 1) <= 9 * n)%Q).
  { assert (0 <= (n - 2) * (10 - n))%Q by (apply Qmult_le_0_compat; Lqa.lra).
    Lqa.lra. }
  assert (D : ((n - 1) * (n - 1) * v <= 9 * n * v)%Q)
    by (apply Qmult_le_compat_r; assumption).
  Lqa.lra.
Qed.

Lemma is_price_outlier_needs_eleven (df : list Row) (row : Row) :
  In row df ->
  (List.length (category_rows (Category row) df) <= 10)%nat ->
  is_price_outlier df row = false.
Proof.
  intros Hrow L.
  destruct (is_price_outlier df row) eqn:O; [|reflexivity]. exfalso.
  destruct (is_price_outlier_true df row O) as (p & m & v & Ep & Em & Es & H).
  set (prices := map Price (category_rows (Category row) df)) in *.
  destruct (mean_std_values prices m v Em Es) as (L2 & Hm & Hv).
  assert (Hp : In p (dropna prices)).
  { apply In_dropna. rewrite <- Ep. unfold prices. apply in_map.
    apply filter_In. split; [assumption | apply String.eqb_refl]. }
  assert (L10 : (List.length (dropna prices) <= 10)%nat).
  { pose proof (dropna_length prices) as D. unfold prices in D at 2.
    rewrite length_map in D. lia. }
  apply (three_sigma_needs_eleven (dropna prices) p Hp (conj L2 L10)).
  cbv zeta. rewrite <- Hm, <- Hv. exact H.
Qed.

(** X9.  A category with at most ten rows in the frame that reaches the
    outlier filter loses no row to it: among n <= 10 prices none can lie
    more than three sample standard deviations from their mean. *)
Theorem ten_rows_are_never_trimmed (df : list Row) (category : string) :
  (List.length (category_rows category df) <= 10)%nat ->
  category_rows category (remove_outliers df) = category_rows category df.
Proof.
  intros H. rewrite remove_outliers_filter. unfold category_rows at 1.
  rewrite filter_comm. fold (category_rows category df).
  apply filter_all. intros row Hrow.
  apply filter_In in Hrow. destruct Hrow as [Hin Hk]. apply String.eqb_eq in Hk.
  rewrite is_price_outlier_needs_eleven; [reflexivity | assumption|].
  rewrite Hk. assumption.
Qed.

Lemma ten_rows_are_never_trimmed_witness :
  map Price (category_rows "Books" (remove_outliers four_tens_and_a_thousand))
  = [Some 10%Q; Some 10%Q; Some 10%Q; Some 10%Q; Some 1000%Q].
Proof.
  rewrite (ten_rows_are_never_trimmed four_tens_and_a_thousand "Books").
  - reflexivity.
  - vm_compute. lia.
Defined.

Lemma Qsum_above_le (f : Q -> Q) (c : Q) (l : list Q) :
  (forall x, In x l -> (c < f x)%Q) ->
  (Qlen l * c <= Qsum (map f l))%Q.
Proof.
  induction l as [|x l IH]; intros H.
  - unfold Qlen. cbn [List.length Z.of_nat map Qsum].
    change (inject_Z 0) with 0%Q. Lqa.lra.
  - rewrite Qlen_cons. cbn [map Qsum].
    assert (Hx : (c < f x)%Q) by (apply H; left; reflexivity).
    assert (I : (Qlen l * c <= Qsum (map f l))%Q)
      by (apply IH; intros z Hz; apply H; right; assumption).
    Lqa.lra.
Qed.

Lemma Qsum_above (f : Q -> Q) (c : Q) (l : list Q) :
  l <> [] ->
  (forall x, In x l -> (c < f x)%Q) ->
  (Qlen l * c < Qsum (map f l))%Q.
Proof.
  destruct l as [|x l]; [congruence|]. intros _ H.
  rewrite Qlen_cons. cbn [map Qsum].
  assert (Hx : (c < f x)%Q) by (apply H; left; reflexivity).
  assert (I : (Qlen l * c <= Qsum (map f l))%Q)
    by (apply Qsum_above_le; intros z Hz; apply H; right; assumption).
  Lqa.lra.
Qed.

(** The values of a column cannot all lie more than three standard
    deviations from their mean. *)
Lemma three_sigma_spares_one (vs : list Q) :
  (2 <= List.length vs)%nat ->
  let m := (Qsum vs / Qlen vs)%Q in
  let v := (Qsum (map (fun x => (x - m) * (x - m)) vs) / (Qlen vs - 1))%Q in
  ~ (forall x, In x vs -> (9 * v < (x - m) * (x - m))%Q).
Proof.
  intros L2 m v H.
  pose proof (Qsum_squares_nonneg m vs) as N.
  assert (Hne : vs <> []) by (destruct vs; simpl in L2; [lia | discriminate]).
  pose proof (Qsum_above (fun x => ((x - m) * (x - m))%Q) (9 * v)%Q vs Hne H) as A.
  set (SS := Qsum (map (fun x => ((x - m) * (x - m))%Q) vs)) in *.
  assert (n2 : (2 <= Qlen vs)%Q).
  { unfold Qlen. rewrite <- (Zle_Qle 2). lia. }
  set (n := Qlen vs) in *.
  assert (Ev : (SS == (n - 1) * v)%Q) by (unfold v; field; Lqa.lra).
  assert (V0 : (0 <= v)%Q).
  { unfold v. apply Qle_shift_div_l; Lqa.lra. }
  assert (P : (0 <= (8 * n + 1) * v)%Q) by (apply Qmult_le_0_compat; Lqa.lra).
  rewrite Ev in A. Lqa.lra.
Qed.

(** X10.  The outlier filter never removes a category: a category that has
    a row in the frame that reaches the filter has a row in the frame that
    leaves it. *)
Theorem outlier_filter_keeps_every_category (df : list Row) (category : string) :
  category_rows category df <> [] ->
  category_rows category (remove_outliers df) <> [].
Proof.
  intros Hne E.
  rewrite remove_outliers_filter in E. unfold category_rows at 1 in E.
  rewrite filter_comm in E. fold (category_rows category df) in E.
  set (own := category_rows category df) in *.
  assert (O : forall row, In row own -> is_price_outlier df row = true).
  { intros row Hrow. destruct (is_price_outlier df row) eqn:B; [reflexivity|].
    assert (Hin : In row (filter (fun r => negb (is_price_outlier df r)) own))
      by (apply filter_In; rewrite B; auto).
    rewrite E in Hin. destruct Hin. }
  assert (C : forall row, In row own -> Category row = category).
  { intros row Hrow. apply filter_In in Hrow. apply String.eqb_eq. tauto. }
  destruct own as [|row0 rest] eqn:Eo; [congruence|].
  assert (H0 : In row0 (row0 :: rest)) by (left; reflexivity).
  destruct (is_price_outlier_true df row0 (O row0 H0))
    as (p0 & m & v & _ & Em & Es & _).
  rewrite (C row0 H0) in Em, Es. fold (category_rows category df) in Em, Es.
  unfold own in Eo. rewrite Eo in Em, Es.
  destruct (mean_std_values _ m v Em Es) as (L2 & Hm & Hv).
  apply (three_sigma_spares_one (dropna (map Price (row0 :: rest))) L2).
  cbv zeta. rewrite <- Hm, <- Hv. intros x Hx.
  apply dropna_In in Hx. apply in_map_iff in Hx.
  destruct Hx as (row & Ep & Hrow).
  destruct (is_price_outlier_true df row (O row Hrow))
    as (p' & m' & v' & Ep' & Em' & Es' & H).
  rewrite (C row Hrow) in Em', Es'. rewrite Eo in Em', Es'.
  assert (p' = x) by congruence. assert (m' = m) by congruence.
  assert (v' = v) by congruence. subst. exact H.
Qed.

Lemma outlier_filter_keeps_every_category_witness :
  category_rows "Books" (remove_outliers books_with_outlier) <> [].
Proof.
  apply outlier_filter_keeps_every_category. vm_compute. discriminate.
Defined.

(** ** De-duplication *)

Lemma ForallOrdPairs_filter {A} (R : A -> A -> Prop) (p : A -> bool) (l : list A) :
  ForallOrdPairs R l -> ForallOrdPairs R (filter p l).
Proof.
  induction 1 as [|x l F P IH]; simpl; [constructor|].
  destruct (p x); [|assumption].
  constructor; [|assumption].
  apply Forall_forall. intros y Hy. apply filter_In in Hy.
  rewrite Forall_forall in F. apply F. tauto.
Qed.

Lemma dedup_pairwise {A} (eqb : A -> A -> bool) (l : list A) :
  ForallOrdPairs (fun a b => eqb a b = false) (dedup eqb l).
Proof.
  induction l as [|x l IH]; simpl; constructor.
  - apply Forall_forall. intros y Hy. apply filter_In in Hy.
    destruct Hy as [_ Hy]. apply negb_true_iff. exact Hy.
  - apply ForallOrdPairs_filter. exact IH.
Qed.

Lemma dedup_fixed {A} (eqb : A -> A -> bool) (l : list A) :
  ForallOrdPairs (fun a b => eqb a b = false) l -> dedup eqb l = l.
Proof.
  induction 1 as [|x l F P IH]; simpl; [reflexivity|].
  rewrite IH. f_equal. apply filter_all. intros y Hy.
  rewrite Forall_forall in F. rewrite (F y Hy). reflexivity.
Qed.

Lemma dedup_covers {A} (eqb : A -> A -> bool) (l : list A) (x : A) :
  (forall a, eqb a a = true) ->
  (forall a b c, eqb a b = true -> eqb b c = true -> eqb a c = true) ->
  In x l -> exists y, In y (dedup eqb l) /\ eqb y x = true.
Proof.
  intros Hrefl Htrans. induction l as [|a l IH]; simpl; [tauto|].
  intros [E | H].
  - subst. exists x. auto.
  - destruct (IH H) as (y & Hy & Eyx).
    destruct (eqb a y) eqn:Eay.
    + exists a. split; [auto|]. apply (Htrans a y x); assumption.
    + exists y. split; [|assumption]. right. apply filter_In.
      rewrite Eay. auto.
Qed.

Lemma float_eqb_refl (x : float) : float_eqb x x = true.
Proof.
  destruct x as [q|]; simpl; [|reflexivity]. apply Qeq_bool_iff. reflexivity.
Qed.

Lemma float_eqb_trans (x y z : float) :
  float_eqb x y = true -> float_eqb y z = true -> float_eqb x z = true.
Proof.
  destruct x, y, z; simpl; try discriminate; auto.
  rewrite !Qeq_bool_iff. intros. etransitivity; eassumption.
Qed.

Lemma Timestamp_eqb_refl (t : Timestamp) : Timestamp_eqb t t = true.
Proof.
  unfold Timestamp_eqb. rewrite !Z.eqb_refl. reflexivity.
Qed.

Lemma Timestamp_eqb_trans (a b c : Timestamp) :
  Timestamp_eqb a b = true -> Timestamp_eqb b c = true ->
  Timestamp_eqb a c = true.
Proof.
  unfold Timestamp_eqb. rewrite !andb_true_iff, !Z.eqb_eq.
  intros [[[-> ->] ->] ->] [[[-> ->] ->] ->]. auto.
Qed.

Lemma str_eqb_refl (x : option string) : Raw.str_eqb x x = true.
Proof.
  destruct x; simpl; [apply String.eqb_refl | reflexivity].
Qed.

Lemma str_eqb_trans (x y z : option string) :
  Raw.str_eqb x y = true -> Raw.str_eqb y z = true -> Raw.str_eqb x z = true.
Proof.
  destruct x, y, z; simpl; try discriminate; auto.
  rewrite !String.eqb_eq. congruence.
Qed.

Lemma String_eqb_trans (x y z : string) :
  String.eqb x y = true -> String.eqb y z = true -> String.eqb x z = true.
Proof.
  rewrite !String.eqb_eq. congruence.
Qed.

Lemma Raw_eqb_refl (a : Raw.Row) : Raw.eqb a a = true.
Proof.
  unfold Raw.eqb.
  rewrite !String.eqb_refl, !float_eqb_refl, Timestamp_eqb_refl, str_eqb_refl.
  reflexivity.
Qed.

Lemma Raw_eqb_trans (a b c : Raw.Row) :
  Raw.eqb a b = true -> Raw.eqb b c = true -> Raw.eqb a c = true.
Proof.
  unfold Raw.eqb. rewrite !andb_true_iff.
  intros (((((((((A1 & A2) & A3) & A4) & A5) & A6) & A7) & A8) & A9) & A10)
         (((((((((B1 & B2) & B3) & B4) & B5) & B6) & B7) & B8) & B9) & B10).
  repeat split;
    eauto using String_eqb_trans, float_eqb_trans, Timestamp_eqb_trans,
      str_eqb_trans.
Qed.

(** X11.  Step 1 keeps rows of the frame only, keeps no two rows that agree
    on all columns (a missing value agreeing with a missing value), keeps
    for every row of the frame a row that agrees with it on all columns,
    changes nothing when applied a second time, and changes nothing at all
    on a frame without duplicates. *)
Theorem drop_duplicates_removes_exactly_the_duplicates (df : list Raw.Row) :
  (forall row, In row (drop_duplicates df) -> In row df)
  /\ ForallOrdPairs (fun a b => Raw.eqb a b = false) (drop_duplicates df)
  /\ (forall row,
        In row df ->
        exists kept, In kept (drop_duplicates df) /\ Raw.eqb kept row = true)
  /\ drop_duplicates (drop_duplicates df) = drop_duplicates df
  /\ (ForallOrdPairs (fun a b => Raw.eqb a b = false) df ->
      drop_duplicates df = df).
Proof.
  unfold drop_duplicates. split; [|split; [|split; [|split]]].
  - intros row. apply dedup_In.
  - apply dedup_pairwise.
  - intros row. apply dedup_covers; [apply Raw_eqb_refl | apply Raw_eqb_trans].
  - apply dedup_fixed. apply dedup_pairwise.
  - apply dedup_fixed.
Qed.

(** ** What is left missing after step 2 *)

Lemma median_None (xs : list float) : median xs = None <-> dropna xs = [].
Proof.
  unfold median.
  rewrite (Permutation_length (sort_perm Qle_bool (dropna xs))).
  destruct (dropna xs) as [|q l]; [simpl; tauto|].
  split; [|intros E; discriminate E].
  destruct (List.length (q :: l)) as [|n] eqn:L; [discriminate L|].
  destruct (Nat.even (S n)); intros E; discriminate E.
Qed.

Lemma dropna_nil (xs : list float) :
  dropna xs = [] <-> forall x, In x xs -> x = None.
Proof.
  split; [|apply dropna_all_missing].
  induction xs as [|[q|] xs IH]; simpl; [tauto | intros E; discriminate E|].
  intros E x [<- | H]; auto.
Qed.

(** X12.  In the frame that step 2 returns no quantity and no region is
    missing; a price is missing exactly when every price of the row's
    category was missing in the frame step 2 was given; and a revenue is
    missing exactly when the price is. *)
Theorem what_imputation_leaves_missing (df filled : list Raw.Row) :
  handle_missing_values df = Ok filled ->
  forall row,
    In row filled ->
    Raw.Quantity row <> None
    /\ Raw.Region row <> None
    /\ (Raw.Price row = None
        <-> forall other,
              In other df ->
              Raw.Category other = Raw.Category row ->
              Raw.Price other = None)
    /\ (Raw.Revenue row = None <-> Raw.Price row = None).
Proof.
  intros E. rewrite handle_missing_values_map in E. injection E as <-.
  intros row' Hrow'. apply in_map_iff in Hrow'.
  destruct Hrow' as (row & <- & Hrow). unfold imputed; simpl.
  split; [discriminate|]. split; [discriminate|]. split.
  - unfold filled_price. destruct (Raw.Price row) as [p|] eqn:P.
    + split; [discriminate|]. intros H.
      rewrite <- P. apply (H row Hrow). reflexivity.
    + unfold category_median. rewrite median_None, dropna_nil. split.
      * intros H other Hother Hc. apply H. apply in_map.
        apply filter_In. split; [assumption|]. apply String.eqb_eq. assumption.
      * intros H x Hx. apply in_map_iff in Hx.
        destruct Hx as (other & <- & Ho). apply filter_In in Ho.
        destruct Ho as [Ho Hc]. apply String.eqb_eq in Hc. auto.
  - destruct (filled_price df row); simpl; split; auto; discriminate.
Qed.

(** Of the two Toys & Games lines without a price and the Books line at
    30, step 2 leaves the first without a price and without a revenue, and
    the Books line with both. *)
Lemma what_imputation_leaves_missing_witness :
  exists filled toys books,
    handle_missing_values toys_without_prices = Ok filled
    /\ nth_error filled 0 = Some toys
    /\ nth_error filled 1 = Some books
    /\ Raw.Price toys = None /\ Raw.Revenue toys = None
    /\ Raw.Price books <> None /\ Raw.Revenue books <> None
    /\ Raw.Quantity toys <> None /\ Raw.Region toys <> None.
Proof.
  assert (R : exists filled toys books,
             handle_missing_values toys_without_prices = Ok filled
             /\ nth_error filled 0 = Some toys
             /\ nth_error filled 1 = Some books
             /\ Raw.Category toys = "Toys & Games"
             /\ Raw.Price books = Some 30%Q).
  { eexists. eexists. eexists. split; [vm_compute; reflexivity|].
    split; [reflexivity|]. split; [reflexivity|]. split; reflexivity. }
  destruct R as (filled & toys & books & E & Ht & Hb & Ct & Pb).
  pose proof (what_imputation_leaves_missing toys_without_prices filled E)
    as W.
  destruct (W toys (nth_error_In _ _ Ht)) as (Qt & Gt & Pt & Rt).
  destruct (W books (nth_error_In _ _ Hb)) as (_ & _ & _ & Rb').
  assert (Nt : Raw.Price toys = None).
  { apply Pt. intros other Hother Hc. rewrite Ct in Hc.
    destruct Hother as [<- | [<- | [<- | []]]];
      [reflexivity | discriminate Hc | reflexivity]. }
  exists filled, toys, books.
  split; [exact E|]. split; [exact Ht|]. split; [exact Hb|].
  split; [exact Nt|]. split; [apply Rt; exact Nt|].
  split; [rewrite Pb; discriminate|].
  split; [intros N; apply Rb' in N; rewrite Pb in N; discriminate N|].
  split; assumption.
Defined.

(** ** Profit in the cleaned table *)

Lemma profit_margin_range (category : string) (m : Q) :
  getitem profit_margins category = Some m -> (1 # 5 <= m /\ m <= 2 # 5)%Q.
Proof.
  unfold profit_margins. cbn [getitem key_eqb Key_string].
  repeat match goal with
         | |- (if String.eqb ?a ?b then _ else _) = _ -> _ =>
             destruct (String.eqb a b);
             [intros E; injection E as <-; split; Lqa.lra|]
         end.
  intros E. discriminate E.
Qed.

Lemma Qsum_map_scale {A} (c : Q) (f : A -> Q) (l : list A) :
  (Qsum (map (fun x => c * f x) l) == c * Qsum (map f l))%Q.
Proof.
  induction l as [|x l IH]; simpl; [ring|]. rewrite IH. ring.
Qed.

(** X13.  In the result of a cleaning run, TotalSales is the revenue and
    ProfitMargin is the entry of the margin table for the category on every
    row; where the category has a margin, the profit is revenue times
    margin and lies between a fifth and two fifths of the revenue.  If
    every category of the result has a margin, the sum of the Profit column
    lies between a fifth and two fifths of the sum of the Revenue column;
    and the Total Sales of the total-metrics view equal its Total
    Revenue. *)
Theorem profit_is_a_share_of_revenue (current_date : Timestamp)
    (df : list Raw.Row) (t : list Row) :
  clean_ecommerce_data current_date df = Ok t ->
  (forall row,
     In row t ->
     TotalSales row = Revenue row
     /\ ProfitMargin row = getitem profit_margins (Category row)
     /\ forall m,
          ProfitMargin row = Some m ->
          exists rev,
            Revenue row = Some rev
            /\ Profit row = Some (rev * m)%Q
            /\ (rev * (1 # 5) <= rev * m)%Q
            /\ (rev * m <= rev * (2 # 5))%Q)
  /\ ((forall row, In row t -> ProfitMargin row <> NaN) ->
      (sum (map Revenue t) * (1 # 5) <= sum (map Profit t))%Q
      /\ (sum (map Profit t) <= sum (map Revenue t) * (2 # 5))%Q)
  /\ Total_Sales (calculate_total_sales_revenue t)
     = Total_Revenue (calculate_total_sales_revenue t).
Proof.
  intros E.
  assert (R : forall row,
             In row t ->
             TotalSales row = Revenue row
             /\ ProfitMargin row = getitem profit_margins (Category row)
             /\ forall m,
                  ProfitMargin row = Some m ->
                  exists rev,
                    Revenue row = Some rev
                    /\ Profit row = Some (rev * m)%Q
                    /\ (rev * (1 # 5) <= rev * m)%Q
                    /\ (rev * m <= rev * (2 # 5))%Q).
  { intros row Hrow.
    destruct (cleaned_row_facts _ _ _ _ E Hrow)
      as (p & rev & _ & Er & _ & _ & Lr & _).
    destruct (cleaned_In _ _ _ _ E Hrow) as (raw & _ & Eq & _).
    assert (T : TotalSales row = Revenue row) by (rewrite Eq; reflexivity).
    assert (M : ProfitMargin row = getitem profit_margins (Category row))
      by (rewrite Eq; reflexivity).
    assert (P : Profit row = fmul (Revenue row) (ProfitMargin row))
      by (rewrite Eq; reflexivity).
    split; [exact T|]. split; [exact M|].
    intros m Hm. exists rev. split; [exact Er|].
    rewrite P, Er, Hm. split; [reflexivity|].
    rewrite M in Hm. destruct (profit_margin_range _ _ Hm) as [L U].
    split; apply Qmult_le_l; assumption. }
  split; [exact R|]. split.
  - intros K. rewrite !sum_nan_to_zero, !map_map.
    rewrite !(Qmult_comm (Qsum _)). rewrite <- !Qsum_map_scale.
    split; apply Qsum_map_le; intros row Hrow;
      destruct (R row Hrow) as (_ & _ & F);
      destruct (ProfitMargin row) as [m|] eqn:Em;
      try (exfalso; apply (K row Hrow); exact Em);
      destruct (F m eq_refl) as (rev & Er & Ep & L & U);
      rewrite Er, Ep; simpl; Lqa.lra.
  - unfold calculate_total_sales_revenue. cbn [Total_Sales Total_Revenue].
    f_equal. f_equal. apply map_ext_in. intros row Hrow.
    apply (R row Hrow).
Qed.

Lemma profit_is_a_share_of_revenue_witness :
  (sum (map Revenue two_books_cleaned) * (1 # 5)
   <= sum (map Profit two_books_cleaned))%Q
  /\ (sum (map Profit two_books_cleaned)
      <= sum (map Revenue two_books_cleaned) * (2 # 5))%Q.
Proof.
  assert (E : clean_ecommerce_data run_date two_books = Ok two_books_cleaned)
    by (vm_compute; reflexivity).
  apply (proj1 (proj2 (profit_is_a_share_of_revenue run_date two_books
                         two_books_cleaned E))).
  intros row [<- | [<- | []]]; discriminate.
Defined.

(** ** The run as a whole *)

(** X14.  A table returned by a cleaning run has at most as many rows as
    the raw table, and every row of it carries the order, product and
    customer identifiers, the product name, the category and the order date
    of one raw row, with Year, Month and DaysSinceOrder derived from that
    date and from the date of the run. *)
Theorem cleaned_rows_come_from_raw_rows (current_date : Timestamp)
    (df : list Raw.Row) (t : list Row) :
  clean_ecommerce_data current_date df = Ok t ->
  (List.length t <= List.length df)%nat
  /\ forall row,
       In row t ->
       exists raw,
         In raw df
         /\ OrderID row = Raw.OrderID raw
         /\ ProductID row = Raw.ProductID raw
         /\ ProductName row = Raw.ProductName raw
         /\ Category row = Raw.Category raw
         /\ CustomerID row = Raw.CustomerID raw
         /\ OrderDate row = Raw.OrderDate raw
         /\ Year row = year (Raw.OrderDate raw)
         /\ Month row = month (Raw.OrderDate raw)
         /\ DaysSinceOrder row
            = timedelta_days current_date (Raw.OrderDate raw).
Proof.
  intros E. split.
  - rewrite clean_ecommerce_data_rows in E. injection E as <-.
    rewrite remove_outliers_filter.
    etransitivity; [apply filter_length_le'|].
    etransitivity; [apply filter_length_le'|].
    rewrite length_map. apply dedup_length.
  - intros row Hrow.
    destruct (cleaned_In _ _ _ _ E Hrow) as (raw & Hraw & -> & _).
    exists raw. split; [apply drop_duplicates_In; assumption|].
    repeat split.
Qed.

(** The run of 1 January 2025 on the two Books orders of 15 March 2024
    returns two rows, the first of the order O1 and 292 days old. *)
Lemma cleaned_rows_come_from_raw_rows_witness :
  exists t row raw,
    clean_ecommerce_data run_date two_books = Ok t
    /\ (List.length t <= 2)%nat
    /\ nth_error t 0 = Some row
    /\ In raw two_books
    /\ OrderID row = Raw.OrderID raw
    /\ OrderID row = "O1"
    /\ Year row = 2024 /\ Month row = 3
    /\ DaysSinceOrder row = 292.
Proof.
  assert (R : exists t row,
             clean_ecommerce_data run_date two_books = Ok t
             /\ nth_error t 0 = Some row
             /\ OrderID row = "O1"
             /\ Year row = 2024 /\ Month row = 3
             /\ DaysSinceOrder row = 292).
  { eexists. eexists. split; [vm_compute; reflexivity|].
    split; [reflexivity|]. repeat split. }
  destruct R as (t & row & E & Hrow & Eo & Ey & Em & Ed).
  destruct (cleaned_rows_come_from_raw_rows run_date two_books t E)
    as (L & P).
  destruct (P row (nth_error_In _ _ Hrow)) as (raw & Hraw & Eraw & _).
  exists t, row, raw.
  split; [exact E|]. split; [exact L|]. split; [exact Hrow|].
  split; [exact Hraw|]. split; [exact Eraw|].
  repeat split; assumption.
Defined.

(** ** The range of a revenue percentage *)

Lemma round_half_even_between (lo hi : Z) (y : Q) :
  (inject_Z lo <= y)%Q -> (y <= inject_Z hi)%Q ->
  lo <= round_half_even y <= hi.
Proof.
  intros L U. pose proof (round_half_even_close y) as C.
  apply Qabs_Qle_condition in C. destruct C as [C1 C2].
  split.
  - assert (H : (inject_Z (lo - 1) < inject_Z (round_half_even y))%Q).
    { unfold Z.sub. rewrite inject_Z_plus, inject_Z_opp.
      change (inject_Z 1) with 1%Q. Lqa.lra. }
    rewrite <- Zlt_Qlt in H. lia.
  - assert (H : (inject_Z (round_half_even y) < inject_Z (hi + 1))%Q).
    { rewrite inject_Z_plus. change (inject_Z 1) with 1%Q. Lqa.lra. }
    rewrite <- Zlt_Qlt in H. lia.
Qed.

Lemma round2_percentage (x : Q) :
  (0 <= x)%Q -> (x <= 100)%Q -> (0 <= round2 x /\ round2 x <= 100)%Q.
Proof.
  intros L U. unfold round2.
  destruct (round_half_even_between 0 10000 (x * 100)) as [A B].
  - change (inject_Z 0) with 0%Q. Lqa.lra.
  - change (inject_Z 10000) with 10000%Q. Lqa.lra.
  - rewrite (Zle_Qle 0) in A. rewrite (Zle_Qle _ 10000) in B.
    change (inject_Z 0) with 0%Q in A. change (inject_Z 10000) with 10000%Q in B.
    set (r := inject_Z (round_half_even (x * 100))) in *.
    assert (E : (r / 100 == r * (1 # 100))%Q) by (unfold Qdiv; reflexivity).
    rewrite E. split; Lqa.lra.
Qed.

Lemma Qsum_ge_member (l : list Q) (a : Q) :
  (forall x, In x l -> (0 <= x)%Q) -> In a l -> (a <= Qsum l)%Q.
Proof.
  induction l as [|x l IH]; simpl; [tauto|]. intros H [-> | Ha].
  - assert (N : (0 <= Qsum (map (fun y => y) l))%Q)
      by (apply Qsum_map_nonneg; intros y Hy; apply H; auto).
    rewrite map_id in N. Lqa.lra.
  - assert (I : (a <= Qsum l)%Q) by (apply IH; auto).
    assert (0 <= x)%Q by (apply H; auto). Lqa.lra.
Qed.

Lemma percentages_range {K} `{KeyLaws K} (key : Row -> K) (df : list Row) :
  df <> [] ->
  revenues_positive df ->
  forall x, In x (percentages key df) ->
            exists q, x = Some q /\ (0 <= q)%Q /\ (q <= 100)%Q.
Proof.
  intros Hne Hpos x Hx. unfold percentages in Hx.
  set (groups := groupby key df) in *.
  set (totals := map (fun g => sum (map Revenue (snd g))) groups) in *.
  assert (Htot : forall y, In y totals -> (0 < y)%Q).
  { intros y Hy. apply in_map_iff in Hy. destruct Hy as (g & <- & Hg).
    destruct (groupby_group key df g Hg) as (Eg & Ng & _).
    apply sum_pos.
    - destruct (snd g); simpl; congruence.
    - intros v Hv. apply in_map_iff in Hv. destruct Hv as (row & <- & Hrow).
      apply Hpos. rewrite Eg in Hrow. apply filter_In in Hrow. tauto. }
  apply in_map_iff in Hx. destruct Hx as (g & <- & Hg).
  assert (Hin : In (sum (map Revenue (snd g))) totals)
    by (unfold totals; apply in_map_iff; exists g; auto).
  pose proof (Htot _ Hin) as P.
  assert (U : (sum (map Revenue (snd g)) <= Qsum totals)%Q).
  { apply Qsum_ge_member; [|exact Hin].
    intros y Hy. apply Qlt_le_weak. apply Htot. assumption. }
  assert (T : (0 < Qsum totals)%Q) by Lqa.lra.
  rewrite (revenue_percentage_value _ _ T).
  eexists. split; [reflexivity|].
  apply round2_percentage.
  - apply Qmult_le_0_compat; [|Lqa.lra].
    apply Qle_shift_div_l; Lqa.lra.
  - setoid_replace 100%Q with (1 * 100)%Q at 2 by ring.
    apply Qmult_le_compat_r; [|Lqa.lra].
    apply Qle_shift_div_r; Lqa.lra.
Qed.

(** X15.  On the non-empty result of a cleaning run, every
    RevenuePercentage of the category rollup and of the regional rollup is
    defined and lies between 0 and 100. *)
Theorem revenue_percentages_are_percentages (current_date : Timestamp)
    (df : list Raw.Row) (t : list Row) :
  clean_ecommerce_data current_date df = Ok t ->
  t <> [] ->
  (forall row,
     In row (analyze_high_revenue_categories t) ->
     exists q,
       CategoryAnalysis.RevenuePercentage row = Some q
       /\ (0 <= q)%Q /\ (q <= 100)%Q)
  /\ (forall row,
        In row (generate_regional_analysis t) ->
        exists q,
          RegionalAnalysis.RevenuePercentage row = Some q
          /\ (0 <= q)%Q /\ (q <= 100)%Q).
Proof.
  intros E Hne.
  pose proof (cleaned_revenues_positive _ _ _ E) as Hpos.
  split; intros row Hrow.
  - apply (percentages_range Category t Hne Hpos).
    apply (Permutation_in _ (category_percentages_perm t)).
    apply in_map. assumption.
  - apply (percentages_range Region t Hne Hpos).
    apply (Permutation_in _ (region_percentages_perm t)).
    apply in_map. assumption.
Qed.

Lemma revenue_percentages_are_percentages_witness :
  exists row q,
    In row (analyze_high_revenue_categories two_books_cleaned)
    /\ CategoryAnalysis.RevenuePercentage row = Some q
    /\ (0 <= q)%Q /\ (q <= 100)%Q.
Proof.
  assert (E : clean_ecommerce_data run_date two_books = Ok two_books_cleaned)
    by (vm_compute; reflexivity).
  assert (Hne : two_books_cleaned <> []) by discriminate.
  assert (R : exists row,
             In row (analyze_high_revenue_categories two_books_cleaned)).
  { eexists. vm_compute. left. reflexivity. }
  destruct R as (row & Hrow).
  destruct (proj1 (revenue_percentages_are_percentages run_date two_books
                     two_books_cleaned E Hne) row Hrow) as (q & Eq & L & U).
  exists row, q. repeat split; assumption.
Defined.

(** ** Where a filled price lies *)

(** A median lies between two of the values it is taken from. *)
Lemma median_between (xs : list float) (m : Q) :
  median xs = Some m ->
  exists a b, In a (dropna xs) /\ In b (dropna xs) /\ (a <= m)%Q /\ (m <= b)%Q.
Proof.
  unfold median.
  set (vs := sort Qle_bool (dropna xs)).
  assert (M : forall i, (i < List.length vs)%nat -> In (nth i vs 0%Q) (dropna xs)).
  { intros i Hi. apply (sort_In Qle_bool). apply nth_In. assumption. }
  destruct (List.length vs) as [|k] eqn:L; [discriminate|].
  assert (D : (Nat.div (S k) 2 < S k)%nat) by (apply Nat.div_lt; lia).
  destruct (Nat.even (S k)); intros E; injection E as <-.
  - set (x := nth (Nat.div (S k) 2 - 1) vs 0%Q).
    set (y := nth (Nat.div (S k) 2) vs 0%Q).
    assert (Hx : In x (dropna xs)) by (apply M; lia).
    assert (Hy : In y (dropna xs)) by (apply M; lia).
    destruct (Qlt_le_dec x y) as [C | C].
    + exists x, y. repeat split; try assumption.
      * change (x <= (x + y) / 2)%Q. apply Qle_shift_div_l; Lqa.lra.
      * change ((x + y) / 2 <= y)%Q. apply Qle_shift_div_r; Lqa.lra.
    + exists y, x. repeat split; try assumption.
      * change (y <= (x + y) / 2)%Q. apply Qle_shift_div_l; Lqa.lra.
      * change ((x + y) / 2 <= x)%Q. apply Qle_shift_div_r; Lqa.lra.
  - exists (nth (Nat.div (S k) 2) vs 0%Q), (nth (Nat.div (S k) 2) vs 0%Q).
    repeat split; try (apply M; lia); apply Qle_refl.
Qed.

(** X16.  A price that step 2 fills in lies between two prices that are
    present in the same category of the frame; in particular it is positive
    when all the prices present in that category are. *)
Theorem filled_price_lies_within_the_category (df : list Raw.Row) :
  exists filled,
    handle_missing_values df = Ok filled
    /\ forall i row row' p,
         nth_error df i = Some row ->
         nth_error filled i = Some row' ->
         Raw.Price row = None ->
         Raw.Price row' = Some p ->
         exists low high a b,
           In low df /\ In high df
           /\ Raw.Category low = Raw.Category row
           /\ Raw.Category high = Raw.Category row
           /\ Raw.Price low = Some a /\ Raw.Price high = Some b
           /\ (a <= p)%Q /\ (p <= b)%Q.
Proof.
  eexists. split; [apply handle_missing_values_map|].
  intros i row row' p Hi Hi' Hnone Hp.
  rewrite nth_error_map, Hi in Hi'. injection Hi' as <-.
  unfold imputed, filled_price in Hp. simpl in Hp. rewrite Hnone in Hp.
  destruct (median_between _ _ Hp) as (a & b & Ha & Hb & La & Lb).
  assert (R : forall x,
             In x (dropna (map Raw.Price
                               (filter (fun r => String.eqb (Raw.Category r)
                                                            (Raw.Category row))
                                       df))) ->
             exists r, In r df /\ Raw.Category r = Raw.Category row
                       /\ Raw.Price r = Some x).
  { intros x Hx. apply dropna_In in Hx. apply in_map_iff in Hx.
    destruct Hx as (r & Er & Hr). apply filter_In in Hr.
    destruct Hr as [Hr Hc]. apply String.eqb_eq in Hc. eauto. }
  destruct (R a Ha) as (low & Hl & Cl & Pl).
  destruct (R b Hb) as (high & Hh & Ch & Ph).
  exists low, high, a, b. repeat split; assumption.
Qed.
